(** * Settings merge of install.py

    A shallow embedding of [dedupe_hooks], [merge_settings] and the pure part
    of [update_settings_file] from install.py, together with the properties
    the specification states about the settings-merge engine.  Around it, the
    settings part of [main], the fragments of [HookManager._generate_settings]
    and [CommandManager.install], the selection of [HookManager.get_hooks]
    and [parse_frontmatter], with properties read off the code.

    Python values are the values [json.loads] produces.  Dictionaries keep
    their insertion order, which the merge relies on, so they are association
    lists.  Python exceptions are results in an error monad.  JSON numerals
    are Python integers here; numerals with a fraction or an exponent are
    outside the model.  A string is the sequence of its bytes: for ASCII
    text this is the Python string, and only [chars] looks at the single
    characters. *)

From Stdlib Require Import List String Ascii ZArith Bool Lia.
Import ListNotations.
Open Scope string_scope.
Open Scope list_scope.

Set Implicit Arguments.
Set Warnings "-register-all".

(** ** Python values *)

(** The hashable scalars: the values that may be keys of a [dict] or members
    of a [set]. *)
Inductive atom : Type :=
| ANone
| ABool (b : bool)
| AInt (z : Z)
| AStr (s : string).

Inductive json : Type :=
| JAtom (a : atom)
| JArr (l : list json)
| JObj (l : list (string * json)).

Definition JStr (s : string) : json := JAtom (AStr s).

(** Python's [==] on hashable scalars: [True == 1] and [False == 0]. *)
Definition atom_num (a : atom) : Z :=
  match a with
  | ABool b => Z.b2z b
  | AInt z => z
  | _ => 0%Z
  end.

Definition atom_eqb (a b : atom) : bool :=
  match a, b with
  | ANone, ANone => true
  | AStr s, AStr t => String.eqb s t
  | (ABool _ | AInt _), (ABool _ | AInt _) => Z.eqb (atom_num a) (atom_num b)
  | _, _ => false
  end.

(** ** Exceptions *)

Inductive pyerr : Type :=
| AttributeError
| TypeError
| KeyError (k : string).

Inductive res (A : Type) : Type :=
| Ok (a : A)
| Err (e : pyerr).
Arguments Ok {A} a.
Arguments Err {A} e.

Definition bind {A B : Type} (c : res A) (k : A -> res B) : res B :=
  match c with
  | Ok a => k a
  | Err e => Err e
  end.

Notation "x <- c ;; k" := (bind c (fun x => k))
  (at level 61, c at next level, right associativity).

(** A [for] loop whose body may raise, threading the loop state. *)
Fixpoint foldM {A S : Type} (f : S -> A -> res S) (l : list A) (s : S) : res S :=
  match l with
  | [] => Ok s
  | a :: l' => s' <- f s a ;; foldM f l' s'
  end.

(** A comprehension, or a loop that replaces every value it visits. *)
Fixpoint mapM {A B : Type} (f : A -> res B) (l : list A) : res (list B) :=
  match l with
  | [] => Ok []
  | a :: l' => b <- f a ;; bs <- mapM f l' ;; Ok (b :: bs)
  end.

Definition is_ok {A : Type} (c : res A) : bool :=
  match c with Ok _ => true | Err _ => false end.

(** ** Insertion-ordered dictionaries *)

Section Dict.
Variables (K V : Type) (eqb : K -> K -> bool).

(** [k in ks], for a sequence of keys. *)
Definition kmem (k : K) (ks : list K) : bool := existsb (eqb k) ks.

Fixpoint dict_get (k : K) (d : list (K * V)) : option V :=
  match d with
  | [] => None
  | (k', v) :: d' => if eqb k' k then Some v else dict_get k d'
  end.

Definition dict_mem (k : K) (d : list (K * V)) : bool :=
  match dict_get k d with Some _ => true | None => false end.

(** [d[k] = v]: an existing key keeps its position and its first spelling,
    a new key goes last. *)
Fixpoint dict_set (k : K) (v : V) (d : list (K * V)) : list (K * V) :=
  match d with
  | [] => [(k, v)]
  | (k', v') :: d' =>
      if eqb k' k then (k', v) :: d' else (k', v') :: dict_set k v d'
  end.
End Dict.

(** [if k not in d: d[k] = []] followed by [d[k].extend(xs)]. *)
Definition setdefault_extend {K V : Type} (eqb : K -> K -> bool)
    (k : K) (xs : list V) (d : list (K * list V)) : list (K * list V) :=
  let d' := if dict_mem eqb k d then d else dict_set eqb k [] d in
  match dict_get eqb k d' with
  | Some cur => dict_set eqb k (cur ++ xs) d'
  | None => d'
  end.

Definition str_get {V : Type} := @dict_get string V String.eqb.
Definition str_set {V : Type} := @dict_set string V String.eqb.

(** ** Python operations on values *)

(** [v.items()] *)
Definition py_items (v : json) : res (list (string * json)) :=
  match v with
  | JObj l => Ok l
  | _ => Err AttributeError
  end.

(** The characters of a string, as iterating it gives them.  Python
    iterates code points; the bytes here are the same thing for a string of
    ASCII characters. *)
Fixpoint chars (s : string) : list json :=
  match s with
  | EmptyString => []
  | String c s' => JStr (String c EmptyString) :: chars s'
  end.

(** The elements [list.extend(v)] appends: those of a list, the keys of a
    dict, the characters of a string. *)
Definition py_iter (v : json) : res (list json) :=
  match v with
  | JArr l => Ok l
  | JObj l => Ok (map (fun kv => JStr (fst kv)) l)
  | JAtom (AStr s) => Ok (chars s)
  | JAtom _ => Err TypeError
  end.

(** [v.get(k, default)] *)
Definition py_get (v : json) (k : string) (default : json) : res json :=
  match v with
  | JObj l => Ok (match str_get k l with Some x => x | None => default end)
  | _ => Err AttributeError
  end.

(** Hashing, as a membership test or a dict insertion does first. *)
Definition py_hash (v : json) : res atom :=
  match v with
  | JAtom a => Ok a
  | _ => Err TypeError
  end.

(** [k in seen], for a set or the keys of a dict; the members are kept in
    the order they were added. *)
Definition set_mem (k : atom) (seen : list atom) : bool :=
  kmem atom_eqb k seen.

(** ** dedupe_hooks *)

Fixpoint dedupe_hooks_loop (seen : list atom) (result hook_list : list json)
    : res (list json) :=
  match hook_list with
  | [] => Ok result
  | hook :: rest =>
      key <- py_get hook "command" (JStr "") ;;
      k <- py_hash key ;;
      if set_mem k seen
      then dedupe_hooks_loop seen result rest
      else dedupe_hooks_loop (seen ++ [k]) (result ++ [hook]) rest
  end.

Definition dedupe_hooks (hook_list : list json) : res (list json) :=
  dedupe_hooks_loop [] [] hook_list.

(** ** merge_settings *)

(** The values the accumulator [result] holds: [result['hooks']] maps a hook
    type to a list, [result['permissions']] maps a permission kind to a list,
    any other key holds the document's value as it is. *)
Inductive slot : Type :=
| Hooks (h : list (string * list json))
| Perms (p : list (string * list json))
| Plain (v : json).

Definition result_dict : Type := list (string * slot).

(** Body of [for hook_type, hook_list in value.items()]: [extend] raises
    [TypeError] on a [hook_list] that cannot be iterated. *)
Definition extend_hook_type (h : list (string * list json))
    (item : string * json) : res (list (string * list json)) :=
  let '(hook_type, hook_list) := item in
  xs <- py_iter hook_list ;;
  Ok (setdefault_extend String.eqb hook_type xs h).

(** Body of [for perm_type, perm_list in value.items()]: the lookup
    [result['permissions'][perm_type]] comes first and raises [KeyError] for
    a kind that is not there, then [extend] iterates [perm_list]. *)
Definition extend_perm_type (p : list (string * list json))
    (item : string * json) : res (list (string * list json)) :=
  let '(perm_type, perm_list) := item in
  match str_get perm_type p with
  | None => Err (KeyError perm_type)
  | Some cur =>
      xs <- py_iter perm_list ;;
      Ok (str_set perm_type (cur ++ xs) p)
  end.

Definition empty_permissions : list (string * list json) :=
  [("allow", []); ("deny", []); ("ask", [])].

(** [result['hooks']], as [if 'hooks' not in result: result['hooks'] = {}]
    leaves it: the empty dict when the key is new. *)
Definition hooks_of (result : result_dict) : list (string * list json) :=
  match str_get "hooks" result with
  | Some (Hooks h) => h
  | _ => []
  end.

(** [result['permissions']], as [if 'permissions' not in result: ...] leaves
    it: the three empty lists when the key is new. *)
Definition permissions_of (result : result_dict) : list (string * list json) :=
  match str_get "permissions" result with
  | Some (Perms p) => p
  | _ => empty_permissions
  end.

(** Body of [for key, value in settings.items()]. *)
Definition merge_item (result : result_dict) (item : string * json)
    : res result_dict :=
  let '(key, value) := item in
  if key =? "hooks" then
    its <- py_items value ;;
    h <- foldM extend_hook_type its (hooks_of result) ;;
    Ok (str_set "hooks" (Hooks h) result)
  else if key =? "permissions" then
    its <- py_items value ;;
    p <- foldM extend_perm_type its (permissions_of result) ;;
    Ok (str_set "permissions" (Perms p) result)
  else
    Ok (str_set key (Plain value) result).

(** Body of [for settings in settings_dicts]. *)
Definition merge_doc (result : result_dict) (settings : json)
    : res result_dict :=
  its <- py_items settings ;;
  foldM merge_item its result.

(** Body of [for entry in result['hooks'][hook_type]]. *)
Definition group_entry (by_matcher : list (atom * list json)) (entry : json)
    : res (list (atom * list json)) :=
  matcher <- py_get entry "matcher" (JStr "") ;;
  m <- py_hash matcher ;;
  hooks <- py_get entry "hooks" (JArr []) ;;
  xs <- py_iter hooks ;;
  Ok (setdefault_extend atom_eqb m xs by_matcher).

Definition rebuild_group (g : atom * list json) : res json :=
  let '(matcher, hooks) := g in
  d <- dedupe_hooks hooks ;;
  Ok (JObj [("matcher", JAtom matcher); ("hooks", JArr d)]).

(** Body of [for hook_type in result['hooks']]. *)
Definition regroup (entries : list json) : res (list json) :=
  by_matcher <- foldM group_entry entries [] ;;
  mapM rebuild_group by_matcher.

Definition on_values {K A B : Type} (f : A -> res B) (kv : K * A)
    : res (K * B) :=
  b <- f (snd kv) ;; Ok (fst kv, b).

Definition dedupe_hooks_section (result : result_dict) : res result_dict :=
  match str_get "hooks" result with
  | Some (Hooks h) =>
      h' <- mapM (on_values regroup) h ;;
      Ok (str_set "hooks" (Hooks h') result)
  | _ => Ok result
  end.

(** [list(dict.fromkeys(l))] *)
Fixpoint fromkeys_loop (keys : list atom) (l : list json) : res (list atom) :=
  match l with
  | [] => Ok keys
  | x :: rest =>
      k <- py_hash x ;;
      fromkeys_loop (if set_mem k keys then keys else keys ++ [k]) rest
  end.

Definition list_fromkeys (l : list json) : res (list json) :=
  keys <- fromkeys_loop [] l ;;
  Ok (map JAtom keys).

Definition dedupe_permissions_section (result : result_dict)
    : res result_dict :=
  match str_get "permissions" result with
  | Some (Perms p) =>
      p' <- mapM (on_values list_fromkeys) p ;;
      Ok (str_set "permissions" (Perms p') result)
  | _ => Ok result
  end.

(** The dictionary [merge_settings] returns, as a value. *)
Definition lists_json (d : list (string * list json)) : json :=
  JObj (map (fun kv => (fst kv, JArr (snd kv))) d).

Definition slot_json (s : slot) : json :=
  match s with
  | Hooks h => lists_json h
  | Perms p => lists_json p
  | Plain v => v
  end.

Definition result_json (result : result_dict) : json :=
  JObj (map (fun kv => (fst kv, slot_json (snd kv))) result).

Definition merge_result (settings_dicts : list json) : res result_dict :=
  r1 <- foldM merge_doc settings_dicts [] ;;
  r2 <- dedupe_hooks_section r1 ;;
  dedupe_permissions_section r2.

Definition merge_settings (settings_dicts : list json) : res json :=
  r <- merge_result settings_dicts ;;
  Ok (result_json r).

(** [update_settings_file], without the file: [existing] is what
    [json.loads] read, or is absent when the file does not exist. *)
Definition update_settings_file (existing : option json) (new_settings : json)
    : res json :=
  let existing := match existing with Some e => e | None => JObj [] end in
  merge_settings [existing; new_settings].

(** ** Grouping and deduplication as functions on lists

    What the loops above compute, written without an accumulator: these are
    the functions the specification's words describe, and the facts below
    relate the loops to them. *)

Section Keyed.
Variables (K : Type) (eqb : K -> K -> bool).

(** No two keys of the sequence are equal. *)
Fixpoint distinct (ks : list K) : bool :=
  match ks with
  | [] => true
  | k :: ks' => negb (kmem eqb k ks') && distinct ks'
  end.

(** First occurrence kept, order preserved: an element is dropped when its
    key is in [seen] or belongs to an earlier element. *)
Fixpoint uniq_by {A : Type} (key : A -> K) (seen : list K) (l : list A)
    : list A :=
  match l with
  | [] => []
  | x :: l' =>
      if kmem eqb (key x) seen then uniq_by key seen l'
      else x :: uniq_by key (seen ++ [key x]) l'
  end.

(** Everything that arrived under key [k], concatenated in arrival order. *)
Definition gather {V : Type} (k : K) (its : list (K * list V)) : list V :=
  flat_map snd (filter (fun kv => eqb (fst kv) k) its).

(** One accumulator per key, extended in arrival order. *)
Definition accum {V : Type} (its d : list (K * list V)) : list (K * list V) :=
  fold_left (fun d kv => setdefault_extend eqb (fst kv) (snd kv) d) its d.

(** One entry per distinct key, in order of first appearance. *)
Definition grouped {V : Type} (its : list (K * list V)) : list (K * list V) :=
  map (fun k => (k, gather k its)) (uniq_by (fun k => k) [] (map fst its)).
End Keyed.

Definition keys {K V : Type} (d : list (K * V)) : list K := map fst d.

Definition dflt {V : Type} (o : option (list V)) : list V :=
  match o with Some l => l | None => [] end.

Definition from_ok {A : Type} (default : A) (c : res A) : A :=
  match c with Ok a => a | Err _ => default end.

(** The elements of an iterable value, nothing for a value that has none. *)
Definition elems (v : json) : list json := from_ok [] (py_iter v).

Definition doc_items (v : json) : list (string * json) := from_ok [] (py_items v).

(** The three reads of a loop body, as one step. *)
Definition hook_key (hook : json) : res (atom * json) :=
  key <- py_get hook "command" (JStr "") ;;
  k <- py_hash key ;;
  Ok (k, hook).

Definition parse_group (entry : json) : res (atom * list json) :=
  matcher <- py_get entry "matcher" (JStr "") ;;
  m <- py_hash matcher ;;
  hooks <- py_get entry "hooks" (JArr []) ;;
  xs <- py_iter hooks ;;
  Ok (m, xs).

Definition iter_item (item : string * json) : res (string * list json) :=
  xs <- py_iter (snd item) ;; Ok (fst item, xs).

Definition perm_kinds : list string := ["allow"; "deny"; "ask"].

Definition perm_item (item : string * json) : res (string * list json) :=
  if kmem String.eqb (fst item) perm_kinds
  then iter_item item
  else Err (KeyError (fst item)).

(** The identity key of a hook entry: its [command], or [""] without one. *)
Definition hook_command (hook : json) : atom :=
  from_ok (AStr "") (k <- hook_key hook ;; Ok (fst k)).

Definition group_matcher (entry : json) : atom :=
  fst (from_ok (AStr "", []) (parse_group entry)).

Definition group_hooks (entry : json) : list json :=
  snd (from_ok (AStr "", []) (parse_group entry)).

Definition atom_of (v : json) : atom := from_ok ANone (py_hash v).

(** ** Documents the merge accepts *)

Definition ok_hook (hook : json) : bool := is_ok (hook_key hook).

Definition ok_group (entry : json) : bool :=
  is_ok (parse_group entry) && forallb ok_hook (group_hooks entry).

Definition ok_hook_list (hook_list : json) : bool :=
  is_ok (py_iter hook_list) && forallb ok_group (elems hook_list).

Definition ok_perm_list (perm_list : json) : bool :=
  is_ok (py_iter perm_list)
  && forallb (fun x => is_ok (py_hash x)) (elems perm_list).

Definition ok_hooks (value : json) : bool :=
  is_ok (py_items value)
  && forallb (fun it => ok_hook_list (snd it)) (doc_items value).

Definition ok_permissions (value : json) : bool :=
  is_ok (py_items value)
  && forallb (fun it => kmem String.eqb (fst it) perm_kinds
                        && ok_perm_list (snd it)) (doc_items value).

Definition ok_item (item : string * json) : bool :=
  if fst item =? "hooks" then ok_hooks (snd item)
  else if fst item =? "permissions" then ok_permissions (snd item)
  else true.

(** Every access [merge_settings] makes into the document succeeds. *)
Definition mergeable (settings : json) : bool :=
  is_ok (py_items settings) && forallb ok_item (doc_items settings).

(** ** Valid settings documents

    The data model of the specification, every key optional: hook entries
    and matcher groups are mappings, [command], [matcher] and permissions are
    strings, hook lists and permission lists are sequences. *)

Definition is_string (v : json) : bool :=
  match v with JAtom (AStr _) => true | _ => false end.

Definition absent_or {V : Type} (p : V -> bool) (o : option V) : bool :=
  match o with Some v => p v | None => true end.

Definition valid_entry (hook : json) : bool :=
  match hook with
  | JObj kv => absent_or is_string (str_get "command" kv)
  | _ => false
  end.

Definition valid_sequence (p : json -> bool) (v : json) : bool :=
  match v with JArr l => forallb p l | _ => false end.

Definition valid_group (entry : json) : bool :=
  match entry with
  | JObj kv =>
      absent_or is_string (str_get "matcher" kv)
      && absent_or (valid_sequence valid_entry) (str_get "hooks" kv)
  | _ => false
  end.

Definition valid_hooks (value : json) : bool :=
  match value with
  | JObj its => forallb (fun it => valid_sequence valid_group (snd it)) its
  | _ => false
  end.

Definition valid_permissions (value : json) : bool :=
  match value with
  | JObj its =>
      forallb (fun it => kmem String.eqb (fst it) perm_kinds
                         && valid_sequence is_string (snd it)) its
  | _ => false
  end.

Definition valid_item (item : string * json) : bool :=
  if fst item =? "hooks" then valid_hooks (snd item)
  else if fst item =? "permissions" then valid_permissions (snd item)
  else true.

Definition valid_doc (settings : json) : bool :=
  match settings with
  | JObj its => forallb valid_item its
  | _ => false
  end.

(** ** What a list of documents contributes *)

Definition all_items (docs : list json) : list (string * json) :=
  flat_map doc_items docs.

(** The [(key, list)] pairs of a [hooks] or [permissions] value. *)
Definition item_lists (value : json) : list (string * list json) :=
  map (fun it => (fst it, elems (snd it))) (doc_items value).

Definition section_items (name : string) (its : list (string * json))
    : list (string * list json) :=
  flat_map (fun kv => if fst kv =? name then item_lists (snd kv) else []) its.

(** The [(hook_type, hook_list)] pairs under every [hooks] key, in order. *)
Definition hook_items : list (string * json) -> list (string * list json) :=
  section_items "hooks".

(** The [(perm_type, perm_list)] pairs under every [permissions] key. *)
Definition perm_items : list (string * json) -> list (string * list json) :=
  section_items "permissions".

(** The value of the last item with key [k]. *)
Fixpoint last_value (k : string) (its : list (string * json)) : option json :=
  match its with
  | [] => None
  | (k', v) :: its' =>
      match last_value k its' with
      | Some x => Some x
      | None => if k' =? k then Some v else None
      end
  end.

Definition group_json (g : atom * list json) : json :=
  JObj [("matcher", JAtom (fst g)); ("hooks", JArr (snd g))].

(** The matcher groups of one hook type: one group per distinct matcher, in
    order of first appearance, each holding the entries that arrived under
    it, the first of every command kept. *)
Definition merged_groups (entries : list json) : list json :=
  map (fun g => group_json (fst g, uniq_by atom_eqb hook_command [] (snd g)))
      (grouped atom_eqb
         (map (fun e => (group_matcher e, group_hooks e)) entries)).

(** A permission list: the first of every string kept. *)
Definition merged_permissions (l : list json) : list json :=
  map JAtom (uniq_by atom_eqb (fun a => a) [] (map atom_of l)).

Definition map_values {K A B : Type} (f : A -> B) (d : list (K * A))
    : list (K * B) :=
  map (fun kv => (fst kv, f (snd kv))) d.

(** The hook types of the merged document with their matcher groups. *)
Definition merged_hooks (docs : list json) : list (string * list json) :=
  map_values merged_groups (grouped String.eqb (hook_items (all_items docs))).

(** The three permission lists of the merged document. *)
Definition merged_perms (docs : list json) : list (string * list json) :=
  map (fun k => (k, merged_permissions
                      (gather String.eqb k (perm_items (all_items docs)))))
      perm_kinds.

(** ** The accumulator between the loops *)

(** What the first loop reads of an item: the shapes it iterates over, not
    yet the matcher groups and hook entries inside. *)
Definition loadable_item (item : string * json) : bool :=
  if fst item =? "hooks" then
    is_ok (py_items (snd item))
    && forallb (fun it => is_ok (py_iter (snd it))) (doc_items (snd item))
  else if fst item =? "permissions" then
    is_ok (py_items (snd item))
    && forallb (fun it => kmem String.eqb (fst it) perm_kinds
                          && is_ok (py_iter (snd it))) (doc_items (snd item))
  else true.

(** The value [merge_item] stores under the item's key. *)
Definition new_slot (result : result_dict) (item : string * json) : slot :=
  if fst item =? "hooks" then
    Hooks (accum String.eqb (item_lists (snd item)) (hooks_of result))
  else if fst item =? "permissions" then
    Perms (accum String.eqb (item_lists (snd item)) (permissions_of result))
  else Plain (snd item).

(** The two deduplication passes after the first loop. *)
Definition finish (result : result_dict) : res result_dict :=
  r2 <- dedupe_hooks_section result ;;
  dedupe_permissions_section r2.

(** The first loop on items it can read, as a fold. *)
Definition absorb (its : list (string * json)) (result : result_dict)
    : result_dict :=
  fold_left (fun r it => str_set (fst it) (new_slot r it) r) its result.

(** The kind of value each key of [result] holds. *)
Definition slot_ok (kv : string * slot) : Prop :=
  match snd kv with
  | Hooks h => fst kv = "hooks" /\ distinct String.eqb (keys h) = true
  | Perms p => fst kv = "permissions" /\ keys p = perm_kinds
  | Plain _ => fst kv <> "hooks" /\ fst kv <> "permissions"
  end.

Definition wf_result (result : result_dict) : Prop :=
  distinct String.eqb (keys result) = true /\ Forall slot_ok result.

(** ** Reading the merged document *)

(** [out[k]], when the key is present. *)
Definition out_get (out : json) (k : string) : option json :=
  str_get k (doc_items out).

(** [out['hooks'][hook_type]] *)
Definition hook_type_groups (out : json) (hook_type : string) : option json :=
  match out_get out "hooks" with
  | Some hv => out_get hv hook_type
  | None => None
  end.

(** [out['permissions'][kind]] *)
Definition permission_list (out : json) (kind : string) : option json :=
  match out_get out "permissions" with
  | Some pv => out_get pv kind
  | None => None
  end.

(** The matcher groups that arrived under a hook type, over all documents in
    merge order. *)
Definition arrived_groups (docs : list json) (hook_type : string) : list json :=
  gather String.eqb hook_type (hook_items (all_items docs)).

(** The hook entries that arrived under a matcher, in arrival order. *)
Definition arrived_hooks (groups : list json) (matcher : atom) : list json :=
  flat_map group_hooks
    (filter (fun e => atom_eqb (group_matcher e) matcher) groups).

(** The permissions that arrived under a kind, over all documents in merge
    order. *)
Definition arrived_permissions (docs : list json) (kind : string) : list json :=
  gather String.eqb kind (perm_items (all_items docs)).

(** Some document has the top-level key. *)
Definition has_key (docs : list json) (k : string) : bool :=
  kmem String.eqb k (map fst (all_items docs)).

(** [l1] is [l2] with some elements left out, the others in their order. *)
Inductive subseq {A : Type} : list A -> list A -> Prop :=
| subseq_nil : subseq [] []
| subseq_skip x l1 l2 : subseq l1 l2 -> subseq l1 (x :: l2)
| subseq_keep x l1 l2 : subseq l1 l2 -> subseq (x :: l1) (x :: l2).

(** A hook entry without a [command], or with the empty one. *)
Definition blank_command (hook : json) : bool :=
  match hook with
  | JObj kv =>
      match str_get "command" kv with
      | None => true
      | Some (JAtom (AStr s)) => s =? ""
      | Some _ => false
      end
  | _ => false
  end.

(** ** Shapes, statements and example documents *)

(** The comparison of keys is an equivalence: Python's [==] on the values
    that are hashed. *)
Class KeyEq {K : Type} (eqb : K -> K -> bool) : Prop := {
  keq_refl : forall a, eqb a a = true;
  keq_sym : forall a b, eqb a b = eqb b a;
  keq_trans : forall a b c, eqb a b = true -> eqb b c = true -> eqb a c = true
}.

Definition enc (kv : string * slot) : string * json :=
  (fst kv, slot_json (snd kv)).

(** Example documents for the statements below. *)
Definition doc_D : json :=
  JObj [("model", JStr "opus");
        ("hooks", JObj [("PreToolUse",
           JArr [JObj [("matcher", JStr "Bash");
                       ("hooks", JArr [JObj [("type", JStr "command");
                                             ("command", JStr "run-a");
                                             ("statusMessage", JStr "A")]])]])]);
        ("permissions", JObj [("allow", JArr [JStr "Skill(a)"])])].

Definition doc_F : json :=
  JObj [("hooks", JObj [("PreToolUse",
           JArr [JObj [("matcher", JStr "Bash");
                       ("hooks", JArr [JObj [("type", JStr "command");
                                             ("command", JStr "run-a");
                                             ("statusMessage", JStr "again")];
                                       JObj [("type", JStr "command");
                                             ("command", JStr "run-b");
                                             ("statusMessage", JStr "B")]])]])]);
        ("permissions", JObj [("allow", JArr [JStr "Skill(a)"; JStr "Skill(b)"])]);
        ("model", JStr "sonnet")].

Definition doc_theme_dark : json :=
  JObj [("theme", JStr "dark"); ("permissions", JObj [("deny", JArr [])])].

Definition doc_theme_light : json :=
  JObj [("theme", JArr [JStr "light"; JAtom (AInt 7)]); ("model", JAtom ANone)].

Definition allow_AB : json :=
  JObj [("permissions", JObj [("allow", JArr [JStr "A"; JStr "B"])])].

Definition allow_BC : json :=
  JObj [("permissions", JObj [("allow", JArr [JStr "B"; JStr "C"])])].

(** No hook type of the document has a matcher group. *)
Definition no_matcher_groups (out : json) : bool :=
  match out_get out "hooks" with
  | None => true
  | Some hv =>
      forallb (fun kv => match elems (snd kv) with [] => true | _ => false end)
              (doc_items hv)
  end.

(** The omission of empty hook sections, as the specification words it. *)
Definition omits_empty_hooks (docs : list json) : Prop :=
  forall out, merge_settings docs = Ok out ->
    no_matcher_groups out = true -> out_get out "hooks" = None.

Definition empty_hooks_doc : json := JObj [("hooks", JObj [])].

Definition empty_hook_type_doc : json :=
  JObj [("hooks", JObj [("PreToolUse", JArr [])])].

Definition hook_entry (command status : string) : json :=
  JObj [("type", JStr "command"); ("command", JStr command);
        ("statusMessage", JStr status)].

Definition hook_fragment (matcher command status : string) : json :=
  JObj [("hooks", JObj [("PreToolUse",
          JArr [JObj [("matcher", JStr matcher);
                      ("hooks", JArr [hook_entry command status])]])])].

Definition two_matchers : list json :=
  [hook_fragment "Bash" "run-a" "A"; hook_fragment "Edit" "fmt" "F";
   hook_fragment "Bash" "run-b" "B"].

Definition no_command : json :=
  JObj [("type", JStr "command"); ("statusMessage", JStr "no command")].

Definition empty_command : json :=
  JObj [("type", JStr "command"); ("command", JStr "");
        ("statusMessage", JStr "empty command")].

Definition blank_fragment (hook : json) : json :=
  JObj [("hooks", JObj [("PostToolUse",
          JArr [JObj [("matcher", JStr "Edit"); ("hooks", JArr [hook])]])])].

(** A matcher group as the merge writes it: [matcher] then [hooks], the
    entries mappings with pairwise different commands. *)
Definition canonical_group (g : json) : bool :=
  match g with
  | JObj [(k1, JAtom _); (k2, JArr es)] =>
      (k1 =? "matcher") && (k2 =? "hooks")
      && forallb ok_hook es && distinct atom_eqb (map hook_command es)
  | _ => false
  end.

(** The groups of a hook type: canonical groups with different matchers. *)
Definition canonical_groups (v : json) : bool :=
  match v with
  | JArr gs =>
      forallb canonical_group gs && distinct atom_eqb (map group_matcher gs)
  | _ => false
  end.

Definition canonical_hooks (v : json) : bool :=
  match v with
  | JObj hts =>
      distinct String.eqb (keys hts)
      && forallb (fun kv => canonical_groups (snd kv)) hts
  | _ => false
  end.

(** A permission list without duplicates. *)
Definition canonical_list (v : json) : bool :=
  match v with
  | JArr l =>
      forallb (fun x => is_ok (py_hash x)) l
      && distinct atom_eqb (map atom_of l)
  | _ => false
  end.

Definition canonical_permissions (v : json) : bool :=
  match v with
  | JObj [(k1, a); (k2, d); (k3, s)] =>
      (k1 =? "allow") && (k2 =? "deny") && (k3 =? "ask")
      && canonical_list a && canonical_list d && canonical_list s
  | _ => false
  end.

Definition canonical_item (kv : string * json) : bool :=
  if fst kv =? "hooks" then canonical_hooks (snd kv)
  else if fst kv =? "permissions" then canonical_permissions (snd kv)
  else true.

(** A document in the form the merge writes: matcher groups merged, hook
    entries deduplicated by command, permission lists deduplicated, the three
    permission lists present in the order [allow], [deny], [ask] when
    [permissions] is. *)
Definition canonical (settings : json) : bool :=
  match settings with
  | JObj its => distinct String.eqb (keys its) && forallb canonical_item its
  | _ => false
  end.

(** The accumulator a canonical document is the value of. *)
Definition dec (kv : string * json) : string * slot :=
  (fst kv,
   if fst kv =? "hooks" then Hooks (item_lists (snd kv))
   else if fst kv =? "permissions" then Perms (item_lists (snd kv))
   else Plain (snd kv)).

Definition canonical_doc : json :=
  JObj [("hooks", JObj [("PreToolUse",
           JArr [JObj [("matcher", JStr "Bash");
                       ("hooks", JArr [hook_entry "run-a" "A";
                                       hook_entry "run-b" "B"])];
                 JObj [("matcher", JStr "Edit"); ("hooks", JArr [])]]);
                        ("PostToolUse", JArr [])]);
        ("model", JStr "opus");
        ("permissions", JObj [("allow", JArr [JStr "Skill(a)"; JStr "Skill(b)"]);
                              ("deny", JArr []);
                              ("ask", JArr [JStr "Bash(rm:*)"])])].

(** A document the first loop reads to its end. *)
Definition loadable (settings : json) : bool :=
  is_ok (py_items settings) && forallb loadable_item (doc_items settings).

Definition unknown_kind_doc : json :=
  JObj [("permissions", JObj [("allow", JArr [JStr "Skill(a)"]);
                              ("forbid", JArr [JStr "Bash"])])].

(** A value that is not a mapping where the merge needs one: the document
    itself, or its [hooks] or [permissions] value. *)
Definition malformed_top (settings : json) : bool :=
  negb (is_ok (py_items settings))
  || existsb (fun kv => ((fst kv =? "hooks") || (fst kv =? "permissions"))
                        && negb (is_ok (py_items (snd kv))))
             (doc_items settings).

(** The propagation of errors, as the specification words it: a document
    that is not valid makes the merge raise. *)
Definition raises_on_invalid (docs : list json) : Prop :=
  forallb valid_doc docs = false -> is_ok (merge_settings docs) = false.

Definition string_allow_doc : json :=
  JObj [("permissions", JObj [("allow", JStr "AB")])].

Definition mapping_hook_list_doc : json :=
  JObj [("hooks", JObj [("PreToolUse", JObj [])])].

Definition number_matcher_doc : json :=
  JObj [("hooks", JObj [("PreToolUse",
          JArr [JObj [("matcher", JAtom (AInt 5)); ("hooks", JStr "")]])])].

Definition sparse_doc : json :=
  JObj [("hooks", JObj [("PreToolUse", JArr [JObj []; JObj [("hooks", JArr [JObj []])]])]);
        ("permissions", JObj [("ask", JArr [])])].

(** ** main: what is written to the settings file *)

(** Truth value of a Python value, as [if merged:] tests it. *)
Definition py_truthy (v : json) : bool :=
  match v with
  | JAtom ANone => false
  | JAtom (ABool b) => b
  | JAtom (AInt z) => negb (z =? 0)%Z
  | JAtom (AStr s) => negb (s =? "")
  | JArr l => match l with [] => false | _ => true end
  | JObj l => match l with [] => false | _ => true end
  end.

(** The settings part of [main]: the fragments the installs returned are
    merged; when the result is not empty, [update_settings_file] merges it
    into the persisted document and writes the result back.  [existing] is
    the persisted document as [json.loads] read it, absent without a file;
    the value is the document written, [None] when the file is left alone. *)
Definition main_settings (existing : option json) (all_settings : list json)
    : res (option json) :=
  merged <- merge_settings all_settings ;;
  if py_truthy merged then
    written <- update_settings_file existing merged ;;
    Ok (Some written)
  else Ok None.

(** The persisted document [update_settings_file] starts from. *)
Definition existing_or_empty (existing : option json) : json :=
  match existing with Some e => e | None => JObj [] end.

(** A matcher group that is not a mapping: the first loop reads past it. *)
Definition bad_group_doc : json :=
  JObj [("hooks", JObj [("PreToolUse", JArr [JAtom (AInt 1)])])].

(** A hook list that cannot be iterated. *)
Definition number_hook_list_doc : json :=
  JObj [("hooks", JObj [("PreToolUse", JAtom (AInt 3))])].

(** The empty mapping, the fragment of an install that has no settings. *)
Definition is_empty_doc (d : json) : bool :=
  match d with JObj [] => true | _ => false end.

(** ** The fragments the managers produce *)

(** [v[k]] for a string [k]: only a dict can be indexed by a string. *)
Definition py_index (v : json) (k : string) : res json :=
  match v with
  | JObj l =>
      match str_get k l with
      | Some x => Ok x
      | None => Err (KeyError k)
      end
  | _ => Err TypeError
  end.

(** [s.endswith(suffix)] *)
Fixpoint ends_with (suffix s : string) : bool :=
  (s =? suffix)
  || match s with
     | EmptyString => false
     | String _ s' => ends_with suffix s'
     end.

(** [v == s] for a string [s]. *)
Definition py_eq_str (v : json) (s : string) : bool :=
  match v with
  | JAtom (AStr t) => t =? s
  | _ => false
  end.

(** The f-string of [_generate_settings]: [endswith] is looked up on
    [hook['file']] first, and only a string has it. *)
Definition hook_command_line (file : json) : res string :=
  match file with
  | JAtom (AStr f) =>
      Ok (String.append (if ends_with ".py" f then "python3" else "bash")
            (String.append " .claude/hooks/" f))
  | _ => Err AttributeError
  end.

(** The [entry] built for a hook definition.  The default of
    [hook.get('statusMessage', hook['name'])] is evaluated before the call,
    whether the hook has a [statusMessage] or not. *)
Definition generate_entry (hook : json) : res json :=
  file <- py_index hook "file" ;;
  command <- hook_command_line file ;;
  name <- py_index hook "name" ;;
  status <- py_get hook "statusMessage" name ;;
  Ok (JObj [("type", JStr "command"); ("command", JStr command);
            ("statusMessage", status)]).

(** The two dictionaries of [_generate_settings], from matcher to entries. *)
Record tool_use : Type := {
  pre_tool_use : list (atom * list json);
  post_tool_use : list (atom * list json)
}.

(** Body of [for hook in hooks]. *)
Definition generate_hook (acc : tool_use) (hook : json) : res tool_use :=
  entry <- generate_entry hook ;;
  hook_type <- py_index hook "type" ;;
  matcher <- py_index hook "matcher" ;;
  m <- py_hash matcher ;;
  if py_eq_str hook_type "PreToolUse" then
    Ok {| pre_tool_use :=
            setdefault_extend atom_eqb m [entry] (pre_tool_use acc);
          post_tool_use := post_tool_use acc |}
  else
    Ok {| pre_tool_use := pre_tool_use acc;
          post_tool_use :=
            setdefault_extend atom_eqb m [entry] (post_tool_use acc) |}.

(** [result[name] = [...]] under [if by_matcher:]. *)
Definition hook_type_section (name : string)
    (by_matcher : list (atom * list json)) : list (string * json) :=
  match by_matcher with
  | [] => []
  | _ => [(name, JArr (map group_json by_matcher))]
  end.

(** [{'hooks': result} if result else {}] *)
Definition hooks_fragment (result : list (string * json)) : json :=
  match result with
  | [] => JObj []
  | _ => JObj [("hooks", JObj result)]
  end.

(** [HookManager._generate_settings] *)
Definition generate_settings (hooks : list json) : res json :=
  acc <- foldM generate_hook hooks
           {| pre_tool_use := []; post_tool_use := [] |} ;;
  Ok (hooks_fragment
        (hook_type_section "PreToolUse" (pre_tool_use acc)
         ++ hook_type_section "PostToolUse" (post_tool_use acc))).

(** What the loop reads of a hook definition it accepts. *)
Definition hook_is_pre (hook : json) : bool :=
  py_eq_str (from_ok (JAtom ANone) (py_index hook "type")) "PreToolUse".

Definition hook_matcher (hook : json) : atom :=
  atom_of (from_ok (JAtom ANone) (py_index hook "matcher")).

Definition entry_of (hook : json) : json :=
  from_ok (JObj []) (generate_entry hook).

(** Every access [_generate_settings] makes into the definition succeeds. *)
Definition ok_definition (hook : json) : bool :=
  is_ok (generate_entry hook)
  && is_ok (py_index hook "type")
  && is_ok (matcher <- py_index hook "matcher" ;; py_hash matcher).

(** Every hook definition that is not of type [PreToolUse] is filed under
    [PostToolUse]. *)
Definition hook_is_post (hook : json) : bool := negb (hook_is_pre hook).

(** The matcher and the entry of the hooks that satisfy [p], in order. *)
Definition matcher_entries (p : json -> bool) (hooks : list json)
    : list (atom * list json) :=
  map (fun h => (hook_matcher h, [entry_of h])) (filter p hooks).

(** The matcher groups of the hooks that satisfy [p]: one group per distinct
    matcher in order of first appearance, with the entries of its hooks in
    their order. *)
Definition generated_groups (p : json -> bool) (hooks : list json) : json :=
  JArr (map group_json (grouped atom_eqb (matcher_entries p hooks))).

(** The settings tail of [CommandManager.install], for the stems of the
    command files it was given. *)
Definition command_permission (stem : string) : json :=
  JStr (String.append "Skill(" (String.append stem ")")).

Definition command_settings (stems : list string) : json :=
  match stems with
  | [] => JObj []
  | _ =>
      JObj [("permissions",
             JObj [("allow", JArr (map command_permission stems))])]
  end.

(** Example hook definitions. *)
Definition lint_hook : json :=
  JObj [("id", JStr "lint"); ("name", JStr "Lint"); ("file", JStr "lint.py");
        ("type", JStr "PostToolUse"); ("matcher", JStr "Edit|Write")].

Definition guard_hook : json :=
  JObj [("id", JStr "guard"); ("name", JStr "Guard"); ("file", JStr "guard.sh");
        ("type", JStr "PreToolUse"); ("matcher", JStr "Bash");
        ("statusMessage", JStr "Checking command")].

Definition format_hook : json :=
  JObj [("id", JStr "format"); ("name", JStr "Format");
        ("file", JStr "format.sh"); ("type", JStr "Notification");
        ("matcher", JStr "Edit|Write")].


(** ** HookManager.get_hooks *)

(** The outcome of a call that may leave through [sys.exit]. *)
Inductive exit_or (A : Type) : Type :=
| Returns (a : A)
| Exits (code : Z).
Arguments Returns {A} a.
Arguments Exits {A} code.

(** [p in s] for two strings: [p] occurs in [s]. *)
Fixpoint contains (p s : string) : bool :=
  String.prefix p s
  || match s with
     | EmptyString => false
     | String _ s' => contains p s'
     end.

(** [p in v] for a string [p]: a key of a dict, an element of a list, a
    part of a string; other values cannot be searched. *)
Definition py_in_str (p : string) (v : json) : res bool :=
  match v with
  | JObj l => Ok (dict_mem String.eqb p l)
  | JArr l => Ok (existsb (fun x => py_eq_str x p) l)
  | JAtom (AStr s) => Ok (contains p s)
  | JAtom _ => Err TypeError
  end.

(** [self.config['hooks']], iterated. *)
Definition config_hooks (config : json) : res (list json) :=
  all <- py_index config "hooks" ;;
  py_iter all.

(** The key [h['id']] of the comprehension, hashed as the insertion does. *)
Definition hook_id (h : json) : res atom :=
  id <- py_index h "id" ;;
  py_hash id.

(** One step of [{h['id']: h for h in self.config['hooks']}]. *)
Definition index_hook (hooks_by_id : list (atom * json)) (h : json)
    : res (list (atom * json)) :=
  k <- hook_id h ;;
  Ok (dict_set atom_eqb k h hooks_by_id).

(** One step of [[hooks_by_id[i] for i in ids if i in hooks_by_id]]. *)
Definition select_hook (hooks_by_id : list (atom * json)) (i : json)
    : res (list json) :=
  k <- py_hash i ;;
  Ok (match dict_get atom_eqb k hooks_by_id with
      | Some h => [h]
      | None => []
      end).

Definition select_hooks (hooks_by_id : list (atom * json)) (ids : list json)
    : res (exit_or (list json)) :=
  sel <- mapM (select_hook hooks_by_id) ids ;;
  Ok (Returns (List.concat sel)).

(** [HookManager.get_hooks]: [config] is what [json.loads] read from
    hooks.json, [ids] and [profile] are the command line's, [None] when not
    given.  In the branch [ids is None] the hooks of the configuration are
    read a second time, with the same result. *)
Definition get_hooks (config : json) (ids : option (list string))
    (profile : option string) : res (exit_or (list json)) :=
  hs <- config_hooks config ;;
  hooks_by_id <- foldM index_hook hs [] ;;
  match profile with
  | Some (String c p) =>
      profiles <- py_index config "profiles" ;;
      known <- py_in_str (String c p) profiles ;;
      if known then
        prof <- py_index profiles (String c p) ;;
        ids' <- py_index prof "hooks" ;;
        selection <- py_iter ids' ;;
        select_hooks hooks_by_id selection
      else Ok (Exits 1%Z)
  | _ =>
      match ids with
      | None =>
          selection <- mapM (fun h => py_index h "id") hs ;;
          select_hooks hooks_by_id selection
      | Some l => select_hooks hooks_by_id (map JStr l)
      end
  end.

(** The last hook of the configuration with an id equal to [k]. *)
Fixpoint last_with_id (k : atom) (hs : list json) : option json :=
  match hs with
  | [] => None
  | h :: hs' =>
      match last_with_id k hs' with
      | Some x => Some x
      | None =>
          match hook_id h with
          | Ok k' => if atom_eqb k' k then Some h else None
          | Err _ => None
          end
      end
  end.

(** The hooks a list of ids selects: for every id that is known the last
    hook with it, in the order of the ids. *)
Definition selected (hs : list json) (ids : list string) : list json :=
  flat_map (fun i => match last_with_id (AStr i) hs with
                     | Some h => [h]
                     | None => []
                     end) ids.

Definition lint_again_hook : json :=
  JObj [("id", JStr "lint"); ("name", JStr "Lint again");
        ("file", JStr "lint2.py"); ("type", JStr "PostToolUse");
        ("matcher", JStr "Edit")].

Definition hooks_config : json :=
  JObj [("hooks", JArr [lint_hook; guard_hook; format_hook]);
        ("profiles",
         JObj [("python",
                JObj [("description", JStr "Python projects");
                      ("hooks", JArr [JStr "format"; JStr "lint"])])])].

(** ** parse_frontmatter *)

(** A Python [str] read from a file, as the list of its code points. *)
Definition text : Type := list N.

Definition dash : N := 45.
Definition colon : N := 58.
Definition newline : N := 10.

(** The marker ['---']. *)
Definition marker : text := [dash; dash; dash].

Fixpoint text_eqb (a b : text) : bool :=
  match a, b with
  | [], [] => true
  | x :: a', y :: b' => N.eqb x y && text_eqb a' b'
  | _, _ => false
  end.

(** [s.startswith(p)] *)
Fixpoint starts_with (p s : text) : bool :=
  match p, s with
  | [], _ => true
  | x :: p', y :: s' => N.eqb x y && starts_with p' s'
  | _ :: _, [] => false
  end.

(** [s.find(p)]: the offset of the first occurrence of [p], if there is
    one. *)
Fixpoint text_find (p s : text) : option nat :=
  if starts_with p s then Some 0
  else
    match s with
    | [] => None
    | _ :: s' => option_map S (text_find p s')
    end.

(** [s.split(sep)] for a separator of one character. *)
Fixpoint split_on (sep : N) (s : text) : list text :=
  match s with
  | [] => [[]]
  | c :: s' =>
      if N.eqb c sep then [] :: split_on sep s'
      else
        match split_on sep s' with
        | l :: ls => (c :: l) :: ls
        | [] => [[c]]
        end
  end.

(** [sep in s] and [s.split(sep, 1)] in one: the parts before and after the
    first [sep], nothing when [sep] does not occur. *)
Fixpoint split_once (sep : N) (s : text) : option (text * text) :=
  match s with
  | [] => None
  | c :: s' =>
      if N.eqb c sep then Some ([], s')
      else option_map (fun kv => (c :: fst kv, snd kv)) (split_once sep s')
  end.

Section Frontmatter.
(** [c.isspace()], which decides what [strip] removes. *)
Variable is_space : N -> bool.

Fixpoint lstrip (s : text) : text :=
  match s with
  | [] => []
  | c :: s' => if is_space c then lstrip s' else s
  end.

Fixpoint rstrip (s : text) : text :=
  match s with
  | [] => []
  | c :: s' =>
      match rstrip s' with
      | [] => if is_space c then [] else [c]
      | r => c :: r
      end
  end.

(** [s.strip()] *)
Definition strip (s : text) : text := rstrip (lstrip s).

(** Body of [for line in ...]. *)
Definition frontmatter_line (frontmatter : list (text * text)) (line : text)
    : list (text * text) :=
  match split_once colon line with
  | Some (key, value) =>
      dict_set text_eqb (strip key) (strip value) frontmatter
  | None => frontmatter
  end.

(** [parse_frontmatter], applied to the content of the file. *)
Definition parse_frontmatter (content : text) : list (text * text) :=
  if starts_with marker content then
    match text_find marker (skipn 3 content) with
    | Some offset =>
        fold_left frontmatter_line
          (split_on newline (strip (firstn offset (skipn 3 content)))) []
    | None => []
    end
  else [].

(** The lines the loop of [parse_frontmatter] visits. *)
Definition frontmatter_lines (content : text) : list text :=
  if starts_with marker content then
    match text_find marker (skipn 3 content) with
    | Some offset =>
        split_on newline (strip (firstn offset (skipn 3 content)))
    | None => []
    end
  else [].

(** The value of the last line whose key is [k]. *)
Fixpoint line_value (k : text) (lines : list text) : option text :=
  match lines with
  | [] => None
  | line :: rest =>
      match line_value k rest with
      | Some v => Some v
      | None =>
          match split_once colon line with
          | Some (key, value) =>
              if text_eqb (strip key) k then Some (strip value) else None
          | None => None
          end
      end
  end.
End Frontmatter.

(** The code points of a string of ASCII characters, for examples. *)
Definition codes (s : string) : text :=
  map N_of_ascii (list_ascii_of_string s).

(** The ASCII characters [str.isspace] accepts. *)
Definition ascii_space (c : N) : bool :=
  (N.leb 9 c && N.leb c 13) || (N.leb 28 c && N.leb c 32).

Definition agent_file : text :=
  codes "---" ++ [newline] ++ codes "name:  explorer " ++ [newline]
  ++ codes "# no colon here" ++ [newline]
  ++ codes "model : opus:4" ++ [newline] ++ codes "name: second"
  ++ [newline] ++ codes "---" ++ [newline] ++ codes "body: text".

(** ** Statements of the specification that the code does not meet *)

(** The canonical form, following the words of the specification: matcher
    groups merged (no two groups of a hook type have the same matcher), hook
    entries deduplicated by command, permission lists deduplicated, all
    three permission lists present when [permissions] is; the document is a
    valid one with distinct keys. *)
Definition worded_canonical_group (g : json) : bool :=
  valid_group g && distinct atom_eqb (map hook_command (group_hooks g)).

Definition worded_canonical_groups (v : json) : bool :=
  match v with
  | JArr gs =>
      forallb worded_canonical_group gs
      && distinct atom_eqb (map group_matcher gs)
  | _ => false
  end.

Definition worded_canonical_hooks (v : json) : bool :=
  match v with
  | JObj hts =>
      distinct String.eqb (keys hts)
      && forallb (fun kv => worded_canonical_groups (snd kv)) hts
  | _ => false
  end.

Definition worded_canonical_list (v : json) : bool :=
  match v with
  | JArr l => forallb is_string l && distinct atom_eqb (map atom_of l)
  | _ => false
  end.

Definition worded_canonical_permissions (v : json) : bool :=
  match v with
  | JObj ps =>
      distinct String.eqb (keys ps)
      && forallb (fun k => dict_mem String.eqb k ps) perm_kinds
      && forallb (fun kv => kmem String.eqb (fst kv) perm_kinds
                            && worded_canonical_list (snd kv)) ps
  | _ => false
  end.

Definition worded_canonical_item (kv : string * json) : bool :=
  if fst kv =? "hooks" then worded_canonical_hooks (snd kv)
  else if fst kv =? "permissions" then worded_canonical_permissions (snd kv)
  else true.

Definition worded_canonical (settings : json) : bool :=
  match settings with
  | JObj its =>
      distinct String.eqb (keys its) && forallb worded_canonical_item its
  | _ => false
  end.

(** The round trip, as the specification words it: a document in that form
    is returned unchanged. *)
Definition fixed_point_as_worded (D : json) : Prop :=
  worded_canonical D = true -> merge_settings [D] = Ok D.

(** A matcher group without a [matcher] key, and one with a key of its
    own. *)
Definition matcherless_doc : json :=
  JObj [("hooks", JObj [("Stop",
          JArr [JObj [("hooks", JArr [hook_entry "run-a" "A"])]])])].

Definition annotated_group_doc : json :=
  JObj [("hooks", JObj [("PreToolUse",
          JArr [JObj [("matcher", JStr "Bash");
                      ("hooks", JArr [hook_entry "run-a" "A"]);
                      ("description", JStr "shell commands")]])])].

(** The error for an unknown permission kind, stated without a condition:
    for every such input the merge fails with a missing-key lookup. *)
Definition unknown_kind_is_key_error (docs : list json) : Prop :=
  forall its ps k v,
    In (JObj its) docs -> In ("permissions", JObj ps) its -> In (k, v) ps ->
    kmem String.eqb k perm_kinds = false ->
    exists k', merge_settings docs = Err (KeyError k').

(** An unknown kind behind a permission list that cannot be iterated. *)
Definition number_allow_doc : json :=
  JObj [("permissions", JObj [("allow", JAtom (AInt 5)); ("forbid", JArr [])])].

(** Two hooks go to the same matcher group. *)
Definition same_group (h h' : json) : bool :=
  Bool.eqb (hook_is_pre h') (hook_is_pre h)
  && atom_eqb (hook_matcher h') (hook_matcher h).

(** * Facts about the model *)

Unset Implicit Arguments.

(** ** The error monad *)

Lemma bind_ok {A B : Type} (c : res A) (k : A -> res B) (b : B) :
  bind c k = Ok b -> exists a, c = Ok a /\ k a = Ok b.
Proof.
  destruct c as [a|e]; simpl; intros H; [exists a; auto | discriminate].
Qed.

Ltac inv_bind H :=
  let a := fresh "a" in
  let Ha := fresh "Ha" in
  apply bind_ok in H; destruct H as (a & Ha & H).

Lemma is_ok_from_ok {A : Type} (d : A) (c : res A) :
  is_ok c = true -> c = Ok (from_ok d c).
Proof. destruct c; simpl; [reflexivity | discriminate]. Qed.

Lemma foldM_app {A S : Type} (f : S -> A -> res S) (l1 l2 : list A) (s : S) :
  foldM f (l1 ++ l2) s = (s' <- foldM f l1 s ;; foldM f l2 s').
Proof.
  revert s; induction l1 as [|a l1 IH]; intros s; simpl; [reflexivity|].
  destruct (f s a); simpl; auto.
Qed.

Lemma mapM_app {A B : Type} (f : A -> res B) (l1 l2 : list A) :
  mapM f (l1 ++ l2) = (a <- mapM f l1 ;; b <- mapM f l2 ;; Ok (a ++ b)).
Proof.
  induction l1 as [|x l1 IH]; simpl.
  - destruct (mapM f l2); reflexivity.
  - destruct (f x); simpl; [|reflexivity].
    rewrite IH. destruct (mapM f l1); simpl; [|reflexivity].
    destruct (mapM f l2); reflexivity.
Qed.

Lemma mapM_app_ok {A B : Type} (f : A -> res B) (l1 l2 : list A) (r : list B) :
  mapM f (l1 ++ l2) = Ok r ->
  exists r1 r2, mapM f l1 = Ok r1 /\ mapM f l2 = Ok r2 /\ r = r1 ++ r2.
Proof.
  rewrite mapM_app. intros H.
  inv_bind H. inv_bind H. injection H as <-. eauto.
Qed.

Lemma mapM_ext_in {A B : Type} (f g : A -> res B) (l : list A) :
  (forall x, In x l -> f x = g x) -> mapM f l = mapM g l.
Proof.
  induction l as [|x l IH]; simpl; intros H; [reflexivity|].
  rewrite (H x) by auto. rewrite IH by auto. reflexivity.
Qed.

Lemma mapM_pure {A B : Type} (f : A -> res B) (g : A -> B) (l : list A) :
  (forall x, In x l -> f x = Ok (g x)) -> mapM f l = Ok (map g l).
Proof.
  induction l as [|x l IH]; simpl; intros H; [reflexivity|].
  rewrite (H x) by auto. simpl. rewrite IH by auto. reflexivity.
Qed.

Lemma mapM_map {A B C : Type} (f : B -> res C) (g : A -> B) (l : list A) :
  mapM f (map g l) = mapM (fun x => f (g x)) l.
Proof.
  induction l as [|x l IH]; simpl; [reflexivity|]. rewrite IH. reflexivity.
Qed.

Lemma mapM_Forall2 {A B : Type} (f : A -> res B) (l : list A) (r : list B) :
  mapM f l = Ok r <-> Forall2 (fun x y => f x = Ok y) l r.
Proof.
  revert r; induction l as [|x l IH]; intros r; simpl; split; intros H.
  - injection H as <-. constructor.
  - inversion H. reflexivity.
  - inv_bind H. inv_bind H. injection H as <-.
    constructor; [assumption | apply IH; assumption].
  - inversion H as [|? y ? r' Hx Hr]; subst.
    rewrite Hx. simpl. apply IH in Hr. rewrite Hr. reflexivity.
Qed.

Lemma mapM_In {A B : Type} (f : A -> res B) (l : list A) (r : list B) (x : A) :
  mapM f l = Ok r -> In x l -> exists y, f x = Ok y /\ In y r.
Proof.
  revert r; induction l as [|a l IH]; intros r H Hin; [destruct Hin|].
  simpl in H. inv_bind H. inv_bind H. injection H as <-.
  destruct Hin as [->|Hin].
  - eexists; split; [eassumption | left; reflexivity].
  - destruct (IH _ Ha0 Hin) as (y & Hy & Hiny). exists y; split; [|right]; auto.
Qed.

Lemma mapM_In_inv {A B : Type} (f : A -> res B) (l : list A) (r : list B) (y : B) :
  mapM f l = Ok r -> In y r -> exists x, f x = Ok y /\ In x l.
Proof.
  revert r; induction l as [|a l IH]; intros r H Hin; simpl in H.
  - injection H as <-. destruct Hin.
  - inv_bind H. inv_bind H. injection H as <-.
    destruct Hin as [->|Hin].
    + eexists; split; [eassumption | left; reflexivity].
    + destruct (IH _ Ha0 Hin) as (x & Hx & Hinx). exists x; split; [|right]; auto.
Qed.

Lemma mapM_is_ok {A B : Type} (f : A -> res B) (l : list A) :
  is_ok (mapM f l) = forallb (fun x => is_ok (f x)) l.
Proof.
  induction l as [|x l IH]; simpl; [reflexivity|].
  destruct (f x); simpl; [|reflexivity].
  rewrite <- IH. destruct (mapM f l); reflexivity.
Qed.

(** A loop that reads its element and then updates its state without
    raising is a read of every element followed by a fold. *)
Lemma foldM_read {A B S : Type} (p : A -> res B) (g : S -> B -> S)
    (l : list A) (s : S) :
  foldM (fun s a => b <- p a ;; Ok (g s b)) l s
  = (bs <- mapM p l ;; Ok (fold_left g bs s)).
Proof.
  revert s; induction l as [|a l IH]; intros s; simpl; [reflexivity|].
  destruct (p a) as [b|e]; simpl; [|reflexivity].
  rewrite IH. destruct (mapM p l); reflexivity.
Qed.

Lemma foldM_ext_in {A S : Type} (f g : S -> A -> res S) (l : list A) (s : S) :
  (forall s x, In x l -> f s x = g s x) -> foldM f l s = foldM g l s.
Proof.
  revert s; induction l as [|a l IH]; intros s H; simpl; [reflexivity|].
  rewrite (H s a) by (left; reflexivity).
  destruct (g s a); simpl; [|reflexivity]. apply IH. intros; apply H; right; auto.
Qed.

(** ** Equality of scalars *)

Lemma atom_eqb_refl (a : atom) : atom_eqb a a = true.
Proof.
  destruct a; simpl; auto using Z.eqb_refl, String.eqb_refl.
Qed.

Lemma atom_eqb_sym (a b : atom) : atom_eqb a b = atom_eqb b a.
Proof.
  destruct a, b; simpl; auto using Z.eqb_sym, String.eqb_sym.
Qed.

Lemma atom_eqb_trans (a b c : atom) :
  atom_eqb a b = true -> atom_eqb b c = true -> atom_eqb a c = true.
Proof.
  destruct a, b, c; simpl; try discriminate; auto;
    rewrite ?Z.eqb_eq, ?String.eqb_eq; congruence.
Qed.

Lemma string_eqb_trans (a b c : string) :
  String.eqb a b = true -> String.eqb b c = true -> String.eqb a c = true.
Proof. rewrite !String.eqb_eq. congruence. Qed.

(** ** Keys compared by an equivalence *)

#[export] Instance atom_KeyEq : KeyEq atom_eqb :=
  {| keq_refl := atom_eqb_refl;
     keq_sym := atom_eqb_sym;
     keq_trans := atom_eqb_trans |}.

#[export] Instance string_KeyEq : KeyEq String.eqb :=
  {| keq_refl := String.eqb_refl;
     keq_sym := String.eqb_sym;
     keq_trans := string_eqb_trans |}.

Section KeyedFacts.
Context {K : Type} {eqb : K -> K -> bool} {KE : KeyEq eqb}.

Let eqb_refl : forall a, eqb a a = true := keq_refl.
Let eqb_sym : forall a b, eqb a b = eqb b a := keq_sym.
Let eqb_trans :
  forall a b c, eqb a b = true -> eqb b c = true -> eqb a c = true
  := keq_trans.

Lemma eqb_left (a b c : K) : eqb a b = true -> eqb a c = eqb b c.
Proof.
  intros H. destruct (eqb b c) eqn:E.
  - eapply eqb_trans; eauto.
  - destruct (eqb a c) eqn:F; [|reflexivity].
    rewrite eqb_sym in H. rewrite (eqb_trans _ _ _ H F) in E. discriminate.
Qed.

Lemma eqb_right (a b c : K) : eqb a b = true -> eqb c a = eqb c b.
Proof. intros H. rewrite (eqb_sym c a), (eqb_sym c b). apply eqb_left, H. Qed.

(** *** Membership *)

Lemma kmem_app (k : K) (a b : list K) :
  kmem eqb k (a ++ b) = kmem eqb k a || kmem eqb k b.
Proof. apply existsb_app. Qed.

Lemma kmem_eqb (k k' : K) (l : list K) :
  eqb k k' = true -> kmem eqb k l = kmem eqb k' l.
Proof.
  intros H. induction l as [|x l IH]; simpl; [reflexivity|].
  rewrite IH, (eqb_left _ _ x H). reflexivity.
Qed.

Lemma kmem_In (k : K) (l : list K) : In k l -> kmem eqb k l = true.
Proof.
  intros H. apply existsb_exists. exists k. auto.
Qed.

Lemma kmem_false_In (k x : K) (l : list K) :
  kmem eqb k l = false -> In x l -> eqb k x = false.
Proof.
  intros H Hin. destruct (eqb k x) eqn:E; [|reflexivity].
  assert (kmem eqb k l = true) by (apply existsb_exists; eauto). congruence.
Qed.

(** *** Distinct keys *)

Lemma distinct_snoc (ks : list K) (k : K) :
  distinct eqb ks = true -> kmem eqb k ks = false ->
  distinct eqb (ks ++ [k]) = true.
Proof.
  induction ks as [|x ks IH]; simpl; intros H Hk; [reflexivity|].
  apply andb_prop in H. destruct H as [Hx Hks].
  apply orb_false_elim in Hk. destruct Hk as [Hkx Hk].
  rewrite kmem_app, IH by assumption. simpl.
  rewrite (eqb_sym x k), Hkx. simpl.
  apply negb_true_iff in Hx. rewrite Hx. reflexivity.
Qed.

Lemma distinct_app_mid (a b : list K) (k : K) :
  distinct eqb (a ++ k :: b) = true -> kmem eqb k a = false.
Proof.
  induction a as [|x a IH]; simpl; intros H; [reflexivity|].
  apply andb_prop in H. destruct H as [Hx Ha].
  rewrite (IH Ha), orb_false_r.
  apply negb_true_iff in Hx. rewrite kmem_app in Hx.
  apply orb_false_elim in Hx. destruct Hx as [_ Hx]. simpl in Hx.
  apply orb_false_elim in Hx. rewrite eqb_sym. tauto.
Qed.

Lemma distinct_app_l (a b : list K) :
  distinct eqb (a ++ b) = true -> distinct eqb a = true.
Proof.
  induction a as [|x a IH]; simpl; intros H; [reflexivity|].
  apply andb_prop in H. destruct H as [Hx Ha].
  rewrite (IH Ha), andb_true_r.
  apply negb_true_iff in Hx. rewrite kmem_app in Hx.
  apply orb_false_elim in Hx. destruct Hx as [Hx _]. rewrite Hx. reflexivity.
Qed.

Lemma distinct_app_r (a b : list K) :
  distinct eqb (a ++ b) = true -> distinct eqb b = true.
Proof.
  induction a as [|x a IH]; simpl; intros H; [assumption|].
  apply andb_prop in H. destruct H as [_ Ha]. auto.
Qed.

(** *** First occurrences *)

Section Uniq.
Context {A : Type} (key : A -> K).

Lemma uniq_by_app (seen : list K) (a b : list A) :
  uniq_by eqb key seen (a ++ b)
  = uniq_by eqb key seen a
    ++ uniq_by eqb key (seen ++ map key (uniq_by eqb key seen a)) b.
Proof.
  revert seen; induction a as [|x a IH]; intros seen; simpl.
  - rewrite app_nil_r. reflexivity.
  - destruct (kmem eqb (key x) seen); [apply IH|].
    simpl. rewrite IH, <- app_assoc. reflexivity.
Qed.

Lemma kmem_uniq (k : K) (seen : list K) (l : list A) :
  kmem eqb k (seen ++ map key (uniq_by eqb key seen l))
  = kmem eqb k (seen ++ map key l).
Proof.
  revert seen; induction l as [|x l IH]; intros seen; simpl; [reflexivity|].
  destruct (kmem eqb (key x) seen) eqn:E.
  - rewrite IH, !kmem_app. simpl.
    destruct (eqb k (key x)) eqn:F; [|reflexivity].
    rewrite (kmem_eqb _ _ seen F), E. reflexivity.
  - simpl.
    change (seen ++ key x :: map key (uniq_by eqb key (seen ++ [key x]) l))
      with (seen ++ [key x] ++ map key (uniq_by eqb key (seen ++ [key x]) l)).
    rewrite app_assoc, IH, <- app_assoc. reflexivity.
Qed.

Lemma uniq_by_seen (seen : list K) (l : list A) :
  (forall x, In x l -> kmem eqb (key x) seen = true) ->
  uniq_by eqb key seen l = [].
Proof.
  induction l as [|x l IH]; simpl; intros H; [reflexivity|].
  rewrite (H x) by auto. apply IH. auto.
Qed.

Lemma uniq_by_idem (seen : list K) (l : list A) :
  uniq_by eqb key seen (uniq_by eqb key seen l) = uniq_by eqb key seen l.
Proof.
  revert seen; induction l as [|x l IH]; intros seen; simpl; [reflexivity|].
  destruct (kmem eqb (key x) seen) eqn:E; [apply IH|].
  simpl. rewrite E, IH. reflexivity.
Qed.

Lemma kmem_map_In (x : A) (l : list A) :
  In x l -> kmem eqb (key x) (map key l) = true.
Proof. intros H. apply kmem_In, in_map, H. Qed.

(** Re-applying what was already merged changes nothing. *)
Lemma uniq_by_absorb (a b : list A) :
  uniq_by eqb key [] (uniq_by eqb key [] (a ++ b) ++ b)
  = uniq_by eqb key [] (a ++ b).
Proof.
  rewrite (uniq_by_app [] (uniq_by eqb key [] (a ++ b)) b).
  rewrite uniq_by_idem.
  rewrite (uniq_by_seen ([] ++ map key (uniq_by eqb key [] (a ++ b))) b).
  { apply app_nil_r. }
  intros x Hx. rewrite kmem_uniq. simpl.
  apply kmem_map_In, in_or_app. auto.
Qed.

Lemma distinct_uniq (seen : list K) (l : list A) :
  distinct eqb seen = true ->
  distinct eqb (seen ++ map key (uniq_by eqb key seen l)) = true.
Proof.
  revert seen; induction l as [|x l IH]; intros seen H; simpl.
  - rewrite app_nil_r. assumption.
  - destruct (kmem eqb (key x) seen) eqn:E; [auto|].
    simpl.
    change (seen ++ key x :: map key (uniq_by eqb key (seen ++ [key x]) l))
      with (seen ++ [key x] ++ map key (uniq_by eqb key (seen ++ [key x]) l)).
    rewrite app_assoc. apply IH, distinct_snoc; assumption.
Qed.

Lemma uniq_by_fixed (seen : list K) (l : list A) :
  distinct eqb (seen ++ map key l) = true -> uniq_by eqb key seen l = l.
Proof.
  revert seen; induction l as [|x l IH]; intros seen H; simpl; [reflexivity|].
  simpl in H. rewrite (distinct_app_mid _ _ _ H). f_equal. apply IH.
  rewrite <- app_assoc. exact H.
Qed.

Lemma uniq_by_incl (seen : list K) (l : list A) (x : A) :
  In x (uniq_by eqb key seen l) -> In x l.
Proof.
  revert seen; induction l as [|y l IH]; intros seen; simpl; [auto|].
  destruct (kmem eqb (key y) seen); simpl; intros H.
  - right. eapply IH, H.
  - destruct H as [H|H]; [left; assumption | right; eapply IH, H].
Qed.

Lemma uniq_by_pairs (seen : list K) (l : list A) :
  map snd (uniq_by eqb fst seen (map (fun x => (key x, x)) l))
  = uniq_by eqb key seen l.
Proof.
  revert seen; induction l as [|x l IH]; intros seen; simpl; [reflexivity|].
  destruct (kmem eqb (key x) seen); simpl; rewrite IH; reflexivity.
Qed.
End Uniq.

Lemma uniq_keys (seen l : list K) :
  map (fun k => k) (uniq_by eqb (fun k => k) seen l)
  = uniq_by eqb (fun k => k) seen l.
Proof. apply map_id. Qed.

(** *** Dictionaries *)

Section DictFacts.
Context {V : Type}.
Implicit Types (d : list (K * V)) (k : K) (v : V).

Lemma dict_get_eqb k k' d :
  eqb k k' = true -> dict_get eqb k d = dict_get eqb k' d.
Proof.
  intros H. induction d as [|[k0 v0] d IH]; simpl; [reflexivity|].
  rewrite IH, (eqb_right _ _ k0 H). reflexivity.
Qed.

Lemma dict_mem_keys k d : dict_mem eqb k d = kmem eqb k (keys d).
Proof.
  unfold dict_mem. induction d as [|[k0 v0] d IH]; simpl; [reflexivity|].
  rewrite (eqb_sym k k0). destruct (eqb k0 k); [reflexivity | apply IH].
Qed.

Lemma dict_get_None k d : dict_get eqb k d = None <-> kmem eqb k (keys d) = false.
Proof.
  rewrite <- dict_mem_keys. unfold dict_mem.
  destruct (dict_get eqb k d); split; congruence.
Qed.

Lemma get_set k k' v d :
  dict_get eqb k' (dict_set eqb k v d)
  = if eqb k k' then Some v else dict_get eqb k' d.
Proof.
  induction d as [|[k0 v0] d IH]; simpl; [reflexivity|].
  destruct (eqb k0 k) eqn:E; simpl.
  - rewrite (eqb_left _ _ k' E). destruct (eqb k k'); reflexivity.
  - rewrite IH. destruct (eqb k0 k') eqn:F; [|reflexivity].
    destruct (eqb k k') eqn:G; [|reflexivity].
    rewrite (eqb_sym k k') in G. rewrite (eqb_trans _ _ _ F G) in E.
    discriminate.
Qed.

Lemma keys_set k v d :
  keys (dict_set eqb k v d)
  = if kmem eqb k (keys d) then keys d else keys d ++ [k].
Proof.
  unfold keys. induction d as [|[k0 v0] d IH]; simpl; [reflexivity|].
  rewrite (eqb_sym k k0). destruct (eqb k0 k); simpl; [reflexivity|].
  rewrite IH. destruct (kmem eqb k (map fst d)); reflexivity.
Qed.

Lemma set_set k v v' d :
  dict_set eqb k v (dict_set eqb k v' d) = dict_set eqb k v d.
Proof.
  induction d as [|[k0 v0] d IH]; simpl.
  - rewrite eqb_refl. reflexivity.
  - destruct (eqb k0 k) eqn:E; simpl; rewrite E; [reflexivity|].
    rewrite IH. reflexivity.
Qed.

Lemma set_absent k v d :
  kmem eqb k (keys d) = false -> dict_set eqb k v d = d ++ [(k, v)].
Proof.
  induction d as [|[k0 v0] d IH]; simpl; intros H; [reflexivity|].
  apply orb_false_elim in H. destruct H as [H0 H].
  rewrite (eqb_sym k0 k), H0, IH by assumption. reflexivity.
Qed.

Lemma get_head k v d : dict_get eqb k ((k, v) :: d) = Some v.
Proof. simpl. rewrite eqb_refl. reflexivity. Qed.

Lemma get_In k d : In k (keys d) -> dict_get eqb k d <> None.
Proof.
  intros H. rewrite dict_get_None, kmem_In by assumption. discriminate.
Qed.

(** A dictionary is its keys, in order, with their values. *)
Lemma dict_ext d1 d2 :
  keys d1 = keys d2 -> distinct eqb (keys d1) = true ->
  (forall k, In k (keys d1) -> dict_get eqb k d1 = dict_get eqb k d2) ->
  d1 = d2.
Proof.
  revert d2; induction d1 as [|[k1 v1] d1 IH]; intros [|[k2 v2] d2];
    simpl; intros Hk Hd H; try discriminate; [reflexivity|].
  injection Hk as <- Hk.
  apply andb_prop in Hd. destruct Hd as [Hk1 Hd].
  apply negb_true_iff in Hk1.
  assert (v1 = v2) as <-.
  { specialize (H k1 (or_introl eq_refl)). rewrite eqb_refl in H.
    congruence. }
  f_equal. apply IH; auto.
  intros k Hin. specialize (H k (or_intror Hin)).
  rewrite (kmem_false_In _ _ _ Hk1 Hin) in H. exact H.
Qed.
End DictFacts.

(** *** Accumulators *)

Section AccumFacts.
Context {V : Type}.
Implicit Types (d its : list (K * list V)) (k : K) (xs : list V).

Lemma sde_eq k xs d :
  setdefault_extend eqb k xs d
  = dict_set eqb k (dflt (dict_get eqb k d) ++ xs) d.
Proof.
  unfold setdefault_extend, dict_mem.
  destruct (dict_get eqb k d) as [cur|] eqn:E.
  - rewrite E. reflexivity.
  - rewrite get_set, eqb_refl, set_set. reflexivity.
Qed.

Lemma accum_cons k xs its d :
  accum eqb ((k, xs) :: its) d = accum eqb its (setdefault_extend eqb k xs d).
Proof. reflexivity. Qed.

Lemma accum_app its1 its2 d :
  accum eqb (its1 ++ its2) d = accum eqb its2 (accum eqb its1 d).
Proof. apply fold_left_app. Qed.

Lemma gather_cons k k' xs its :
  gather eqb k' ((k, xs) :: its)
  = if eqb k k' then xs ++ gather eqb k' its else gather eqb k' its.
Proof. unfold gather. simpl. destruct (eqb k k'); reflexivity. Qed.

Lemma gather_app k its1 its2 :
  gather eqb k (its1 ++ its2) = gather eqb k its1 ++ gather eqb k its2.
Proof. unfold gather. rewrite filter_app, flat_map_app. reflexivity. Qed.

Lemma gather_eqb k k' its :
  eqb k k' = true -> gather eqb k its = gather eqb k' its.
Proof.
  intros H. unfold gather. f_equal. apply filter_ext.
  intros [k0 v0]. simpl. apply eqb_right, H.
Qed.

Lemma accum_keys its d :
  keys (accum eqb its d)
  = keys d ++ uniq_by eqb (fun k => k) (keys d) (map fst its).
Proof.
  revert d; induction its as [|[k xs] its IH]; intros d.
  - simpl. rewrite app_nil_r. reflexivity.
  - rewrite accum_cons, IH, sde_eq, keys_set. simpl.
    destruct (kmem eqb k (keys d)); [reflexivity|].
    rewrite <- app_assoc. reflexivity.
Qed.

Lemma accum_get k' its d :
  dflt (dict_get eqb k' (accum eqb its d))
  = dflt (dict_get eqb k' d) ++ gather eqb k' its.
Proof.
  revert d; induction its as [|[k xs] its IH]; intros d.
  - simpl. unfold gather. simpl. rewrite app_nil_r. reflexivity.
  - rewrite accum_cons, IH, sde_eq, get_set, gather_cons.
    destruct (eqb k k') eqn:E; [|reflexivity].
    simpl. rewrite (dict_get_eqb _ _ _ E), <- app_assoc. reflexivity.
Qed.

Lemma accum_distinct its d :
  distinct eqb (keys d) = true -> distinct eqb (keys (accum eqb its d)) = true.
Proof.
  intros H. rewrite accum_keys.
  rewrite <- (uniq_keys (keys d) (map fst its)).
  apply distinct_uniq, H.
Qed.

Lemma dict_eta d :
  distinct eqb (keys d) = true ->
  d = map (fun k => (k, dflt (dict_get eqb k d))) (keys d).
Proof.
  induction d as [|[k0 l0] d IH]; simpl; intros H; [reflexivity|].
  apply andb_prop in H. destruct H as [H0 H].
  apply negb_true_iff in H0.
  rewrite eqb_refl. simpl. f_equal.
  rewrite (IH H) at 1. apply map_ext_in. intros k Hk.
  rewrite (kmem_false_In _ _ _ H0 Hk). reflexivity.
Qed.

(** Grouping puts the keys in order of first appearance and, under each
    key, what arrived under it in arrival order. *)
Lemma accum_grouped its : accum eqb its [] = grouped eqb its.
Proof.
  rewrite (dict_eta (accum eqb its [])) by (apply accum_distinct; reflexivity).
  rewrite accum_keys. simpl. unfold grouped.
  apply map_ext. intros k. rewrite accum_get. reflexivity.
Qed.

Lemma accum_fresh its d :
  distinct eqb (keys d ++ keys its) = true -> accum eqb its d = d ++ its.
Proof.
  revert d; induction its as [|[k xs] its IH]; intros d H.
  - simpl. rewrite app_nil_r. reflexivity.
  - simpl in H. pose proof (distinct_app_mid _ _ _ H) as Hk.
    rewrite accum_cons, sde_eq.
    assert (dict_get eqb k d = None) as -> by (apply dict_get_None, Hk).
    simpl. rewrite set_absent by assumption.
    rewrite IH; [rewrite <- app_assoc; reflexivity|].
    unfold keys in *. rewrite map_app, <- app_assoc. exact H.
Qed.

(** *** Normalising the accumulators

    [N] stands for what is applied to every accumulated list once the
    documents are folded.  When re-applying [N] after the same arrivals
    changes nothing for one list, it changes nothing for the dictionary. *)

Variable N : list V -> res (list V).
Hypothesis N_absorb :
  forall x g n, N (x ++ g) = Ok n -> N (n ++ g) = Ok n.

Lemma on_values_keys (d m : list (K * list V)) :
  mapM (on_values N) d = Ok m -> keys m = keys d.
Proof.
  revert m; induction d as [|[k l] d IH]; intros m H; simpl in H.
  - injection H as <-. reflexivity.
  - unfold on_values in H at 1. simpl in H.
    inv_bind H. inv_bind H. injection H as <-.
    inv_bind Ha. injection Ha as <-. simpl. f_equal. apply IH, Ha0.
Qed.

Lemma on_values_get (d m : list (K * list V)) k l :
  mapM (on_values N) d = Ok m -> dict_get eqb k d = Some l ->
  exists n, N l = Ok n /\ dict_get eqb k m = Some n.
Proof.
  revert m; induction d as [|[k0 l0] d IH]; intros m H Hg; simpl in H, Hg.
  - discriminate.
  - unfold on_values in H at 1. simpl in H.
    inv_bind H. inv_bind H. injection H as <-.
    inv_bind Ha. injection Ha as <-. simpl.
    destruct (eqb k0 k).
    + injection Hg as <-. eauto.
    + eapply IH; eauto.
Qed.

Lemma accum_norm_idem its d m :
  distinct eqb (keys d) = true ->
  mapM (on_values N) (accum eqb its d) = Ok m ->
  mapM (on_values N) (accum eqb its m) = Ok m.
Proof.
  intros Hd Hm.
  pose proof (on_values_keys _ _ Hm) as Hkeys.
  pose proof (accum_distinct its d Hd) as Hdist.
  assert (Hin : forall k, In k (map fst its) -> kmem eqb k (keys m) = true).
  { intros k Hk. rewrite Hkeys, accum_keys.
    rewrite <- (uniq_keys (keys d) (map fst its)), kmem_uniq, kmem_app.
    rewrite map_id, (kmem_In k (map fst its)) by assumption.
    apply orb_true_r. }
  assert (Hk2 : keys (accum eqb its m) = keys m).
  { rewrite accum_keys, uniq_by_seen by assumption. apply app_nil_r. }
  assert (Hdm : distinct eqb (keys m) = true) by (rewrite Hkeys; assumption).
  rewrite (dict_eta (accum eqb its m)) by (rewrite Hk2; assumption).
  rewrite Hk2, mapM_map.
  rewrite (dict_eta m Hdm) at 2.
  apply mapM_pure. intros k Hk. unfold on_values. simpl.
  rewrite accum_get.
  assert (Hsome : dict_get eqb k (accum eqb its d)
                  = Some (dflt (dict_get eqb k d) ++ gather eqb k its)).
  { rewrite <- accum_get.
    destruct (dict_get eqb k (accum eqb its d)) eqn:E; [reflexivity|].
    exfalso. revert E. apply get_In. rewrite <- Hkeys. exact Hk. }
  destruct (on_values_get _ _ _ _ Hm Hsome) as (n & Hn & Hgm).
  rewrite Hgm. simpl. rewrite (N_absorb _ _ _ Hn). reflexivity.
Qed.
End AccumFacts.
End KeyedFacts.

(** ** The loops as reads followed by pure updates *)

Lemma dedupe_hooks_loop_eq (seen : list atom) (result hook_list : list json) :
  dedupe_hooks_loop seen result hook_list
  = (kl <- mapM hook_key hook_list ;;
     Ok (result ++ map snd (uniq_by atom_eqb fst seen kl))).
Proof.
  revert seen result.
  induction hook_list as [|hook rest IH]; intros seen result; simpl.
  - rewrite app_nil_r. reflexivity.
  - unfold hook_key at 1.
    destruct (py_get hook "command" (JStr "")) as [key|e]; simpl; [|reflexivity].
    destruct (py_hash key) as [k|e]; simpl; [|reflexivity].
    unfold set_mem. rewrite !IH.
    destruct (mapM hook_key rest) as [kl|e]; simpl;
      destruct (kmem atom_eqb k seen); simpl; try reflexivity.
    rewrite <- app_assoc. reflexivity.
Qed.

Lemma dedupe_hooks_eq (hook_list : list json) :
  dedupe_hooks hook_list
  = (kl <- mapM hook_key hook_list ;;
     Ok (map snd (uniq_by atom_eqb fst [] kl))).
Proof. unfold dedupe_hooks. rewrite dedupe_hooks_loop_eq. reflexivity. Qed.

Lemma hook_key_snd (hook : json) (p : atom * json) :
  hook_key hook = Ok p -> snd p = hook.
Proof.
  unfold hook_key. intros H. inv_bind H. inv_bind H. injection H as <-.
  reflexivity.
Qed.

Lemma hook_key_self (l : list json) (kl : list (atom * json)) :
  mapM hook_key l = Ok kl ->
  forall p, In p kl -> hook_key (snd p) = Ok p.
Proof.
  intros H p Hp. destruct (mapM_In_inv _ _ _ _ H Hp) as (h & Hh & _).
  rewrite (hook_key_snd _ _ Hh). exact Hh.
Qed.

Lemma mapM_self {A B : Type} (f : A -> res B) (g : B -> A) (l : list B) :
  (forall y, In y l -> f (g y) = Ok y) -> mapM f (map g l) = Ok l.
Proof.
  intros H. rewrite mapM_map, (mapM_pure _ (fun y => y)) by assumption.
  rewrite map_id. reflexivity.
Qed.

(** Deduplicating again after the same hooks arrive changes nothing. *)
Lemma dedupe_hooks_absorb (x g n : list json) :
  dedupe_hooks (x ++ g) = Ok n -> dedupe_hooks (n ++ g) = Ok n.
Proof.
  rewrite !dedupe_hooks_eq. intros H. inv_bind H. injection H as <-.
  destruct (mapM_app_ok _ _ _ _ Ha) as (kx & kg & Hx & Hg & ->).
  rewrite mapM_app, mapM_self, Hg; simpl.
  - rewrite uniq_by_absorb. reflexivity.
  - intros p Hp. apply (hook_key_self _ _ Ha), (uniq_by_incl _ _ _ _ Hp).
Qed.

Lemma fromkeys_loop_eq (ks : list atom) (l : list json) :
  fromkeys_loop ks l
  = (hs <- mapM py_hash l ;; Ok (ks ++ uniq_by atom_eqb (fun a => a) ks hs)).
Proof.
  revert ks; induction l as [|x l IH]; intros ks; simpl.
  - rewrite app_nil_r. reflexivity.
  - destruct (py_hash x) as [k|e]; simpl; [|reflexivity].
    unfold set_mem. rewrite IH.
    destruct (mapM py_hash l) as [hs|e]; simpl;
      destruct (kmem atom_eqb k ks); simpl; try reflexivity.
    rewrite <- app_assoc. reflexivity.
Qed.

Lemma list_fromkeys_eq (l : list json) :
  list_fromkeys l
  = (hs <- mapM py_hash l ;;
     Ok (map JAtom (uniq_by atom_eqb (fun a => a) [] hs))).
Proof.
  unfold list_fromkeys. rewrite fromkeys_loop_eq.
  destruct (mapM py_hash l); reflexivity.
Qed.

(** Deduplicating again after the same permissions arrive changes nothing. *)
Lemma list_fromkeys_absorb (x g n : list json) :
  list_fromkeys (x ++ g) = Ok n -> list_fromkeys (n ++ g) = Ok n.
Proof.
  rewrite !list_fromkeys_eq. intros H. inv_bind H. injection H as <-.
  destruct (mapM_app_ok _ _ _ _ Ha) as (kx & kg & Hx & Hg & ->).
  rewrite mapM_app, mapM_self, Hg; simpl.
  - rewrite uniq_by_absorb. reflexivity.
  - reflexivity.
Qed.

Lemma group_entry_eq (by_matcher : list (atom * list json)) (entry : json) :
  group_entry by_matcher entry
  = (g <- parse_group entry ;;
     Ok (setdefault_extend atom_eqb (fst g) (snd g) by_matcher)).
Proof.
  unfold group_entry, parse_group.
  destruct (py_get entry "matcher" (JStr "")) as [matcher|e]; simpl; [|reflexivity].
  destruct (py_hash matcher) as [m|e]; simpl; [|reflexivity].
  destruct (py_get entry "hooks" (JArr [])) as [hooks|e]; simpl; [|reflexivity].
  destruct (py_iter hooks) as [xs|e]; reflexivity.
Qed.

Lemma group_entries_eq (entries : list json) (by_matcher : list (atom * list json)) :
  foldM group_entry entries by_matcher
  = (pes <- mapM parse_group entries ;; Ok (accum atom_eqb pes by_matcher)).
Proof.
  unfold accum. rewrite <- foldM_read.
  apply foldM_ext_in. intros; apply group_entry_eq.
Qed.

Lemma rebuild_groups_eq (by_matcher : list (atom * list json)) :
  mapM rebuild_group by_matcher
  = (gs <- mapM (on_values dedupe_hooks) by_matcher ;; Ok (map group_json gs)).
Proof.
  induction by_matcher as [|[m hooks] bm IH]; simpl; [reflexivity|].
  unfold on_values at 1. simpl.
  destruct (dedupe_hooks hooks) as [d|e]; simpl; [|reflexivity].
  rewrite IH. destruct (mapM (on_values dedupe_hooks) bm); reflexivity.
Qed.

Lemma regroup_eq (entries : list json) :
  regroup entries
  = (pes <- mapM parse_group entries ;;
     gs <- mapM (on_values dedupe_hooks) (accum atom_eqb pes []) ;;
     Ok (map group_json gs)).
Proof.
  unfold regroup. rewrite group_entries_eq.
  destruct (mapM parse_group entries); simpl; [|reflexivity].
  apply rebuild_groups_eq.
Qed.

Lemma parse_group_json (g : atom * list json) : parse_group (group_json g) = Ok g.
Proof. destruct g. reflexivity. Qed.

(** Regrouping again after the same matcher groups arrive changes nothing. *)
Lemma regroup_absorb (x g n : list json) :
  regroup (x ++ g) = Ok n -> regroup (n ++ g) = Ok n.
Proof.
  rewrite !regroup_eq. intros H. inv_bind H. inv_bind H. injection H as <-.
  destruct (mapM_app_ok _ _ _ _ Ha) as (px & pg & Hx & Hg & ->).
  rewrite accum_app in Ha0.
  assert (Hd : distinct atom_eqb (keys (accum atom_eqb px [])) = true)
    by (apply accum_distinct; reflexivity).
  rewrite mapM_app, mapM_self, Hg by (intros; apply parse_group_json). simpl.
  rewrite accum_app, (accum_fresh a0 []).
  - change ([] ++ a0) with a0.
    rewrite (accum_norm_idem dedupe_hooks dedupe_hooks_absorb pg _ a0 Hd Ha0).
    reflexivity.
  - simpl. rewrite (on_values_keys _ _ _ Ha0).
    apply accum_distinct; assumption.
Qed.

Lemma extend_hook_types_eq (its : list (string * json))
    (h : list (string * list json)) :
  foldM extend_hook_type its h
  = (xs <- mapM iter_item its ;; Ok (accum String.eqb xs h)).
Proof.
  unfold accum. rewrite <- foldM_read.
  apply foldM_ext_in. intros s [ht hl] _.
  unfold extend_hook_type, iter_item. simpl.
  destruct (py_iter hl); reflexivity.
Qed.

Lemma extend_perm_type_eq (p : list (string * list json)) (item : string * json) :
  keys p = perm_kinds ->
  extend_perm_type p item
  = (x <- perm_item item ;;
     Ok (setdefault_extend String.eqb (fst x) (snd x) p)).
Proof.
  intros Hk. destruct item as [pt pl]. unfold extend_perm_type, perm_item.
  simpl fst. rewrite <- Hk.
  rewrite <- dict_mem_keys. unfold dict_mem, str_get.
  destruct (dict_get String.eqb pt p) as [cur|] eqn:E; [|reflexivity].
  unfold iter_item. simpl.
  destruct (py_iter pl) as [xs|e]; simpl; [|reflexivity].
  rewrite sde_eq, E. reflexivity.
Qed.

Lemma perm_item_kind (item : string * json) (x : string * list json) :
  perm_item item = Ok x -> kmem String.eqb (fst x) perm_kinds = true.
Proof.
  unfold perm_item, iter_item.
  destruct (kmem String.eqb (fst item) perm_kinds) eqn:E; [|discriminate].
  intros H. inv_bind H. injection H as <-. exact E.
Qed.

Lemma sde_keys_present {V : Type} (k : string) (xs : list V)
    (p : list (string * list V)) :
  kmem String.eqb k (keys p) = true ->
  keys (setdefault_extend String.eqb k xs p) = keys p.
Proof.
  intros H. rewrite sde_eq, keys_set, H. reflexivity.
Qed.

Lemma accum_keys_present {V : Type} (its p : list (string * list V)) :
  (forall x, In x its -> kmem String.eqb (fst x) (keys p) = true) ->
  keys (accum String.eqb its p) = keys p.
Proof.
  intros H. rewrite accum_keys, uniq_by_seen; [apply app_nil_r|].
  intros k Hk. apply in_map_iff in Hk. destruct Hk as (x & <- & Hx). auto.
Qed.

Lemma extend_perm_types_eq (its : list (string * json))
    (p : list (string * list json)) :
  keys p = perm_kinds ->
  foldM extend_perm_type its p
  = (xs <- mapM perm_item its ;; Ok (accum String.eqb xs p)).
Proof.
  revert p; induction its as [|item its IH]; intros p Hk; simpl; [reflexivity|].
  rewrite extend_perm_type_eq by assumption.
  destruct (perm_item item) as [x|e] eqn:E; simpl; [|reflexivity].
  rewrite IH.
  - destruct (mapM perm_item its); reflexivity.
  - rewrite sde_keys_present; [assumption|].
    rewrite Hk. eapply perm_item_kind, E.
Qed.

(** ** The accumulator [result] *)

Lemma Forall_str_set {V : Type} (P : string * V -> Prop) (k : string) (v : V)
    (d : list (string * V)) :
  Forall P d -> P (k, v) -> Forall P (str_set k v d).
Proof.
  intros Hd Hk. induction Hd as [|[k0 v0] d H0 Hd IH]; simpl.
  - constructor; [assumption | constructor].
  - destruct (String.eqb_spec k0 k) as [->|Hne].
    + constructor; assumption.
    + constructor; assumption.
Qed.

Lemma str_get_In {V : Type} (k : string) (v : V) (d : list (string * V)) :
  str_get k d = Some v -> In (k, v) d.
Proof.
  induction d as [|[k0 v0] d IH]; simpl; [discriminate|].
  destruct (String.eqb_spec k0 k) as [->|Hne]; intros H.
  - injection H as <-. left; reflexivity.
  - right. apply IH, H.
Qed.

Lemma str_get_Forall {V : Type} (P : string * V -> Prop) (k : string) (v : V)
    (d : list (string * V)) :
  Forall P d -> str_get k d = Some v -> P (k, v).
Proof.
  intros Hd Hg. rewrite Forall_forall in Hd. apply Hd, str_get_In, Hg.
Qed.

Lemma str_get_set {V : Type} (k k' : string) (v : V) (d : list (string * V)) :
  str_get k' (str_set k v d) = if k =? k' then Some v else str_get k' d.
Proof. apply get_set. Qed.

Lemma str_keys_set {V : Type} (k : string) (v : V) (d : list (string * V)) :
  keys (str_set k v d)
  = if kmem String.eqb k (keys d) then keys d else keys d ++ [k].
Proof. apply keys_set. Qed.

Lemma str_get_mem {V : Type} (k : string) (d : list (string * V)) :
  kmem String.eqb k (keys d) = match str_get k d with Some _ => true | None => false end.
Proof. rewrite <- dict_mem_keys. reflexivity. Qed.

Lemma distinct_str_set {V : Type} (k : string) (v : V) (d : list (string * V)) :
  distinct String.eqb (keys d) = true ->
  distinct String.eqb (keys (str_set k v d)) = true.
Proof.
  intros H. rewrite str_keys_set.
  destruct (kmem String.eqb k (keys d)) eqn:E; [assumption|].
  apply distinct_snoc; assumption.
Qed.

Lemma wf_empty : wf_result [].
Proof. split; [reflexivity | constructor]. Qed.

Lemma wf_str_set (k : string) (s : slot) (r : result_dict) :
  wf_result r -> slot_ok (k, s) -> wf_result (str_set k s r).
Proof.
  intros [Hd Hf] Hs. split.
  - apply distinct_str_set, Hd.
  - apply Forall_str_set; assumption.
Qed.

Lemma hooks_slot (r : result_dict) (s : slot) :
  wf_result r -> str_get "hooks" r = Some s ->
  s = Hooks (hooks_of r) /\ distinct String.eqb (keys (hooks_of r)) = true.
Proof.
  intros [_ Hf] Hg. pose proof (str_get_Forall _ _ _ _ Hf Hg) as Hs.
  unfold hooks_of. rewrite Hg. unfold slot_ok in Hs. simpl in Hs.
  destruct s as [h|p|v]; [tauto| |]; destruct Hs; congruence.
Qed.

Lemma perms_slot (r : result_dict) (s : slot) :
  wf_result r -> str_get "permissions" r = Some s ->
  s = Perms (permissions_of r) /\ keys (permissions_of r) = perm_kinds.
Proof.
  intros [_ Hf] Hg. pose proof (str_get_Forall _ _ _ _ Hf Hg) as Hs.
  unfold permissions_of. rewrite Hg. unfold slot_ok in Hs. simpl in Hs.
  destruct s as [h|p|v]; [|tauto|]; destruct Hs; congruence.
Qed.

Lemma plain_slot (r : result_dict) (k : string) (s : slot) :
  wf_result r -> k <> "hooks" -> k <> "permissions" ->
  str_get k r = Some s -> exists v, s = Plain v.
Proof.
  intros [_ Hf] H1 H2 Hg. pose proof (str_get_Forall _ _ _ _ Hf Hg) as Hs.
  unfold slot_ok in Hs. simpl in Hs.
  destruct s as [h|p|v]; [tauto|tauto|eauto].
Qed.

Lemma hooks_of_distinct (r : result_dict) :
  wf_result r -> distinct String.eqb (keys (hooks_of r)) = true.
Proof.
  intros H. destruct (str_get "hooks" r) as [s|] eqn:E.
  - apply (hooks_slot _ _ H E).
  - unfold hooks_of. rewrite E. reflexivity.
Qed.

Lemma permissions_of_keys (r : result_dict) :
  wf_result r -> keys (permissions_of r) = perm_kinds.
Proof.
  intros H. destruct (str_get "permissions" r) as [s|] eqn:E.
  - apply (perms_slot _ _ H E).
  - unfold permissions_of. rewrite E. reflexivity.
Qed.

(** Two accumulators with the same keys, hooks, permissions and plain values
    are the same. *)
Lemma result_ext (r1 r2 : result_dict) :
  wf_result r1 -> wf_result r2 ->
  keys r1 = keys r2 ->
  hooks_of r1 = hooks_of r2 ->
  permissions_of r1 = permissions_of r2 ->
  (forall k, k <> "hooks" -> k <> "permissions" -> str_get k r1 = str_get k r2) ->
  r1 = r2.
Proof.
  intros W1 W2 Hk Hh Hp Ho.
  apply (dict_ext (eqb := String.eqb)); [assumption | apply W1 |].
  intros k Hin.
  assert (M1 : kmem String.eqb k (keys r1) = true) by (apply kmem_In, Hin).
  assert (M2 : kmem String.eqb k (keys r2) = true) by (rewrite <- Hk; exact M1).
  rewrite str_get_mem in M1, M2. fold (@str_get slot).
  destruct (str_get k r1) as [s1|] eqn:E1; [|discriminate].
  destruct (str_get k r2) as [s2|] eqn:E2; [|discriminate].
  destruct (String.eqb_spec k "hooks") as [->|N1].
  { destruct (hooks_slot _ _ W1 E1) as [-> _].
    destruct (hooks_slot _ _ W2 E2) as [-> _]. congruence. }
  destruct (String.eqb_spec k "permissions") as [->|N2].
  { destruct (perms_slot _ _ W1 E1) as [-> _].
    destruct (perms_slot _ _ W2 E2) as [-> _]. congruence. }
  rewrite <- E1, <- E2. apply Ho; assumption.
Qed.

(** ** The first loop *)

Lemma py_items_doc_items (v : json) :
  is_ok (py_items v) = true -> py_items v = Ok (doc_items v).
Proof. apply is_ok_from_ok. Qed.

Lemma py_iter_elems (v : json) :
  is_ok (py_iter v) = true -> py_iter v = Ok (elems v).
Proof. apply is_ok_from_ok. Qed.

Lemma iter_items_lists (v : json) :
  forallb (fun it => is_ok (py_iter (snd it))) (doc_items v) = true ->
  mapM iter_item (doc_items v) = Ok (item_lists v).
Proof.
  intros H. apply mapM_pure. intros it Hin.
  rewrite forallb_forall in H. unfold iter_item.
  rewrite (py_iter_elems _ (H it Hin)). reflexivity.
Qed.

Lemma perm_items_lists (v : json) :
  forallb (fun it => kmem String.eqb (fst it) perm_kinds
                     && is_ok (py_iter (snd it))) (doc_items v) = true ->
  mapM perm_item (doc_items v) = Ok (item_lists v).
Proof.
  intros H. apply mapM_pure. intros it Hin.
  rewrite forallb_forall in H. specialize (H it Hin).
  apply andb_prop in H. destruct H as [Hk Hi].
  unfold perm_item, iter_item. rewrite Hk, (py_iter_elems _ Hi). reflexivity.
Qed.

Lemma merge_item_ok (result : result_dict) (item : string * json) :
  loadable_item item = true ->
  keys (permissions_of result) = perm_kinds ->
  merge_item result item = Ok (str_set (fst item) (new_slot result item) result).
Proof.
  destruct item as [key value]. unfold loadable_item, merge_item, new_slot.
  simpl fst; simpl snd. intros H Hp.
  destruct (String.eqb_spec key "hooks") as [->|N1].
  { apply andb_prop in H. destruct H as [H1 H2].
    rewrite (py_items_doc_items _ H1). simpl.
    rewrite extend_hook_types_eq, (iter_items_lists _ H2). reflexivity. }
  destruct (String.eqb_spec key "permissions") as [->|N2]; [|reflexivity].
  apply andb_prop in H. destruct H as [H1 H2].
  rewrite (py_items_doc_items _ H1). simpl.
  rewrite extend_perm_types_eq, (perm_items_lists _ H2) by assumption.
  reflexivity.
Qed.

Lemma item_lists_kinds (v : json) (x : string * list json) :
  forallb (fun it => kmem String.eqb (fst it) perm_kinds
                     && is_ok (py_iter (snd it))) (doc_items v) = true ->
  In x (item_lists v) -> kmem String.eqb (fst x) perm_kinds = true.
Proof.
  intros H Hin. unfold item_lists in Hin. apply in_map_iff in Hin.
  destruct Hin as (it & <- & Hit). rewrite forallb_forall in H.
  specialize (H it Hit). apply andb_prop in H. apply H.
Qed.

Lemma new_slot_ok (result : result_dict) (item : string * json) :
  wf_result result -> loadable_item item = true ->
  slot_ok (fst item, new_slot result item).
Proof.
  destruct item as [key value]. unfold loadable_item, new_slot, slot_ok.
  simpl fst; simpl snd. intros W H.
  destruct (String.eqb_spec key "hooks") as [->|N1].
  { split; [reflexivity|]. apply accum_distinct, hooks_of_distinct, W. }
  destruct (String.eqb_spec key "permissions") as [->|N2]; [|tauto].
  split; [reflexivity|].
  apply andb_prop in H. destruct H as [_ H].
  rewrite accum_keys_present; [apply permissions_of_keys, W|].
  intros x Hx. rewrite (permissions_of_keys _ W).
  eapply item_lists_kinds; eassumption.
Qed.

Lemma absorb_cons (item : string * json) (its : list (string * json))
    (result : result_dict) :
  absorb (item :: its) result
  = absorb its (str_set (fst item) (new_slot result item) result).
Proof. reflexivity. Qed.

Lemma absorb_app (its1 its2 : list (string * json)) (result : result_dict) :
  absorb (its1 ++ its2) result = absorb its2 (absorb its1 result).
Proof. apply fold_left_app. Qed.

Lemma absorb_wf (its : list (string * json)) (result : result_dict) :
  forallb loadable_item its = true -> wf_result result ->
  wf_result (absorb its result).
Proof.
  revert result; induction its as [|item its IH]; intros result H W;
    [assumption|].
  simpl in H. apply andb_prop in H. destruct H as [H1 H2].
  rewrite absorb_cons. apply IH; [assumption|].
  apply wf_str_set; [assumption | apply new_slot_ok; assumption].
Qed.

(** On items it can read, the first loop is the fold [absorb]. *)
Lemma merge_items_ok (its : list (string * json)) (result : result_dict) :
  forallb loadable_item its = true -> wf_result result ->
  foldM merge_item its result = Ok (absorb its result).
Proof.
  revert result; induction its as [|item its IH]; intros result H W;
    [reflexivity|].
  simpl in H. apply andb_prop in H. destruct H as [H1 H2].
  simpl foldM. rewrite merge_item_ok by (auto using permissions_of_keys).
  rewrite absorb_cons. simpl bind. apply IH; [assumption|].
  apply wf_str_set; [assumption | apply new_slot_ok; assumption].
Qed.

Lemma absorb_keys (its : list (string * json)) (result : result_dict) :
  keys (absorb its result)
  = keys result ++ uniq_by String.eqb (fun k => k) (keys result) (map fst its).
Proof.
  revert result; induction its as [|item its IH]; intros result.
  - simpl. rewrite app_nil_r. reflexivity.
  - rewrite absorb_cons, IH, str_keys_set. simpl.
    destruct (kmem String.eqb (fst item) (keys result)); [reflexivity|].
    rewrite <- app_assoc. reflexivity.
Qed.

Lemma section_items_cons (name : string) (item : string * json)
    (its : list (string * json)) :
  section_items name (item :: its)
  = (if fst item =? name then item_lists (snd item) else [])
    ++ section_items name its.
Proof. reflexivity. Qed.

Lemma absorb_hooks (its : list (string * json)) (result : result_dict) :
  hooks_of (absorb its result)
  = accum String.eqb (hook_items its) (hooks_of result).
Proof.
  revert result; induction its as [|[k v] its IH]; intros result;
    [reflexivity|].
  rewrite absorb_cons, IH. unfold hook_items.
  rewrite section_items_cons, accum_app. f_equal.
  unfold hooks_of at 1. rewrite str_get_set. unfold new_slot. simpl.
  destruct (String.eqb_spec k "hooks") as [->|N]; reflexivity.
Qed.

Lemma absorb_permissions (its : list (string * json)) (result : result_dict) :
  permissions_of (absorb its result)
  = accum String.eqb (perm_items its) (permissions_of result).
Proof.
  revert result; induction its as [|[k v] its IH]; intros result;
    [reflexivity|].
  rewrite absorb_cons, IH. unfold perm_items.
  rewrite section_items_cons, accum_app. f_equal.
  unfold permissions_of at 1. rewrite str_get_set. unfold new_slot. simpl.
  destruct (String.eqb_spec k "permissions") as [->|N]; reflexivity.
Qed.

Lemma absorb_plain (its : list (string * json)) (result : result_dict)
    (k : string) :
  k <> "hooks" -> k <> "permissions" ->
  str_get k (absorb its result)
  = match last_value k its with
    | Some v => Some (Plain v)
    | None => str_get k result
    end.
Proof.
  intros N1 N2. revert result; induction its as [|[k0 v0] its IH];
    intros result; [reflexivity|].
  rewrite absorb_cons, IH. simpl.
  destruct (last_value k its); [reflexivity|].
  rewrite str_get_set. unfold new_slot. simpl.
  destruct (String.eqb_spec k0 k) as [->|N]; [|reflexivity].
  apply String.eqb_neq in N1, N2. rewrite N1, N2. reflexivity.
Qed.

(** The documents are read one after the other: the first loop sees the
    concatenation of their items. *)
Lemma merge_docs_items (docs : list json) (result : result_dict) :
  forallb (fun d => is_ok (py_items d)) docs = true ->
  foldM merge_doc docs result = foldM merge_item (all_items docs) result.
Proof.
  revert result; induction docs as [|d docs IH]; intros result H;
    [reflexivity|].
  simpl in H. apply andb_prop in H. destruct H as [H1 H2].
  simpl foldM. unfold merge_doc at 1. rewrite (py_items_doc_items _ H1). simpl.
  unfold all_items. simpl flat_map. rewrite foldM_app.
  destruct (foldM merge_item (doc_items d) result); simpl; [|reflexivity].
  apply IH, H2.
Qed.

(** ** The two deduplication passes *)

Lemma str_keys_set_present {V : Type} (k : string) (v v' : V)
    (d : list (string * V)) :
  str_get k d = Some v' -> keys (str_set k v d) = keys d.
Proof.
  intros H. rewrite str_keys_set, str_get_mem, H. reflexivity.
Qed.

Lemma hooks_section_spec (r : result_dict) (hm : list (string * list json)) :
  wf_result r ->
  mapM (on_values regroup) (hooks_of r) = Ok hm ->
  exists r2, dedupe_hooks_section r = Ok r2 /\ wf_result r2
    /\ keys r2 = keys r /\ hooks_of r2 = hm
    /\ (forall k, k <> "hooks" -> str_get k r2 = str_get k r).
Proof.
  intros W H. unfold dedupe_hooks_section.
  destruct (str_get "hooks" r) as [s|] eqn:E.
  - destruct (hooks_slot _ _ W E) as [-> Hd]. rewrite H. simpl.
    eexists; split; [reflexivity|]. repeat split.
    + apply distinct_str_set, W.
    + apply Forall_str_set; [apply W|].
      split; [reflexivity|]. simpl.
      rewrite (on_values_keys _ _ _ H). exact Hd.
    + eapply str_keys_set_present, E.
    + unfold hooks_of. rewrite str_get_set. reflexivity.
    + intros k N. rewrite str_get_set.
      destruct (String.eqb_spec "hooks" k); [congruence | reflexivity].
  - assert (hm = []) as ->.
    { unfold hooks_of in H. rewrite E in H. simpl in H. congruence. }
    exists r. repeat split; try apply W.
    unfold hooks_of. rewrite E. reflexivity.
Qed.

Lemma hooks_section_inv (r r2 : result_dict) :
  wf_result r -> dedupe_hooks_section r = Ok r2 ->
  exists hm, mapM (on_values regroup) (hooks_of r) = Ok hm.
Proof.
  intros W H. unfold dedupe_hooks_section in H.
  destruct (str_get "hooks" r) as [s|] eqn:E.
  - destruct (hooks_slot _ _ W E) as [-> Hd]. inv_bind H. eauto.
  - unfold hooks_of. rewrite E. exists []. reflexivity.
Qed.

Lemma fromkeys_empty_permissions :
  mapM (on_values list_fromkeys) empty_permissions = Ok empty_permissions.
Proof. reflexivity. Qed.

Lemma perms_section_spec (r : result_dict) (pm : list (string * list json)) :
  wf_result r ->
  mapM (on_values list_fromkeys) (permissions_of r) = Ok pm ->
  exists r2, dedupe_permissions_section r = Ok r2 /\ wf_result r2
    /\ keys r2 = keys r /\ permissions_of r2 = pm
    /\ (forall k, k <> "permissions" -> str_get k r2 = str_get k r).
Proof.
  intros W H. unfold dedupe_permissions_section.
  destruct (str_get "permissions" r) as [s|] eqn:E.
  - destruct (perms_slot _ _ W E) as [-> Hd]. rewrite H. simpl.
    eexists; split; [reflexivity|]. repeat split.
    + apply distinct_str_set, W.
    + apply Forall_str_set; [apply W|].
      split; [reflexivity|]. simpl.
      rewrite (on_values_keys _ _ _ H). exact Hd.
    + eapply str_keys_set_present, E.
    + unfold permissions_of. rewrite str_get_set. reflexivity.
    + intros k N. rewrite str_get_set.
      destruct (String.eqb_spec "permissions" k); [congruence | reflexivity].
  - assert (pm = empty_permissions) as ->.
    { unfold permissions_of in H. rewrite E in H.
      rewrite fromkeys_empty_permissions in H. congruence. }
    exists r. repeat split; try apply W.
    unfold permissions_of. rewrite E. reflexivity.
Qed.

Lemma perms_section_inv (r r2 : result_dict) :
  wf_result r -> dedupe_permissions_section r = Ok r2 ->
  exists pm, mapM (on_values list_fromkeys) (permissions_of r) = Ok pm.
Proof.
  intros W H. unfold dedupe_permissions_section in H.
  destruct (str_get "permissions" r) as [s|] eqn:E.
  - destruct (perms_slot _ _ W E) as [-> Hd]. inv_bind H. eauto.
  - unfold permissions_of. rewrite E. exists empty_permissions. reflexivity.
Qed.

Lemma permissions_of_get (r1 r2 : result_dict) :
  str_get "permissions" r1 = str_get "permissions" r2 ->
  permissions_of r1 = permissions_of r2.
Proof. unfold permissions_of. intros ->. reflexivity. Qed.

Lemma hooks_of_get (r1 r2 : result_dict) :
  str_get "hooks" r1 = str_get "hooks" r2 -> hooks_of r1 = hooks_of r2.
Proof. unfold hooks_of. intros ->. reflexivity. Qed.

(** What [finish] returns, read through keys, hooks, permissions and plain
    values. *)
Lemma finish_spec (r : result_dict) (hm pm : list (string * list json)) :
  wf_result r ->
  mapM (on_values regroup) (hooks_of r) = Ok hm ->
  mapM (on_values list_fromkeys) (permissions_of r) = Ok pm ->
  exists m, finish r = Ok m /\ wf_result m
    /\ keys m = keys r /\ hooks_of m = hm /\ permissions_of m = pm
    /\ (forall k, k <> "hooks" -> k <> "permissions" ->
                  str_get k m = str_get k r).
Proof.
  intros W Hh Hp.
  destruct (hooks_section_spec _ _ W Hh) as (r2 & E2 & W2 & K2 & H2 & O2).
  assert (Hp2 : permissions_of r2 = permissions_of r)
    by (apply permissions_of_get, O2; discriminate).
  rewrite <- Hp2 in Hp.
  destruct (perms_section_spec _ _ W2 Hp) as (m & E3 & W3 & K3 & H3 & O3).
  exists m. unfold finish. rewrite E2. simpl. repeat split; try apply W3; auto.
  - congruence.
  - rewrite <- H2. apply hooks_of_get, O3. discriminate.
  - intros k N1 N2. rewrite O3, O2 by assumption. reflexivity.
Qed.

Lemma finish_inv (r m : result_dict) :
  wf_result r -> finish r = Ok m ->
  exists hm pm,
    mapM (on_values regroup) (hooks_of r) = Ok hm
    /\ mapM (on_values list_fromkeys) (permissions_of r) = Ok pm.
Proof.
  intros W H. unfold finish in H. inv_bind H.
  destruct (hooks_section_inv _ _ W Ha) as (hm & Hh).
  destruct (hooks_section_spec _ _ W Hh) as (r2 & E2 & W2 & K2 & H2 & O2).
  assert (a = r2) as -> by congruence.
  destruct (perms_section_inv _ _ W2 H) as (pm & Hp).
  exists hm, pm. split; [assumption|].
  rewrite <- Hp. f_equal. apply permissions_of_get. symmetry. apply O2.
  discriminate.
Qed.

(** ** The passes on documents the merge accepts *)

Lemma forallb_impl {A : Type} (p q : A -> bool) (l : list A) :
  (forall x, In x l -> p x = true -> q x = true) ->
  forallb p l = true -> forallb q l = true.
Proof.
  rewrite !forallb_forall. auto.
Qed.

Lemma forallb_ext {A : Type} (p q : A -> bool) (l : list A) :
  (forall x, p x = q x) -> forallb p l = forallb q l.
Proof.
  intros H. induction l as [|x l IH]; simpl; [reflexivity|].
  rewrite H, IH. reflexivity.
Qed.

Lemma hook_key_command (hook : json) :
  ok_hook hook = true -> hook_key hook = Ok (hook_command hook, hook).
Proof.
  unfold ok_hook, hook_command. intros H.
  destruct (hook_key hook) as [p|e] eqn:E; [|discriminate].
  pose proof (hook_key_snd _ _ E) as Hs. destruct p as [k h]. simpl in *.
  subst. reflexivity.
Qed.

Lemma dedupe_hooks_pure (l : list json) :
  forallb ok_hook l = true ->
  dedupe_hooks l = Ok (uniq_by atom_eqb hook_command [] l).
Proof.
  intros H. rewrite forallb_forall in H. rewrite dedupe_hooks_eq.
  rewrite (mapM_pure _ (fun h => (hook_command h, h)))
    by (intros; apply hook_key_command; auto).
  simpl. rewrite uniq_by_pairs. reflexivity.
Qed.

Lemma py_hash_atom_of (x : json) :
  is_ok (py_hash x) = true -> py_hash x = Ok (atom_of x).
Proof. apply is_ok_from_ok. Qed.

Lemma list_fromkeys_pure (l : list json) :
  forallb (fun x => is_ok (py_hash x)) l = true ->
  list_fromkeys l = Ok (merged_permissions l).
Proof.
  intros H. rewrite forallb_forall in H. rewrite list_fromkeys_eq.
  rewrite (mapM_pure _ atom_of) by (intros; apply py_hash_atom_of; auto).
  reflexivity.
Qed.

Lemma parse_group_pure (entry : json) :
  is_ok (parse_group entry) = true ->
  parse_group entry = Ok (group_matcher entry, group_hooks entry).
Proof.
  unfold group_matcher, group_hooks.
  destruct (parse_group entry) as [[m hs]|e]; [reflexivity | discriminate].
Qed.

Lemma In_gather {K V : Type} (eqb : K -> K -> bool) (k : K)
    (its : list (K * list V)) (x : V) :
  In x (gather eqb k its) -> exists it, In it its /\ In x (snd it).
Proof.
  unfold gather. rewrite in_flat_map. intros (it & Hit & Hx).
  apply filter_In in Hit. exists it. tauto.
Qed.

Lemma In_grouped {K V : Type} (eqb : K -> K -> bool)
    (its : list (K * list V)) (g : K * list V) (x : V) :
  In g (grouped eqb its) -> In x (snd g) ->
  exists it, In it its /\ In x (snd it).
Proof.
  unfold grouped. rewrite in_map_iff. intros (k & <- & _) Hx.
  eapply In_gather, Hx.
Qed.

Lemma map_values_pure {K A B : Type} (f : A -> res B) (g : A -> B)
    (d : list (K * A)) :
  (forall kv, In kv d -> f (snd kv) = Ok (g (snd kv))) ->
  mapM (on_values f) d = Ok (map_values g d).
Proof.
  intros H. apply mapM_pure. intros kv Hin. unfold on_values.
  rewrite (H kv Hin). reflexivity.
Qed.

(** On matcher groups the merge can read, regrouping is [merged_groups]. *)
Lemma regroup_pure (entries : list json) :
  forallb ok_group entries = true ->
  regroup entries = Ok (merged_groups entries).
Proof.
  intros H. rewrite forallb_forall in H. rewrite regroup_eq.
  rewrite (mapM_pure _ (fun e => (group_matcher e, group_hooks e))).
  2:{ intros e He. apply parse_group_pure.
      specialize (H e He). apply andb_prop in H. apply H. }
  simpl. rewrite accum_grouped.
  rewrite (map_values_pure _ (uniq_by atom_eqb hook_command [])).
  - simpl. unfold merged_groups, map_values. rewrite map_map. reflexivity.
  - intros g Hg. apply dedupe_hooks_pure. apply forallb_forall. intros x Hx.
    destruct (In_grouped _ _ _ _ Hg Hx) as (it & Hit & Hxit).
    apply in_map_iff in Hit. destruct Hit as (e & <- & He).
    specialize (H e He). apply andb_prop in H. destruct H as [_ H].
    rewrite forallb_forall in H. apply H, Hxit.
Qed.

Lemma ok_item_loadable (item : string * json) :
  ok_item item = true -> loadable_item item = true.
Proof.
  unfold ok_item, loadable_item.
  destruct (fst item =? "hooks").
  { unfold ok_hooks. intros H. apply andb_prop in H. destruct H as [H1 H2].
    rewrite H1. simpl. revert H2. apply forallb_impl. intros it _ H.
    apply andb_prop in H. apply H. }
  destruct (fst item =? "permissions"); [|reflexivity].
  unfold ok_permissions. intros H. apply andb_prop in H. destruct H as [H1 H2].
  rewrite H1, andb_true_l. revert H2. apply forallb_impl. intros it _ H.
  cbv beta in *.
  apply andb_prop in H. destruct H as [Hk H]. rewrite Hk, andb_true_l.
  apply andb_prop in H. apply H.
Qed.

Lemma mergeable_items (docs : list json) :
  forallb mergeable docs = true ->
  forallb (fun d => is_ok (py_items d)) docs = true
  /\ forallb ok_item (all_items docs) = true.
Proof.
  induction docs as [|d docs IH]; simpl; intros H; [split; reflexivity|].
  apply andb_prop in H. destruct H as [Hd H].
  destruct (IH H) as [H1 H2]. unfold mergeable in Hd.
  apply andb_prop in Hd. destruct Hd as [Hd1 Hd2].
  rewrite Hd1, H1. split; [reflexivity|].
  unfold all_items in *. simpl. rewrite forallb_app, Hd2, H2. reflexivity.
Qed.

Lemma In_section_items (name : string) (its : list (string * json))
    (x : string * list json) :
  In x (section_items name its) ->
  exists v it, In (name, v) its /\ In it (doc_items v)
               /\ x = (fst it, elems (snd it)).
Proof.
  unfold section_items. rewrite in_flat_map. intros ([k v] & Hkv & Hx).
  simpl in Hx. destruct (String.eqb_spec k name) as [->|N]; [|destruct Hx].
  unfold item_lists in Hx. apply in_map_iff in Hx.
  destruct Hx as (it & <- & Hit). eauto.
Qed.

Lemma hook_items_ok (its : list (string * json)) (x : string * list json) :
  forallb ok_item its = true -> In x (hook_items its) ->
  forallb ok_group (snd x) = true.
Proof.
  intros H Hx. destruct (In_section_items _ _ _ Hx) as (v & it & Hv & Hit & ->).
  rewrite forallb_forall in H. specialize (H _ Hv).
  unfold ok_item, ok_hooks in H. simpl in H.
  apply andb_prop in H. destruct H as [_ H].
  rewrite forallb_forall in H. specialize (H _ Hit).
  unfold ok_hook_list in H. apply andb_prop in H. apply H.
Qed.

Lemma perm_items_ok (its : list (string * json)) (x : string * list json) :
  forallb ok_item its = true -> In x (perm_items its) ->
  kmem String.eqb (fst x) perm_kinds = true
  /\ forallb (fun y => is_ok (py_hash y)) (snd x) = true.
Proof.
  intros H Hx. destruct (In_section_items _ _ _ Hx) as (v & it & Hv & Hit & ->).
  rewrite forallb_forall in H. specialize (H _ Hv).
  unfold ok_item, ok_permissions in H. simpl in H.
  apply andb_prop in H. destruct H as [_ H].
  rewrite forallb_forall in H. specialize (H _ Hit).
  apply andb_prop in H. destruct H as [Hk H]. split; [exact Hk|].
  unfold ok_perm_list in H. apply andb_prop in H. apply H.
Qed.

(** The permission accumulators always have the three kinds as keys, so they
    are the three gathered lists. *)
Lemma accum_permissions (its : list (string * list json)) :
  (forall x, In x its -> kmem String.eqb (fst x) perm_kinds = true) ->
  accum String.eqb its empty_permissions
  = map (fun k => (k, gather String.eqb k its)) perm_kinds.
Proof.
  intros H.
  assert (Hk : keys (accum String.eqb its empty_permissions) = perm_kinds)
    by (apply (accum_keys_present its empty_permissions), H).
  rewrite (dict_eta (accum String.eqb its empty_permissions))
    by (rewrite Hk; reflexivity).
  rewrite Hk. apply map_ext_in. intros k Hin. rewrite accum_get.
  f_equal. simpl in Hin.
  destruct Hin as [<-|[<-|[<-|[]]]]; reflexivity.
Qed.

(** ** The merge of documents it accepts *)

Lemma merge_result_finish (docs : list json) :
  merge_result docs = (r1 <- foldM merge_doc docs [] ;; finish r1).
Proof. reflexivity. Qed.

Lemma first_loop_ok (docs : list json) :
  forallb mergeable docs = true ->
  foldM merge_doc docs [] = Ok (absorb (all_items docs) [])
  /\ wf_result (absorb (all_items docs) []).
Proof.
  intros H. destruct (mergeable_items _ H) as [H1 H2].
  assert (H3 : forallb loadable_item (all_items docs) = true).
  { revert H2. apply forallb_impl. intros; apply ok_item_loadable; assumption. }
  rewrite merge_docs_items by assumption.
  split; [apply merge_items_ok | apply absorb_wf]; auto using wf_empty.
Qed.

Lemma regroup_hook_items (its : list (string * json)) :
  forallb ok_item its = true ->
  mapM (on_values regroup) (grouped String.eqb (hook_items its))
  = Ok (map_values merged_groups (grouped String.eqb (hook_items its))).
Proof.
  intros H. apply map_values_pure. intros kv Hkv. apply regroup_pure.
  apply forallb_forall. intros x Hx.
  destruct (In_grouped _ _ _ _ Hkv Hx) as (it & Hit & Hxit).
  pose proof (hook_items_ok _ _ H Hit) as Hok.
  rewrite forallb_forall in Hok. auto.
Qed.

Lemma fromkeys_perm_items (its : list (string * json)) :
  forallb ok_item its = true ->
  mapM (on_values list_fromkeys)
       (map (fun k => (k, gather String.eqb k (perm_items its))) perm_kinds)
  = Ok (map (fun k => (k, merged_permissions
                            (gather String.eqb k (perm_items its))))
            perm_kinds).
Proof.
  intros H.
  rewrite (map_values_pure _ merged_permissions).
  - unfold map_values. rewrite map_map. reflexivity.
  - intros kv Hkv. apply list_fromkeys_pure. apply forallb_forall.
    intros x Hx. apply in_map_iff in Hkv. destruct Hkv as (k & <- & _).
    destruct (In_gather _ _ _ _ Hx) as (it & Hit & Hxit).
    destruct (perm_items_ok _ _ H Hit) as [_ Hok].
    rewrite forallb_forall in Hok. auto.
Qed.

(** The merged document of a list of documents the merge accepts: its keys
    in order of first appearance, its hook types with their matcher groups,
    its three permission lists, and under any other key the last value. *)
Lemma merge_result_spec (docs : list json) :
  forallb mergeable docs = true ->
  exists m, merge_result docs = Ok m /\ wf_result m
    /\ keys m = uniq_by String.eqb (fun k => k) [] (map fst (all_items docs))
    /\ hooks_of m = merged_hooks docs
    /\ permissions_of m = merged_perms docs
    /\ (forall k, k <> "hooks" -> k <> "permissions" ->
          str_get k m = option_map Plain (last_value k (all_items docs))).
Proof.
  intros H. destruct (first_loop_ok _ H) as [E1 W1].
  destruct (mergeable_items _ H) as [_ H2].
  set (r1 := absorb (all_items docs) []) in *.
  assert (Hh : mapM (on_values regroup) (hooks_of r1) = Ok (merged_hooks docs)).
  { unfold r1. rewrite absorb_hooks.
    change (hooks_of []) with (@nil (string * list json)).
    rewrite accum_grouped. apply regroup_hook_items, H2. }
  assert (Hp : mapM (on_values list_fromkeys) (permissions_of r1)
               = Ok (merged_perms docs)).
  { unfold r1. rewrite absorb_permissions.
    change (permissions_of []) with empty_permissions.
    rewrite accum_permissions.
    - apply fromkeys_perm_items, H2.
    - intros x Hx. apply (perm_items_ok _ _ H2 Hx). }
  destruct (finish_spec _ _ _ W1 Hh Hp) as (m & E & W & K & Hm & Pm & O).
  exists m. rewrite merge_result_finish, E1. simpl.
  repeat split; try apply W; auto.
  - rewrite K. unfold r1. rewrite absorb_keys. reflexivity.
  - intros k N1 N2. rewrite O by assumption. unfold r1.
    rewrite absorb_plain by assumption.
    destruct (last_value k (all_items docs)); reflexivity.
Qed.

(** ** Valid documents are accepted *)

Lemma valid_entry_ok (hook : json) : valid_entry hook = true -> ok_hook hook = true.
Proof.
  unfold valid_entry, ok_hook, hook_key.
  destruct hook as [a|l|kv]; try discriminate. simpl.
  destruct (str_get "command" kv) as [[[| | |s]| |]|]; simpl;
    try discriminate; reflexivity.
Qed.

Lemma valid_group_ok (entry : json) :
  valid_group entry = true -> ok_group entry = true.
Proof.
  unfold valid_group, ok_group, group_hooks, parse_group.
  destruct entry as [a|l|kv]; try discriminate. simpl.
  destruct (str_get "matcher" kv) as [[[| | |s]| |]|]; simpl;
    try discriminate;
    (destruct (str_get "hooks" kv) as [[a|es|o]|]; simpl;
       try discriminate; try reflexivity;
       apply forallb_impl; intros; apply valid_entry_ok; assumption).
Qed.

Lemma valid_hooks_ok (value : json) :
  valid_hooks value = true -> ok_hooks value = true.
Proof.
  unfold valid_hooks, ok_hooks.
  destruct value as [a|l|its]; try discriminate. simpl.
  apply forallb_impl. intros it _. unfold valid_sequence, ok_hook_list.
  destruct (snd it) as [a|gs|o]; try discriminate. simpl.
  apply forallb_impl. intros; apply valid_group_ok; assumption.
Qed.

Lemma is_string_hashable (x : json) :
  is_string x = true -> is_ok (py_hash x) = true.
Proof. destruct x as [[| | |s]| |]; simpl; congruence. Qed.

Lemma valid_permissions_ok (value : json) :
  valid_permissions value = true -> ok_permissions value = true.
Proof.
  unfold valid_permissions, ok_permissions.
  destruct value as [a|l|its]; try discriminate.
  change (is_ok (py_items (JObj its))) with true.
  change (doc_items (JObj its)) with its. rewrite andb_true_l.
  apply forallb_impl. intros it _ H. cbv beta in *.
  apply andb_prop in H. destruct H as [Hk H]. rewrite Hk, andb_true_l.
  unfold valid_sequence in H. unfold ok_perm_list.
  destruct (snd it) as [a|xs|o]; try discriminate. simpl.
  revert H. apply forallb_impl. intros; apply is_string_hashable; assumption.
Qed.

Lemma valid_item_ok (item : string * json) :
  valid_item item = true -> ok_item item = true.
Proof.
  unfold valid_item, ok_item.
  destruct (fst item =? "hooks"); [apply valid_hooks_ok|].
  destruct (fst item =? "permissions"); [apply valid_permissions_ok|].
  reflexivity.
Qed.

Lemma valid_doc_mergeable (settings : json) :
  valid_doc settings = true -> mergeable settings = true.
Proof.
  unfold valid_doc, mergeable.
  destruct settings as [a|l|its]; try discriminate. simpl.
  apply forallb_impl. intros; apply valid_item_ok; assumption.
Qed.

Lemma valid_docs_mergeable (docs : list json) :
  forallb valid_doc docs = true -> forallb mergeable docs = true.
Proof.
  apply forallb_impl. intros; apply valid_doc_mergeable; assumption.
Qed.

(** ** Documents the merge accepts are all it accepts *)

Lemma is_ok_true {A : Type} (c : res A) (a : A) : c = Ok a -> is_ok c = true.
Proof. intros ->. reflexivity. Qed.

Lemma doc_items_ok (v : json) (its : list (string * json)) :
  py_items v = Ok its -> doc_items v = its.
Proof. unfold doc_items. intros ->. reflexivity. Qed.

Lemma iter_item_is_ok (it : string * json) :
  is_ok (iter_item it) = is_ok (py_iter (snd it)).
Proof. unfold iter_item. destruct (py_iter (snd it)); reflexivity. Qed.

Lemma perm_item_is_ok (it : string * json) :
  is_ok (perm_item it)
  = kmem String.eqb (fst it) perm_kinds && is_ok (py_iter (snd it)).
Proof.
  unfold perm_item. destruct (kmem String.eqb (fst it) perm_kinds);
    [apply iter_item_is_ok | reflexivity].
Qed.

Lemma merge_item_inv (result result' : result_dict) (item : string * json) :
  wf_result result -> merge_item result item = Ok result' ->
  loadable_item item = true.
Proof.
  destruct item as [key value]. unfold merge_item, loadable_item.
  simpl fst; simpl snd. intros W H.
  destruct (key =? "hooks").
  { inv_bind H. inv_bind H. rewrite (is_ok_true _ _ Ha), (doc_items_ok _ _ Ha).
    rewrite extend_hook_types_eq in Ha0. inv_bind Ha0.
    apply is_ok_true in Ha1. rewrite mapM_is_ok in Ha1.
    rewrite andb_true_l, <- Ha1. apply forallb_ext. intros it.
    symmetry. apply iter_item_is_ok. }
  destruct (key =? "permissions"); [|reflexivity].
  inv_bind H. inv_bind H. rewrite (is_ok_true _ _ Ha), (doc_items_ok _ _ Ha).
  rewrite extend_perm_types_eq in Ha0 by (apply permissions_of_keys, W).
  inv_bind Ha0. apply is_ok_true in Ha1. rewrite mapM_is_ok in Ha1.
  rewrite andb_true_l, <- Ha1. apply forallb_ext. intros it.
  symmetry. apply perm_item_is_ok.
Qed.

Lemma merge_items_inv (its : list (string * json)) (result result' : result_dict) :
  wf_result result -> foldM merge_item its result = Ok result' ->
  forallb loadable_item its = true.
Proof.
  revert result; induction its as [|item its IH]; intros result W H;
    [reflexivity|].
  simpl in H. inv_bind H.
  pose proof (merge_item_inv _ _ _ W Ha) as Hl.
  rewrite merge_item_ok in Ha by (auto using permissions_of_keys).
  injection Ha as <-. simpl. rewrite Hl. simpl.
  eapply IH, H. apply wf_str_set; [assumption | apply new_slot_ok; assumption].
Qed.

Lemma merge_docs_inv (docs : list json) (result result' : result_dict) :
  wf_result result -> foldM merge_doc docs result = Ok result' ->
  forallb (fun d => is_ok (py_items d)) docs = true
  /\ forallb loadable_item (all_items docs) = true.
Proof.
  revert result; induction docs as [|d docs IH]; intros result W H;
    [split; reflexivity|].
  simpl in H. inv_bind H. unfold merge_doc in Ha. inv_bind Ha.
  pose proof (merge_items_inv _ _ _ W Ha) as Hl.
  rewrite merge_items_ok in Ha by assumption. injection Ha as <-.
  destruct (IH _ (absorb_wf _ _ Hl W) H) as [H1 H2].
  simpl. rewrite (is_ok_true _ _ Ha0), H1. split; [reflexivity|].
  unfold all_items in *. simpl. rewrite (doc_items_ok _ _ Ha0).
  rewrite forallb_app, Hl, H2. reflexivity.
Qed.

Lemma In_grouped_conv {K V : Type} (eqb : K -> K -> bool) `{!KeyEq eqb}
    (its : list (K * list V)) (it : K * list V) (x : V) :
  In it its -> In x (snd it) ->
  exists g, In g (grouped eqb its) /\ In x (snd g).
Proof.
  intros Hit Hx.
  assert (Hm : kmem eqb (fst it)
                 (uniq_by eqb (fun k => k) [] (map fst its)) = true).
  { pose proof (kmem_uniq (fun k => k) (fst it) [] (map fst its)) as E.
    simpl in E. rewrite !map_id in E. rewrite E.
    apply kmem_In, in_map, Hit. }
  apply existsb_exists in Hm. destruct Hm as (k0 & Hk0 & E).
  exists (k0, gather eqb k0 its). split.
  - unfold grouped. apply in_map_iff. exists k0. auto.
  - simpl. unfold gather. apply in_flat_map. exists it. split; [|assumption].
    apply filter_In. auto.
Qed.

Lemma on_values_In {K V : Type} (N : list V -> res (list V))
    (d m : list (K * list V)) (kv : K * list V) :
  mapM (on_values N) d = Ok m -> In kv d -> is_ok (N (snd kv)) = true.
Proof.
  intros H Hin. destruct (mapM_In _ _ _ _ H Hin) as (y & Hy & _).
  unfold on_values in Hy. destruct (N (snd kv)); [reflexivity | discriminate].
Qed.

Lemma dedupe_hooks_inv (l n : list json) :
  dedupe_hooks l = Ok n -> forallb ok_hook l = true.
Proof.
  rewrite dedupe_hooks_eq. intros H. inv_bind H.
  apply is_ok_true in Ha. rewrite mapM_is_ok in Ha. exact Ha.
Qed.

Lemma regroup_inv (l n : list json) :
  regroup l = Ok n -> forallb ok_group l = true.
Proof.
  rewrite regroup_eq. intros H. inv_bind H. inv_bind H.
  rewrite accum_grouped in Ha0.
  apply forallb_forall. intros e He. unfold ok_group.
  destruct (mapM_In _ _ _ _ Ha He) as (pe & Hpe & Hin).
  rewrite (is_ok_true _ _ Hpe), andb_true_l.
  unfold group_hooks. rewrite Hpe. simpl.
  apply forallb_forall. intros x Hx.
  destruct (In_grouped_conv atom_eqb _ _ _ Hin Hx) as (g & Hg & Hxg).
  pose proof (on_values_In _ _ _ _ Ha0 Hg) as Hd.
  destruct (dedupe_hooks (snd g)) as [d|] eqn:E; [|discriminate].
  pose proof (dedupe_hooks_inv _ _ E) as Hok.
  rewrite forallb_forall in Hok. auto.
Qed.

Lemma list_fromkeys_inv (l n : list json) :
  list_fromkeys l = Ok n -> forallb (fun x => is_ok (py_hash x)) l = true.
Proof.
  rewrite list_fromkeys_eq. intros H. inv_bind H.
  apply is_ok_true in Ha. rewrite mapM_is_ok in Ha. exact Ha.
Qed.

Lemma In_section_items_conv (name : string) (its : list (string * json))
    (v : json) (it : string * json) :
  In (name, v) its -> In it (doc_items v) ->
  In (fst it, elems (snd it)) (section_items name its).
Proof.
  intros Hv Hit. unfold section_items. apply in_flat_map.
  exists (name, v). split; [assumption|]. simpl.
  rewrite String.eqb_refl. unfold item_lists.
  apply in_map_iff. exists it. auto.
Qed.

Lemma mergeable_of_items (docs : list json) :
  forallb (fun d => is_ok (py_items d)) docs = true ->
  forallb ok_item (all_items docs) = true ->
  forallb mergeable docs = true.
Proof.
  induction docs as [|d docs IH]; simpl; intros H1 H2; [reflexivity|].
  apply andb_prop in H1. destruct H1 as [Hd H1].
  unfold all_items in H2. simpl in H2. rewrite forallb_app in H2.
  apply andb_prop in H2. destruct H2 as [Hi H2].
  unfold mergeable at 1. rewrite Hd, Hi. simpl. apply IH; assumption.
Qed.

(** A merge that returns has read only what [mergeable] allows. *)
Lemma merge_result_mergeable (docs : list json) (m : result_dict) :
  merge_result docs = Ok m -> forallb mergeable docs = true.
Proof.
  rewrite merge_result_finish. intros H. inv_bind H.
  destruct (merge_docs_inv _ _ _ wf_empty Ha) as [H1 H2].
  rewrite merge_docs_items, merge_items_ok in Ha by auto using wf_empty.
  injection Ha as <-.
  pose proof (absorb_wf _ _ H2 wf_empty) as W.
  destruct (finish_inv _ _ W H) as (hm & pm & Hh & Hp).
  rewrite absorb_hooks in Hh. change (hooks_of []) with (@nil (string * list json)) in Hh.
  rewrite accum_grouped in Hh.
  rewrite absorb_permissions in Hp.
  change (permissions_of []) with empty_permissions in Hp.
  apply mergeable_of_items; [assumption|].
  apply forallb_forall. intros [k v] Hkv.
  rewrite forallb_forall in H2. pose proof (H2 _ Hkv) as Hl.
  unfold loadable_item in Hl. unfold ok_item. cbn [fst snd] in *.
  destruct (String.eqb_spec k "hooks") as [->|N1].
  { apply andb_prop in Hl. destruct Hl as [Hl1 Hl2]. unfold ok_hooks.
    rewrite Hl1, andb_true_l. apply forallb_forall. intros it Hit.
    rewrite forallb_forall in Hl2. unfold ok_hook_list.
    rewrite (Hl2 _ Hit), andb_true_l.
    apply forallb_forall. intros x Hx.
    pose proof (In_section_items_conv _ _ _ _ Hkv Hit) as Hsec.
    destruct (In_grouped_conv String.eqb _ _ x Hsec Hx) as (g & Hg & Hxg).
    pose proof (on_values_In _ _ _ _ Hh Hg) as Hr.
    destruct (regroup (snd g)) as [n|] eqn:E; [|discriminate].
    pose proof (regroup_inv _ _ E) as Hok.
    rewrite forallb_forall in Hok. auto. }
  destruct (String.eqb_spec k "permissions") as [->|N2]; [|reflexivity].
  apply andb_prop in Hl. destruct Hl as [Hl1 Hl2]. unfold ok_permissions.
  rewrite Hl1, andb_true_l. apply forallb_forall. intros it Hit.
  rewrite forallb_forall in Hl2. pose proof (Hl2 _ Hit) as Hit2.
  apply andb_prop in Hit2. destruct Hit2 as [Hk Hi].
  rewrite Hk, andb_true_l. unfold ok_perm_list. rewrite Hi, andb_true_l.
  apply forallb_forall. intros x Hx.
  pose proof (In_section_items_conv _ _ _ _ Hkv Hit) as Hsec.
  rewrite accum_permissions in Hp.
  2:{ intros y Hy. destruct (In_section_items _ _ _ Hy) as (v' & it' & Hv' & Hit' & ->).
      pose proof (H2 _ Hv') as Hl'. unfold loadable_item in Hl'.
      cbn [fst snd String.eqb Ascii.eqb Bool.eqb] in Hl'.
      apply andb_prop in Hl'. destruct Hl' as [_ Hl'].
      rewrite forallb_forall in Hl'. specialize (Hl' _ Hit').
      apply andb_prop in Hl'. apply Hl'. }
  assert (Hg : In (fst it, gather String.eqb (fst it) (perm_items (all_items docs)))
                  (map (fun k => (k, gather String.eqb k (perm_items (all_items docs))))
                       perm_kinds)).
  { apply in_map_iff. exists (fst it). split; [reflexivity|].
    apply existsb_exists in Hk. destruct Hk as (k0 & Hk0 & E).
    apply String.eqb_eq in E. subst k0. exact Hk0. }
  pose proof (on_values_In _ _ _ _ Hp Hg) as Hr. simpl in Hr.
  destruct (list_fromkeys (gather String.eqb (fst it) (perm_items (all_items docs))))
    as [n|] eqn:E; [|discriminate].
  pose proof (list_fromkeys_inv _ _ E) as Hok.
  rewrite forallb_forall in Hok. apply Hok.
  unfold gather. apply in_flat_map.
  exists (fst it, elems (snd it)). split; [|exact Hx].
  apply filter_In. split; [exact Hsec|]. simpl. apply String.eqb_refl.
Qed.

Lemma merge_settings_is_ok (docs : list json) :
  is_ok (merge_settings docs) = forallb mergeable docs.
Proof.
  unfold merge_settings. destruct (forallb mergeable docs) eqn:E.
  - destruct (merge_result_spec _ E) as (m & -> & _). reflexivity.
  - destruct (merge_result docs) as [m|e] eqn:R; [|reflexivity].
    rewrite (merge_result_mergeable _ _ R) in E. discriminate.
Qed.

(** ** Reading a merged document back *)

Lemma result_json_items (m : result_dict) :
  result_json m = JObj (map enc m).
Proof. reflexivity. Qed.

Lemma str_get_map {A B : Type} (f : A -> B) (k : string) (d : list (string * A)) :
  str_get k (map (fun kv => (fst kv, f (snd kv))) d)
  = option_map f (str_get k d).
Proof.
  induction d as [|[k0 v0] d IH]; simpl; [reflexivity|].
  destruct (k0 =? k); [reflexivity | apply IH].
Qed.

Lemma item_lists_json (h : list (string * list json)) :
  item_lists (lists_json h) = h.
Proof.
  unfold item_lists, lists_json, doc_items. cbn [py_items from_ok].
  rewrite map_map. rewrite <- (map_id h) at 2.
  apply map_ext. intros [k l]. reflexivity.
Qed.

Lemma section_items_absent (name : string) (its : list (string * json)) :
  kmem String.eqb name (keys its) = false -> section_items name its = [].
Proof.
  induction its as [|[k v] its IH]; intros H; [reflexivity|].
  simpl in H. apply orb_false_elim in H. destruct H as [H1 H2].
  rewrite section_items_cons. cbn [fst snd].
  rewrite String.eqb_sym, H1. apply IH, H2.
Qed.

Lemma keys_enc (m : result_dict) : keys (map enc m) = keys m.
Proof. unfold keys. rewrite map_map. reflexivity. Qed.

Lemma section_items_enc (name : string) (m : result_dict) :
  distinct String.eqb (keys m) = true ->
  section_items name (map enc m)
  = match str_get name m with
    | Some s => item_lists (slot_json s)
    | None => []
    end.
Proof.
  induction m as [|[k s] m IH]; intros H; [reflexivity|].
  simpl in H. apply andb_prop in H. destruct H as [Hk H].
  apply negb_true_iff in Hk.
  change (map enc ((k, s) :: m)) with ((k, slot_json s) :: map enc m).
  rewrite section_items_cons. cbn [fst snd str_get dict_get].
  destruct (String.eqb_spec k name) as [->|N].
  - rewrite section_items_absent, app_nil_r; [reflexivity|].
    rewrite keys_enc. exact Hk.
  - apply IH, H.
Qed.

Lemma last_value_distinct (k : string) (its : list (string * json)) :
  distinct String.eqb (keys its) = true -> last_value k its = str_get k its.
Proof.
  induction its as [|[k0 v0] its IH]; simpl; intros H; [reflexivity|].
  apply andb_prop in H. destruct H as [Hk H]. apply negb_true_iff in Hk.
  rewrite (IH H). destruct (String.eqb_spec k0 k) as [->|N].
  - assert (str_get k its = None) as -> by (apply dict_get_None, Hk).
    reflexivity.
  - destruct (str_get k its); reflexivity.
Qed.

Lemma last_value_app (k : string) (a b : list (string * json)) :
  last_value k (a ++ b)
  = match last_value k b with
    | Some x => Some x
    | None => last_value k a
    end.
Proof.
  induction a as [|[k0 v0] a IH]; simpl.
  - destruct (last_value k b); reflexivity.
  - rewrite IH. destruct (last_value k b); reflexivity.
Qed.

Lemma accum_permissions_id (p : list (string * list json)) :
  keys p = perm_kinds -> accum String.eqb p empty_permissions = p.
Proof.
  destruct p as [|[k1 a] [|[k2 d] [|[k3 s] [|]]]]; try discriminate.
  intros H. injection H as -> -> ->. reflexivity.
Qed.

Lemma enc_loadable (m : result_dict) :
  wf_result m -> forallb loadable_item (map enc m) = true.
Proof.
  intros [_ W]. apply forallb_forall. intros it Hit.
  apply in_map_iff in Hit. destruct Hit as ([k s] & <- & Hin).
  rewrite Forall_forall in W. specialize (W _ Hin).
  unfold slot_ok in W. unfold loadable_item, enc. simpl in *.
  destruct s as [h|p|v]; simpl.
  - destruct W as [-> _]. simpl. apply forallb_forall.
    intros x Hx. apply in_map_iff in Hx. destruct Hx as (y & <- & _).
    reflexivity.
  - destruct W as [-> Hk]. simpl. apply forallb_forall.
    intros x Hx. apply in_map_iff in Hx. destruct Hx as (y & <- & Hy).
    simpl. rewrite andb_true_r.
    change (kmem String.eqb (fst y) perm_kinds = true).
    apply kmem_In. rewrite <- Hk. apply in_map, Hy.
  - destruct W as [N1 N2]. apply String.eqb_neq in N1, N2.
    rewrite N1, N2. reflexivity.
Qed.

(** The first loop reads a merged document back as it is. *)
Lemma reload (m : result_dict) :
  wf_result m -> foldM merge_item (map enc m) [] = Ok m.
Proof.
  intros W. pose proof (enc_loadable _ W) as L.
  rewrite merge_items_ok by auto using wf_empty. f_equal.
  apply result_ext; [apply absorb_wf; auto using wf_empty | assumption | | | |].
  - rewrite absorb_keys. simpl. rewrite <- (keys_enc m).
    apply uniq_by_fixed. simpl. rewrite map_id, keys_enc. apply W.
  - rewrite absorb_hooks. change (hooks_of []) with (@nil (string * list json)).
    unfold hook_items. rewrite section_items_enc by apply W.
    destruct (str_get "hooks" m) as [s|] eqn:E.
    + destruct (hooks_slot _ _ W E) as [-> Hd]. simpl.
      rewrite item_lists_json. apply accum_fresh. exact Hd.
    + unfold hooks_of. rewrite E. reflexivity.
  - rewrite absorb_permissions.
    change (permissions_of []) with empty_permissions.
    unfold perm_items. rewrite section_items_enc by apply W.
    destruct (str_get "permissions" m) as [s|] eqn:E.
    + destruct (perms_slot _ _ W E) as [-> Hk]. simpl.
      rewrite item_lists_json. apply accum_permissions_id, Hk.
    + unfold permissions_of. rewrite E. reflexivity.
  - intros k N1 N2. rewrite absorb_plain by assumption.
    rewrite last_value_distinct by (rewrite keys_enc; apply W).
    unfold enc. rewrite (str_get_map slot_json).
    destruct (str_get k m) as [s|] eqn:E; [|reflexivity].
    destruct (plain_slot _ _ _ W N1 N2 E) as (v & ->). reflexivity.
Qed.

(** ** Merging the same fragment twice *)

Lemma kmem_absorb_keys (k : string) (its : list (string * json))
    (r : result_dict) :
  In k (map fst its) -> kmem String.eqb k (keys (absorb its r)) = true.
Proof.
  intros H. rewrite absorb_keys.
  pose proof (kmem_uniq (fun x => x) k (keys r) (map fst its)) as E.
  rewrite !map_id in E. rewrite E, kmem_app, (kmem_In k (map fst its) H).
  apply orb_true_r.
Qed.

Lemma mergeable_loadable (d : json) :
  mergeable d = true ->
  py_items d = Ok (doc_items d)
  /\ forallb loadable_item (doc_items d) = true.
Proof.
  unfold mergeable. intros H. apply andb_prop in H. destruct H as [H1 H2].
  split; [apply py_items_doc_items, H1|].
  revert H2. apply forallb_impl. intros; apply ok_item_loadable; assumption.
Qed.

(** After a fragment was absorbed and the result deduplicated, absorbing the
    fragment again and deduplicating gives the same result. *)
Lemma absorb_finish_idem (its : list (string * json)) (r0 m : result_dict) :
  wf_result r0 -> forallb loadable_item its = true ->
  finish (absorb its r0) = Ok m ->
  finish (absorb its m) = Ok m.
Proof.
  intros W0 L E.
  pose proof (absorb_wf _ _ L W0) as W1.
  destruct (finish_inv _ _ W1 E) as (hm & pm & Hh & Hp).
  destruct (finish_spec _ _ _ W1 Hh Hp) as (m' & E' & W & K & Hm & Pm & O).
  assert (m' = m) as -> by congruence. clear E'.
  pose proof (absorb_wf _ _ L W) as W2.
  assert (Hh2 : mapM (on_values regroup) (hooks_of (absorb its m)) = Ok hm).
  { rewrite absorb_hooks, Hm. rewrite absorb_hooks in Hh.
    apply (accum_norm_idem regroup regroup_absorb _ (hooks_of r0));
      [apply hooks_of_distinct, W0 | exact Hh]. }
  assert (Hp2 : mapM (on_values list_fromkeys) (permissions_of (absorb its m))
                = Ok pm).
  { rewrite absorb_permissions, Pm. rewrite absorb_permissions in Hp.
    apply (accum_norm_idem list_fromkeys list_fromkeys_absorb _
             (permissions_of r0)); [|exact Hp].
    rewrite (permissions_of_keys _ W0). reflexivity. }
  destruct (finish_spec _ _ _ W2 Hh2 Hp2) as (m2 & E2 & Wm2 & K2 & Hm2 & Pm2 & O2).
  rewrite E2. f_equal. apply result_ext; try assumption; try congruence.
  - rewrite K2, absorb_keys, uniq_by_seen; [apply app_nil_r|].
    intros k Hk. rewrite K. apply kmem_absorb_keys, Hk.
  - intros k N1 N2. rewrite O2, absorb_plain, O, absorb_plain by assumption.
    destruct (last_value k its); reflexivity.
Qed.

Lemma merge_twice (D F : json) :
  mergeable D = true -> mergeable F = true ->
  exists m, merge_result [D; F] = Ok m
            /\ merge_result [result_json m; F] = Ok m.
Proof.
  intros HD HF.
  destruct (mergeable_loadable _ HD) as [ED LD].
  destruct (mergeable_loadable _ HF) as [EF LF].
  pose proof (absorb_wf _ _ LD wf_empty) as W0.
  assert (Hdocs : forallb mergeable [D; F] = true)
    by (simpl; rewrite HD, HF; reflexivity).
  destruct (merge_result_spec _ Hdocs) as (m & E & W & _).
  exists m. split; [assumption|].
  assert (E1 : finish (absorb (doc_items F) (absorb (doc_items D) [])) = Ok m).
  { rewrite merge_result_finish in E. simpl foldM in E. unfold merge_doc in E.
    rewrite ED, EF in E. cbn [bind] in E.
    rewrite merge_items_ok in E by auto using wf_empty. cbn [bind] in E.
    rewrite merge_items_ok in E by assumption. exact E. }
  rewrite merge_result_finish. simpl foldM. unfold merge_doc.
  rewrite result_json_items, EF. cbn [bind py_items].
  rewrite reload by assumption. cbn [bind].
  rewrite merge_items_ok by assumption. cbn [bind].
  apply (absorb_finish_idem _ (absorb (doc_items D) [])); assumption.
Qed.

(** * The claims of the specification *)

Lemma out_get_result (m : result_dict) (k : string) :
  out_get (result_json m) k = option_map slot_json (str_get k m).
Proof. unfold out_get, result_json. apply (str_get_map slot_json). Qed.

Lemma out_get_lists (h : list (string * list json)) (k : string) :
  out_get (lists_json h) k = option_map JArr (str_get k h).
Proof. unfold out_get, lists_json. apply (str_get_map JArr). Qed.

Lemma has_key_result (docs : list json) (m : result_dict) (k : string) :
  keys m = uniq_by String.eqb (fun k => k) [] (map fst (all_items docs)) ->
  has_key docs k = match str_get k m with Some _ => true | None => false end.
Proof.
  intros K. rewrite <- str_get_mem, K. unfold has_key.
  pose proof (kmem_uniq (fun x => x) k [] (map fst (all_items docs))) as E.
  simpl in E. rewrite !map_id in E. symmetry. exact E.
Qed.

(** C1. Merge is idempotent with respect to re-applying a fragment: for a
    document [D] and a fragment [F] the merge accepts (every valid settings
    document is one, [valid_doc_mergeable]), merging [D] with [F] returns a
    document [M], and merging [M] with [F] again returns [M] itself: no hook
    command and no permission string is duplicated. *)
Theorem merge_idempotent (D F : json) :
  mergeable D = true -> mergeable F = true ->
  exists M, merge_settings [D; F] = Ok M /\ merge_settings [M; F] = Ok M.
Proof.
  intros HD HF. destruct (merge_twice D F HD HF) as (m & E1 & E2).
  exists (result_json m). unfold merge_settings. rewrite E1, E2. auto.
Qed.

Lemma merge_idempotent_witness :
  valid_doc doc_D = true /\ valid_doc doc_F = true
  /\ exists M, merge_settings [doc_D; doc_F] = Ok M
               /\ merge_settings [M; doc_F] = Ok M.
Proof.
  split; [reflexivity|]. split; [reflexivity|].
  apply (merge_idempotent doc_D doc_F); reflexivity.
Defined.

Lemma mergeable_opaque_key (k : string) (v : json)
    (its1 its2 : list (string * json)) :
  k <> "hooks" -> k <> "permissions" ->
  mergeable (JObj (its1 ++ (k, v) :: its2)) = mergeable (JObj (its1 ++ its2)).
Proof.
  intros N1 N2. apply String.eqb_neq in N1, N2.
  unfold mergeable, doc_items. cbn [py_items from_ok is_ok andb].
  rewrite !forallb_app. cbn [forallb].
  assert (ok_item (k, v) = true) as ->
    by (unfold ok_item; cbn [fst snd]; rewrite N1, N2; reflexivity).
  reflexivity.
Qed.

(** C7. Every top-level key other than [hooks] and [permissions] is an opaque
    passthrough: the merged document holds, unmodified, the value of the last
    item with that key over the documents in merge order (last writer wins),
    and putting such a key, with any value, into any input document never
    changes whether the merge raises. *)
Theorem passthrough_last_writer_wins (docs : list json) (k : string) :
  forallb mergeable docs = true -> k <> "hooks" -> k <> "permissions" ->
  (exists out, merge_settings docs = Ok out
               /\ out_get out k = last_value k (all_items docs))
  /\ (forall pre post its1 its2 v,
        is_ok (merge_settings (pre ++ JObj (its1 ++ (k, v) :: its2) :: post))
        = is_ok (merge_settings (pre ++ JObj (its1 ++ its2) :: post))).
Proof.
  intros H N1 N2. split.
  - destruct (merge_result_spec _ H) as (m & E & W & _ & _ & _ & O).
    exists (result_json m). unfold merge_settings. rewrite E.
    split; [reflexivity|].
    rewrite out_get_result, O by assumption.
    destruct (last_value k (all_items docs)); reflexivity.
  - intros pre post its1 its2 v. rewrite !merge_settings_is_ok.
    rewrite !forallb_app. cbn [forallb].
    rewrite mergeable_opaque_key by assumption. reflexivity.
Qed.

Lemma passthrough_last_writer_wins_witness :
  (exists out, merge_settings [doc_theme_dark; doc_theme_light; JObj []] = Ok out
     /\ out_get out "theme"
        = last_value "theme" (all_items [doc_theme_dark; doc_theme_light; JObj []]))
  /\ last_value "theme" (all_items [doc_theme_dark; doc_theme_light; JObj []])
     = Some (JArr [JStr "light"; JAtom (AInt 7)]).
Proof.
  split; [|reflexivity].
  apply (passthrough_last_writer_wins
           [doc_theme_dark; doc_theme_light; JObj []] "theme");
    [reflexivity | discriminate | discriminate].
Defined.

Lemma distinct_NoDup {K : Type} (eqb : K -> K -> bool) `{!KeyEq eqb}
    (l : list K) :
  distinct eqb l = true -> NoDup l.
Proof.
  induction l as [|x l IH]; simpl; intros H; constructor.
  - apply andb_prop in H. destruct H as [H _]. apply negb_true_iff in H.
    intros Hin. rewrite (kmem_In x l Hin) in H. discriminate.
  - apply andb_prop in H. apply IH, H.
Qed.

Lemma NoDup_map_JAtom (l : list atom) : NoDup l -> NoDup (map JAtom l).
Proof.
  induction 1 as [|a l Hin Hl IH]; simpl; constructor; [|assumption].
  rewrite in_map_iff. intros (b & E & Hb). injection E as ->. contradiction.
Qed.

Lemma merged_permissions_NoDup (l : list json) : NoDup (merged_permissions l).
Proof.
  unfold merged_permissions. apply NoDup_map_JAtom.
  - apply (distinct_NoDup atom_eqb).
    pose proof (distinct_uniq (fun a : atom => a) [] (map atom_of l) eq_refl) as D.
    simpl in D. rewrite map_id in D. exact D.
Qed.

Lemma gather_absent {K V : Type} (eqb : K -> K -> bool) `{!KeyEq eqb}
    (k : K) (its : list (K * list V)) :
  kmem eqb k (map fst its) = false -> gather eqb k its = [].
Proof.
  induction its as [|[k0 xs] its IH]; intros H; [reflexivity|].
  simpl in H. apply orb_false_elim in H. destruct H as [H1 H2].
  rewrite gather_cons, keq_sym, H1. apply IH, H2.
Qed.

(** C4. In the merged document, each permission list holds what arrived
    under its kind over the documents in merge order, the first occurrence of
    every string kept and the order preserved, so it has no duplicates;
    [permissions] is left out exactly when no input document has the key;
    when present it has exactly the three lists [allow], [deny] and [ask],
    in this order, a kind no input mentions being the empty list.  Merging
    allow lists [A, B] and [B, C] gives [A, B, C]. *)
Theorem permissions_merged (docs : list json) :
  forallb mergeable docs = true ->
  (exists out, merge_settings docs = Ok out
     /\ (out_get out "permissions" = None <-> has_key docs "permissions" = false)
     /\ (forall pv, out_get out "permissions" = Some pv ->
          pv = JObj [("allow", JArr (merged_permissions (arrived_permissions docs "allow")));
                     ("deny", JArr (merged_permissions (arrived_permissions docs "deny")));
                     ("ask", JArr (merged_permissions (arrived_permissions docs "ask")))])
     /\ (forall kind, NoDup (merged_permissions (arrived_permissions docs kind)))
     /\ (forall kind,
          kmem String.eqb kind (map fst (perm_items (all_items docs))) = false ->
          merged_permissions (arrived_permissions docs kind) = []))
  /\ merge_settings [JObj []; allow_AB; allow_BC]
     = Ok (JObj [("permissions",
                  JObj [("allow", JArr [JStr "A"; JStr "B"; JStr "C"]);
                        ("deny", JArr []); ("ask", JArr [])])]).
Proof.
  intros H. split; [|reflexivity].
  destruct (merge_result_spec _ H) as (m & E & W & K & _ & P & _).
  exists (result_json m). unfold merge_settings. rewrite E.
  split; [reflexivity|]. rewrite out_get_result.
  rewrite (has_key_result docs m "permissions" K).
  repeat split.
  - destruct (str_get "permissions" m); [discriminate | reflexivity].
  - destruct (str_get "permissions" m); [discriminate | reflexivity].
  - intros pv Hpv. destruct (str_get "permissions" m) as [s|] eqn:Es;
      [|discriminate].
    destruct (perms_slot _ _ W Es) as [-> _]. rewrite P in Hpv.
    injection Hpv as <-. reflexivity.
  - intros kind. apply merged_permissions_NoDup.
  - intros kind Hk. unfold arrived_permissions.
    rewrite (gather_absent String.eqb _ _ Hk). reflexivity.
Qed.

Lemma permissions_merged_witness :
  exists out, merge_settings [doc_D; doc_F] = Ok out
    /\ out_get out "permissions"
       = Some (JObj [("allow", JArr [JStr "Skill(a)"; JStr "Skill(b)"]);
                     ("deny", JArr []); ("ask", JArr [])]).
Proof.
  destruct (permissions_merged [doc_D; doc_F] eq_refl)
    as [(out & E & _ & Hp & _) _].
  exists out. split; [exact E|].
  destruct (out_get out "permissions") as [pv|] eqn:G.
  - rewrite (Hp pv eq_refl). reflexivity.
  - exfalso. vm_compute in E. injection E as <-. discriminate.
Defined.

(** A document whose [hooks] section is empty keeps it through the merge. *)
Lemma empty_hooks_are_kept :
  merge_settings [JObj []; empty_hooks_doc] = Ok (JObj [("hooks", JObj [])])
  /\ merge_settings [empty_hook_type_doc]
     = Ok (JObj [("hooks", JObj [("PreToolUse", JArr [])])])
  /\ ~ omits_empty_hooks [JObj []; empty_hooks_doc]
  /\ ~ omits_empty_hooks [empty_hook_type_doc].
Proof.
  split; [reflexivity|]. split; [reflexivity|].
  split; intros H; specialize (H _ eq_refl eq_refl); discriminate.
Qed.

Lemma all_items_empty (n : nat) : all_items (repeat (JObj []) n) = [].
Proof. induction n as [|n IH]; simpl; [reflexivity | exact IH]. Qed.

Lemma mergeable_empty (n : nat) : forallb mergeable (repeat (JObj []) n) = true.
Proof. induction n as [|n IH]; simpl; [reflexivity | exact IH]. Qed.

Lemma str_get_grouped (k : string) (its : list (string * list json)) :
  str_get k (grouped String.eqb its)
  = if kmem String.eqb k (map fst its)
    then Some (gather String.eqb k its) else None.
Proof.
  destruct (str_get k (grouped String.eqb its)) as [l|] eqn:E.
  - pose proof (str_get_In _ _ _ E) as Hin. unfold grouped in Hin.
    apply in_map_iff in Hin. destruct Hin as (k' & Hk' & Hin).
    injection Hk' as -> <-.
    pose proof (kmem_uniq (fun x => x) k [] (map fst its)) as U.
    simpl in U. rewrite !map_id in U. rewrite <- U, (kmem_In _ _ Hin).
    reflexivity.
  - apply dict_get_None in E. unfold grouped, keys in E.
    rewrite map_map in E. simpl in E. rewrite map_id in E.
    pose proof (kmem_uniq (fun x => x) k [] (map fst its)) as U.
    simpl in U. rewrite !map_id in U. rewrite <- U, E. reflexivity.
Qed.

Lemma str_get_map_values {A B : Type} (f : A -> B) (k : string)
    (d : list (string * A)) :
  str_get k (map_values f d) = option_map f (str_get k d).
Proof. apply (str_get_map f). Qed.

(** The groups of every hook type of the merged document. *)
Lemma merged_hook_groups (docs : list json) :
  forallb mergeable docs = true ->
  exists out, merge_settings docs = Ok out
    /\ (out_get out "hooks" = None <-> has_key docs "hooks" = false)
    /\ forall ht,
         hook_type_groups out ht
         = if kmem String.eqb ht (map fst (hook_items (all_items docs)))
           then Some (JArr (merged_groups (arrived_groups docs ht)))
           else None.
Proof.
  intros H. destruct (merge_result_spec _ H) as (m & E & W & K & Hm & _).
  exists (result_json m). unfold merge_settings. rewrite E.
  split; [reflexivity|]. unfold hook_type_groups. rewrite out_get_result.
  rewrite (has_key_result docs m "hooks" K).
  destruct (str_get "hooks" m) as [s|] eqn:Es; simpl.
  - split; [split; discriminate|]. intros ht.
    destruct (hooks_slot _ _ W Es) as [-> _]. simpl.
    rewrite out_get_lists, Hm. unfold merged_hooks.
    rewrite str_get_map_values, str_get_grouped.
    destruct (kmem String.eqb ht (map fst (hook_items (all_items docs))));
      reflexivity.
  - split; [split; reflexivity|]. intros ht.
    pose proof (has_key_result docs m "hooks" K) as Hk. rewrite Es in Hk.
    unfold has_key in Hk. unfold hook_items.
    rewrite (section_items_absent "hooks" (all_items docs) Hk). reflexivity.
Qed.

(** C5, as the code has it.  The [hooks] key is absent from the merged
    document exactly when no input document has it, and a hook type is
    present exactly when some input lists it: an input [hooks] section that
    is empty, or a hook type with an empty list, is emitted empty rather than
    left out.  Merging documents that are all empty returns the empty
    document, with neither [hooks] nor [permissions]. *)
Theorem hooks_present_as_in_inputs (docs : list json) :
  forallb mergeable docs = true ->
  (exists out, merge_settings docs = Ok out
     /\ (out_get out "hooks" = None <-> has_key docs "hooks" = false)
     /\ (forall ht, hook_type_groups out ht = None
                    <-> kmem String.eqb ht
                          (map fst (hook_items (all_items docs))) = false))
  /\ (forall n, merge_settings (repeat (JObj []) n) = Ok (JObj [])).
Proof.
  intros H. split.
  - destruct (merged_hook_groups _ H) as (out & E & Hk & Hg).
    exists out. split; [exact E|]. split; [exact Hk|].
    intros ht. rewrite Hg.
    destruct (kmem String.eqb ht (map fst (hook_items (all_items docs))));
      split; congruence.
  - intros n.
    destruct (merge_result_spec _ (mergeable_empty n)) as (m & E & _ & K & _).
    rewrite all_items_empty in K. destruct m; [|discriminate].
    unfold merge_settings. rewrite E. reflexivity.
Qed.

Lemma hooks_present_as_in_inputs_witness :
  exists out, merge_settings [doc_theme_dark; doc_F] = Ok out
    /\ out_get out "hooks" <> None
    /\ hook_type_groups out "PostToolUse" = None.
Proof.
  destruct (hooks_present_as_in_inputs [doc_theme_dark; doc_F] eq_refl)
    as [(out & E & Hk & Hg) _].
  exists out. split; [exact E|]. split.
  - intros Hn. apply Hk in Hn. discriminate.
  - apply Hg. reflexivity.
Defined.

(** ** First occurrences, once more *)

Lemma filter_none {A : Type} (p : A -> bool) (l : list A) :
  (forall x, In x l -> p x = false) -> filter p l = [].
Proof.
  induction l as [|x l IH]; simpl; intros H; [reflexivity|].
  rewrite (H x) by auto. apply IH. auto.
Qed.

Section FirstKept.
Context {K : Type} {eqb : K -> K -> bool} {KE : KeyEq eqb}.
Context {A : Type} (key : A -> K).

Lemma uniq_by_subseq (seen : list K) (l : list A) :
  subseq (uniq_by eqb key seen l) l.
Proof.
  revert seen; induction l as [|x l IH]; intros seen; simpl.
  - constructor.
  - destruct (kmem eqb (key x) seen); constructor; apply IH.
Qed.

(** The first element with a key is kept. *)
Lemma uniq_by_first (pre post : list A) (x : A) :
  kmem eqb (key x) (map key pre) = false ->
  In x (uniq_by eqb key [] (pre ++ x :: post)).
Proof.
  intros H. rewrite uniq_by_app. apply in_or_app. right. simpl.
  pose proof (kmem_uniq key (key x) [] pre) as E. simpl in E.
  rewrite E, H. left. reflexivity.
Qed.

(** Every key that occurs is represented. *)
Lemma uniq_by_covers (l : list A) (x : A) :
  In x l -> kmem eqb (key x) (map key (uniq_by eqb key [] l)) = true.
Proof.
  intros H. pose proof (kmem_uniq key (key x) [] l) as E. simpl in E.
  rewrite E. apply kmem_map_In, H.
Qed.

Lemma uniq_by_distinct (l : list A) :
  distinct eqb (map key (uniq_by eqb key [] l)) = true.
Proof. apply (distinct_uniq key [] l). reflexivity. Qed.

(** Among elements with distinct keys, at most one has a key equal to [k]. *)
Lemma distinct_at_most_one (k : K) (l : list A) :
  distinct eqb (map key l) = true ->
  List.length (filter (fun x => eqb (key x) k) l) <= 1.
Proof.
  induction l as [|x l IH]; simpl; intros H; [lia|].
  apply andb_prop in H. destruct H as [Hx H]. apply negb_true_iff in Hx.
  destruct (eqb (key x) k) eqn:E; [|auto].
  assert (filter (fun y => eqb (key y) k) l = []) as ->; [|simpl; lia].
  apply filter_none. intros y Hy.
  destruct (eqb (key y) k) eqn:F; [|reflexivity].
  assert (eqb (key x) (key y) = true).
  { apply (keq_trans _ k); [exact E | rewrite keq_sym; exact F]. }
  pose proof (kmem_false_In _ _ _ Hx (in_map key _ _ Hy)). congruence.
Qed.
End FirstKept.

(** ** Matcher groups of the merged document *)

Lemma group_matcher_json (g : atom * list json) :
  group_matcher (group_json g) = fst g.
Proof. unfold group_matcher. rewrite parse_group_json. reflexivity. Qed.

Lemma group_hooks_json (g : atom * list json) :
  group_hooks (group_json g) = snd g.
Proof. unfold group_hooks. rewrite parse_group_json. reflexivity. Qed.

Lemma gather_groups (m : atom) (entries : list json) :
  gather atom_eqb m (map (fun e => (group_matcher e, group_hooks e)) entries)
  = arrived_hooks entries m.
Proof.
  unfold gather, arrived_hooks.
  induction entries as [|e entries IH]; simpl; [reflexivity|].
  destruct (atom_eqb (group_matcher e) m); simpl; rewrite IH; reflexivity.
Qed.

Lemma merged_groups_matchers (entries : list json) :
  map group_matcher (merged_groups entries)
  = uniq_by atom_eqb (fun m => m) [] (map group_matcher entries).
Proof.
  unfold merged_groups, grouped. rewrite !map_map.
  rewrite (map_ext _ (fun m : atom => m))
    by (intros m; apply group_matcher_json).
  rewrite map_id. reflexivity.
Qed.

Lemma merged_groups_In (entries : list json) (g : json) :
  In g (merged_groups entries) ->
  g = group_json (group_matcher g, group_hooks g)
  /\ group_hooks g
     = uniq_by atom_eqb hook_command []
         (arrived_hooks entries (group_matcher g)).
Proof.
  unfold merged_groups, grouped. rewrite map_map, in_map_iff.
  intros (m & <- & _). cbn [fst snd].
  rewrite group_matcher_json, group_hooks_json. cbn [fst snd].
  rewrite gather_groups. auto.
Qed.

Lemma merged_groups_distinct (entries : list json) :
  distinct atom_eqb (map group_matcher (merged_groups entries)) = true.
Proof.
  rewrite merged_groups_matchers.
  pose proof (uniq_by_distinct (fun m : atom => m) (map group_matcher entries)) as D.
  rewrite map_id in D. exact D.
Qed.

(** C2. In the merged document every hook type has one matcher group per
    distinct matcher; the groups are in the order in which their matchers
    first appear among the groups that arrived under the hook type over the
    documents in merge order, and a group holds the entries that arrived
    under its matcher in arrival order (the first of every command).  Two
    fragments with a hook on matcher [Bash], commands [run-a] and [run-b],
    give one group for [Bash] with the entries [run-a, run-b]. *)
Theorem matcher_groups_merged (docs : list json) :
  forallb mergeable docs = true ->
  (exists out, merge_settings docs = Ok out
     /\ forall ht v, hook_type_groups out ht = Some v ->
          exists gs, v = JArr gs
            /\ distinct atom_eqb (map group_matcher gs) = true
            /\ map group_matcher gs
               = uniq_by atom_eqb (fun m => m) []
                   (map group_matcher (arrived_groups docs ht))
            /\ forall g, In g gs ->
                 g = group_json (group_matcher g, group_hooks g)
                 /\ group_hooks g
                    = uniq_by atom_eqb hook_command []
                        (arrived_hooks (arrived_groups docs ht)
                                       (group_matcher g))
                 /\ subseq (group_hooks g)
                      (arrived_hooks (arrived_groups docs ht)
                                     (group_matcher g)))
  /\ merge_settings [JObj []; hook_fragment "Bash" "run-a" "A";
                     hook_fragment "Bash" "run-b" "B"]
     = Ok (JObj [("hooks", JObj [("PreToolUse",
             JArr [JObj [("matcher", JStr "Bash");
                         ("hooks", JArr [hook_entry "run-a" "A";
                                         hook_entry "run-b" "B"])]])])]).
Proof.
  intros H. split; [|reflexivity].
  destruct (merged_hook_groups _ H) as (out & E & _ & Hg).
  exists out. split; [exact E|]. intros ht v Hv. rewrite Hg in Hv.
  destruct (kmem String.eqb ht (map fst (hook_items (all_items docs))));
    [|discriminate].
  injection Hv as <-. eexists. split; [reflexivity|].
  split; [apply merged_groups_distinct|].
  split; [apply merged_groups_matchers|].
  intros g Hin. destruct (merged_groups_In _ _ Hin) as [Hj Hh].
  split; [exact Hj|]. split; [exact Hh|].
  rewrite Hh. apply uniq_by_subseq.
Qed.

Lemma matcher_groups_merged_witness :
  exists out, merge_settings two_matchers = Ok out
    /\ exists gs, hook_type_groups out "PreToolUse" = Some (JArr gs)
         /\ map group_matcher gs = [AStr "Bash"; AStr "Edit"].
Proof.
  destruct (matcher_groups_merged two_matchers eq_refl)
    as [(out & E & Hg) _].
  exists out. split; [exact E|].
  destruct (hook_type_groups out "PreToolUse") as [v|] eqn:G.
  - destruct (Hg _ _ G) as (gs & -> & _ & Hm & _).
    exists gs. split; [reflexivity|]. rewrite Hm. reflexivity.
  - exfalso. vm_compute in E. injection E as <-. discriminate.
Defined.

(** C3. In every matcher group of the merged document the hook entries are
    unique by [command]: of the entries that arrived under the matcher, the
    first with each command is kept with all its fields, later ones with the
    same command are dropped whatever their [statusMessage], and the kept
    ones stay in arrival order.  Two fragments with the same command and
    different status messages give one entry, with the first message. *)
Theorem hook_entries_deduplicated (docs : list json) :
  forallb mergeable docs = true ->
  (exists out, merge_settings docs = Ok out
     /\ forall ht gs g,
          hook_type_groups out ht = Some (JArr gs) -> In g gs ->
          let arrived :=
            arrived_hooks (arrived_groups docs ht) (group_matcher g) in
          group_hooks g = uniq_by atom_eqb hook_command [] arrived
          /\ distinct atom_eqb (map hook_command (group_hooks g)) = true
          /\ subseq (group_hooks g) arrived
          /\ (forall pre x post,
                arrived = pre ++ x :: post ->
                kmem atom_eqb (hook_command x) (map hook_command pre) = false ->
                In x (group_hooks g))
          /\ (forall x, In x arrived ->
                kmem atom_eqb (hook_command x)
                     (map hook_command (group_hooks g)) = true))
  /\ merge_settings
       [JObj []; hook_fragment "Bash" "python3 .claude/hooks/x.py" "first";
        hook_fragment "Bash" "python3 .claude/hooks/x.py" "second"]
     = Ok (JObj [("hooks", JObj [("PreToolUse",
             JArr [JObj [("matcher", JStr "Bash");
                         ("hooks",
                          JArr [hook_entry "python3 .claude/hooks/x.py"
                                           "first"])]])])]).
Proof.
  intros H. split; [|reflexivity].
  destruct (merged_hook_groups _ H) as (out & E & _ & Hg).
  exists out. split; [exact E|]. intros ht gs g Hv Hin arrived.
  rewrite Hg in Hv.
  destruct (kmem String.eqb ht (map fst (hook_items (all_items docs))));
    [|discriminate].
  injection Hv as <-. destruct (merged_groups_In _ _ Hin) as [_ Hh].
  fold arrived in Hh. rewrite Hh.
  split; [reflexivity|].
  split; [apply uniq_by_distinct|].
  split; [apply uniq_by_subseq|].
  split.
  - intros pre x post -> Hk. apply uniq_by_first, Hk.
  - intros x Hx. apply uniq_by_covers, Hx.
Qed.

Lemma hook_entries_deduplicated_witness :
  exists out, merge_settings [doc_D; doc_F] = Ok out
    /\ exists g, hook_type_groups out "PreToolUse" = Some (JArr [g])
         /\ group_hooks g = [hook_entry "run-a" "A"; hook_entry "run-b" "B"].
Proof.
  destruct (hook_entries_deduplicated [doc_D; doc_F] eq_refl)
    as [(out & E & Hg) _].
  exists out. split; [exact E|].
  pose proof E as E'. vm_compute in E'. injection E' as <-.
  eexists. split; [reflexivity|].
  destruct (Hg "PreToolUse" _ _ eq_refl (or_introl eq_refl)) as (Hh & _).
  rewrite Hh. reflexivity.
Defined.

(** ** Entries without a command *)

Lemma blank_hook_key (hook : json) :
  blank_command hook = true -> hook_key hook = Ok (AStr "", hook).
Proof.
  unfold blank_command, hook_key. destruct hook as [a|l|kv]; try discriminate.
  simpl. destruct (str_get "command" kv) as [[[| | |s]| |]|]; simpl;
    try discriminate; [|reflexivity].
  intros H. apply String.eqb_eq in H. subst. reflexivity.
Qed.

Lemma blank_command_key (hook : json) :
  ok_hook hook = true ->
  atom_eqb (hook_command hook) (AStr "") = blank_command hook.
Proof.
  unfold ok_hook, hook_command, blank_command, hook_key.
  destruct hook as [a|l|kv]; try discriminate. simpl.
  destruct (str_get "command" kv) as [[[| | |s]| |]|]; simpl;
    try discriminate; reflexivity.
Qed.

Lemma arrived_hooks_ok (docs : list json) (ht : string) (m : atom) (x : json) :
  forallb mergeable docs = true ->
  In x (arrived_hooks (arrived_groups docs ht) m) -> ok_hook x = true.
Proof.
  intros H Hx. destruct (mergeable_items _ H) as [_ H2].
  unfold arrived_hooks in Hx. apply in_flat_map in Hx.
  destruct Hx as (e & He & Hx). apply filter_In in He. destruct He as [He _].
  destruct (In_gather _ _ _ _ He) as (it & Hit & Heit).
  pose proof (hook_items_ok _ _ H2 Hit) as Hok.
  rewrite forallb_forall in Hok. specialize (Hok _ Heit).
  unfold ok_group in Hok. apply andb_prop in Hok. destruct Hok as [_ Hok].
  rewrite forallb_forall in Hok. auto.
Qed.

Lemma existsb_none {A : Type} (p : A -> bool) (l : list A) :
  (forall x, In x l -> p x = false) -> existsb p l = false.
Proof.
  induction l as [|x l IH]; simpl; intros H; [reflexivity|].
  rewrite (H x) by auto. apply IH. auto.
Qed.

(** C10. A hook entry without a [command] is deduplicated under the key
    [""], the key of an entry whose command is the empty string: in every
    matcher group of the merged document at most one entry has a missing or
    empty command, and it is the first such entry that arrived under the
    matcher.  An entry without a command and an entry with the command [""]
    are duplicates of each other, the first kept, in either order. *)
Theorem blank_commands_deduplicated (docs : list json) :
  forallb mergeable docs = true ->
  (forall hook, blank_command hook = true -> hook_key hook = Ok (AStr "", hook))
  /\ (exists out, merge_settings docs = Ok out
        /\ forall ht gs g,
             hook_type_groups out ht = Some (JArr gs) -> In g gs ->
             List.length (filter blank_command (group_hooks g)) <= 1
             /\ forall pre x post,
                  arrived_hooks (arrived_groups docs ht) (group_matcher g)
                  = pre ++ x :: post ->
                  blank_command x = true ->
                  forallb (fun y => negb (blank_command y)) pre = true ->
                  In x (group_hooks g))
  /\ dedupe_hooks [no_command; empty_command] = Ok [no_command]
  /\ dedupe_hooks [empty_command; no_command] = Ok [empty_command]
  /\ merge_settings [blank_fragment no_command; blank_fragment empty_command]
     = Ok (blank_fragment no_command)
  /\ merge_settings [blank_fragment empty_command; blank_fragment no_command]
     = Ok (blank_fragment empty_command).
Proof.
  intros H. split; [exact blank_hook_key|].
  split; [|repeat split; reflexivity].
  destruct (merged_hook_groups _ H) as (out & E & _ & Hg).
  exists out. split; [exact E|]. intros ht gs g Hv Hin.
  rewrite Hg in Hv.
  destruct (kmem String.eqb ht (map fst (hook_items (all_items docs))));
    [|discriminate].
  injection Hv as <-. destruct (merged_groups_In _ _ Hin) as [_ Hh].
  set (arrived := arrived_hooks (arrived_groups docs ht) (group_matcher g)) in *.
  assert (Hok : forall x, In x arrived -> ok_hook x = true)
    by (intros x Hx; eapply arrived_hooks_ok; eassumption).
  split.
  - rewrite (filter_ext_in blank_command
               (fun x => atom_eqb (hook_command x) (AStr ""))).
    + apply distinct_at_most_one. rewrite Hh. apply uniq_by_distinct.
    + intros x Hx. symmetry. apply blank_command_key, Hok.
      rewrite Hh in Hx. eapply uniq_by_incl, Hx.
  - intros pre x post Ha Hb Hpre. rewrite Hh, Ha.
    apply uniq_by_first. unfold kmem. apply existsb_none.
    intros k Hk. apply in_map_iff in Hk. destruct Hk as (y & <- & Hy).
    assert (Hx : atom_eqb (hook_command x) (AStr "") = true).
    { rewrite blank_command_key; [exact Hb|].
      apply Hok. rewrite Ha. apply in_or_app. right. left. reflexivity. }
    assert (Hyb : atom_eqb (hook_command y) (AStr "") = false).
    { rewrite blank_command_key.
      - rewrite forallb_forall in Hpre. apply negb_true_iff, Hpre, Hy.
      - apply Hok. rewrite Ha. apply in_or_app. left. exact Hy. }
    destruct (atom_eqb (hook_command x) (hook_command y)) eqn:F;
      [|reflexivity].
    rewrite atom_eqb_sym in F.
    rewrite (atom_eqb_trans _ _ _ F Hx) in Hyb. discriminate.
Qed.

Lemma blank_commands_deduplicated_witness :
  exists out,
    merge_settings [blank_fragment (hook_entry "fmt" "F");
                    blank_fragment no_command;
                    blank_fragment empty_command] = Ok out
    /\ exists g, hook_type_groups out "PostToolUse" = Some (JArr [g])
         /\ group_hooks g = [hook_entry "fmt" "F"; no_command]
         /\ List.length (filter blank_command (group_hooks g)) <= 1.
Proof.
  destruct (blank_commands_deduplicated
              [blank_fragment (hook_entry "fmt" "F");
               blank_fragment no_command;
               blank_fragment empty_command] eq_refl)
    as (_ & (out & E & Hg) & _).
  exists out. split; [exact E|].
  pose proof E as E'. vm_compute in E'. injection E' as <-.
  eexists. split; [reflexivity|]. split; [reflexivity|].
  apply (Hg "PostToolUse" _ _ eq_refl (or_introl eq_refl)).
Defined.

(** ** Canonical documents *)

Lemma canonical_group_shape (g : json) :
  canonical_group g = true ->
  exists m es, g = JObj [("matcher", JAtom m); ("hooks", JArr es)]
    /\ forallb ok_hook es = true
    /\ distinct atom_eqb (map hook_command es) = true.
Proof.
  unfold canonical_group.
  destruct g as [a|l|[|[k1 [m|?|?]] [|[k2 [?|es|?]] [|? ?]]]];
    try discriminate.
  intros H. apply andb_prop in H. destruct H as [H H4].
  apply andb_prop in H. destruct H as [H H3].
  apply andb_prop in H. destruct H as [H1 H2].
  apply String.eqb_eq in H1, H2. subst. eauto.
Qed.

Lemma canonical_group_ok (g : json) :
  canonical_group g = true -> ok_group g = true.
Proof.
  intros H. destruct (canonical_group_shape _ H) as (m & es & -> & H1 & _).
  change (JObj [("matcher", JAtom m); ("hooks", JArr es)])
    with (group_json (m, es)).
  unfold ok_group. rewrite parse_group_json, group_hooks_json. exact H1.
Qed.

Lemma canonical_group_fixed (g : json) :
  canonical_group g = true ->
  group_json (group_matcher g,
              uniq_by atom_eqb hook_command [] (group_hooks g)) = g.
Proof.
  intros H. destruct (canonical_group_shape _ H) as (m & es & -> & _ & H2).
  change (JObj [("matcher", JAtom m); ("hooks", JArr es)])
    with (group_json (m, es)).
  rewrite group_matcher_json, group_hooks_json. cbn [fst snd].
  rewrite uniq_by_fixed by exact H2. reflexivity.
Qed.

Lemma regroup_canonical (gs : list json) :
  canonical_groups (JArr gs) = true -> regroup gs = Ok gs.
Proof.
  unfold canonical_groups. intros H. apply andb_prop in H.
  destruct H as [H1 H2].
  rewrite regroup_pure
    by (revert H1; apply forallb_impl; intros; apply canonical_group_ok;
        assumption).
  f_equal. unfold merged_groups. rewrite <- accum_grouped.
  rewrite accum_fresh.
  2:{ simpl. unfold keys. rewrite map_map. exact H2. }
  simpl. rewrite map_map. rewrite <- (map_id gs) at 2.
  apply map_ext_in. intros g Hg. cbn [fst snd].
  apply canonical_group_fixed. rewrite forallb_forall in H1. auto.
Qed.

Lemma fromkeys_canonical (l : list json) :
  canonical_list (JArr l) = true -> list_fromkeys l = Ok l.
Proof.
  unfold canonical_list. intros H. apply andb_prop in H.
  destruct H as [H1 H2]. rewrite list_fromkeys_pure by assumption.
  f_equal. unfold merged_permissions.
  rewrite uniq_by_fixed by (simpl; rewrite map_id; exact H2).
  rewrite map_map. rewrite <- (map_id l) at 2.
  apply map_ext_in. intros x Hx. rewrite forallb_forall in H1.
  specialize (H1 x Hx). destruct x; try discriminate. reflexivity.
Qed.

Lemma on_values_fixed {K V : Type} (f : list V -> res (list V))
    (d : list (K * list V)) :
  (forall kv, In kv d -> f (snd kv) = Ok (snd kv)) ->
  mapM (on_values f) d = Ok d.
Proof.
  intros H. rewrite (map_values_pure f (fun l => l)) by assumption.
  f_equal. unfold map_values. rewrite <- (map_id d) at 2.
  apply map_ext. intros [k l]. reflexivity.
Qed.

Lemma canonical_hooks_lists (v : json) :
  canonical_hooks v = true ->
  lists_json (item_lists v) = v
  /\ distinct String.eqb (keys (item_lists v)) = true
  /\ (forall kv, In kv (item_lists v) -> regroup (snd kv) = Ok (snd kv)).
Proof.
  unfold canonical_hooks. destruct v as [a|l|hts]; try discriminate.
  intros H. apply andb_prop in H. destruct H as [H1 H2].
  rewrite forallb_forall in H2.
  unfold item_lists, lists_json, doc_items. cbn [py_items from_ok].
  repeat split.
  - f_equal. rewrite map_map. rewrite <- (map_id hts) at 2.
    apply map_ext_in. intros [k x] Hin. specialize (H2 _ Hin).
    cbn [fst snd] in *. destruct x as [?|gs|?]; try discriminate. reflexivity.
  - unfold keys. rewrite map_map. exact H1.
  - intros kv Hkv. apply in_map_iff in Hkv. destruct Hkv as ([k x] & <- & Hin).
    specialize (H2 _ Hin). cbn [fst snd] in *.
    destruct x as [?|gs|?]; try discriminate.
    apply regroup_canonical, H2.
Qed.

Lemma canonical_list_shape (v : json) :
  canonical_list v = true -> exists l, v = JArr l /\ list_fromkeys l = Ok l.
Proof.
  intros H. destruct v as [?|l|?]; try discriminate.
  exists l. split; [reflexivity | apply fromkeys_canonical, H].
Qed.

Lemma canonical_permissions_lists (v : json) :
  canonical_permissions v = true ->
  lists_json (item_lists v) = v
  /\ keys (item_lists v) = perm_kinds
  /\ (forall kv, In kv (item_lists v) -> list_fromkeys (snd kv) = Ok (snd kv)).
Proof.
  unfold canonical_permissions.
  destruct v as [?|?|[|[k1 a] [|[k2 d] [|[k3 s] [|? ?]]]]]; try discriminate.
  intros H. apply andb_prop in H. destruct H as [H H6].
  apply andb_prop in H. destruct H as [H H5].
  apply andb_prop in H. destruct H as [H H4].
  apply andb_prop in H. destruct H as [H H3].
  apply andb_prop in H. destruct H as [H1 H2].
  apply String.eqb_eq in H1, H2, H3. subst.
  destruct (canonical_list_shape _ H4) as (la & -> & Fa).
  destruct (canonical_list_shape _ H5) as (ld & -> & Fd).
  destruct (canonical_list_shape _ H6) as (ls & -> & Fs).
  split; [reflexivity|]. split; [reflexivity|].
  intros kv [<-|[<-|[<-|[]]]]; assumption.
Qed.

Lemma keys_dec (its : list (string * json)) : keys (map dec its) = keys its.
Proof. unfold keys. rewrite map_map. reflexivity. Qed.

Lemma str_get_dec (k : string) (its : list (string * json)) :
  str_get k (map dec its)
  = option_map (fun v => snd (dec (k, v))) (str_get k its).
Proof.
  induction its as [|[k0 v0] its IH]; [reflexivity|].
  change (map dec ((k0, v0) :: its)) with (dec (k0, v0) :: map dec its).
  unfold dec at 1. cbn [fst snd str_get dict_get]. fold (@str_get slot).
  fold (@str_get json).
  destruct (String.eqb_spec k0 k) as [->|N]; [reflexivity | apply IH].
Qed.

Lemma enc_dec (kv : string * json) : canonical_item kv = true -> enc (dec kv) = kv.
Proof.
  destruct kv as [k v]. unfold canonical_item, enc, dec. cbn [fst snd].
  destruct (k =? "hooks").
  { intros H. simpl. rewrite (proj1 (canonical_hooks_lists _ H)). reflexivity. }
  destruct (k =? "permissions"); [|reflexivity].
  intros H. simpl. rewrite (proj1 (canonical_permissions_lists _ H)).
  reflexivity.
Qed.

Lemma dec_slot_ok (kv : string * json) :
  canonical_item kv = true -> slot_ok (dec kv).
Proof.
  destruct kv as [k v]. unfold canonical_item, slot_ok, dec. cbn [fst snd].
  destruct (String.eqb_spec k "hooks") as [->|N1].
  { intros H. split; [reflexivity | apply (canonical_hooks_lists _ H)]. }
  destruct (String.eqb_spec k "permissions") as [->|N2]; [|tauto].
  intros H. split; [reflexivity | apply (canonical_permissions_lists _ H)].
Qed.

Lemma canonical_decoded (its : list (string * json)) :
  canonical (JObj its) = true ->
  wf_result (map dec its) /\ map enc (map dec its) = its
  /\ finish (map dec its) = Ok (map dec its).
Proof.
  unfold canonical. intros H. apply andb_prop in H. destruct H as [H1 H2].
  rewrite forallb_forall in H2.
  assert (W : wf_result (map dec its)).
  { split; [rewrite keys_dec; exact H1|].
    apply Forall_forall. intros x Hx. apply in_map_iff in Hx.
    destruct Hx as (kv & <- & Hkv). apply dec_slot_ok, H2, Hkv. }
  split; [exact W|]. split.
  { rewrite map_map. rewrite <- (map_id its) at 2.
    apply map_ext_in. intros kv Hkv. apply enc_dec, H2, Hkv. }
  assert (Hh : mapM (on_values regroup) (hooks_of (map dec its))
               = Ok (hooks_of (map dec its))).
  { apply on_values_fixed. unfold hooks_of. rewrite str_get_dec.
    destruct (str_get "hooks" its) as [v|] eqn:E; [|intros ? []].
    pose proof (H2 _ (str_get_In _ _ _ E)) as Hc.
    unfold canonical_item in Hc. simpl in Hc. simpl.
    apply (canonical_hooks_lists _ Hc). }
  assert (Hp : mapM (on_values list_fromkeys) (permissions_of (map dec its))
               = Ok (permissions_of (map dec its))).
  { unfold permissions_of. rewrite str_get_dec.
    destruct (str_get "permissions" its) as [v|] eqn:E; [|reflexivity].
    pose proof (H2 _ (str_get_In _ _ _ E)) as Hc.
    unfold canonical_item in Hc. simpl in Hc. simpl.
    apply on_values_fixed. apply (canonical_permissions_lists _ Hc). }
  destruct (finish_spec _ _ _ W Hh Hp) as (m & E & Wm & K & Hm & Pm & O).
  rewrite E. f_equal. apply result_ext; assumption.
Qed.

(** ** Errors *)

Lemma loadable_docs (docs : list json) :
  forallb loadable docs = true ->
  foldM merge_doc docs [] = Ok (absorb (all_items docs) [])
  /\ wf_result (absorb (all_items docs) []).
Proof.
  intros H.
  assert (H12 : forallb (fun d => is_ok (py_items d)) docs = true
                /\ forallb loadable_item (all_items docs) = true).
  { induction docs as [|d docs IH]; [split; reflexivity|].
    simpl in H. apply andb_prop in H. destruct H as [Hd H].
    destruct (IH H) as [H1 H2]. unfold loadable in Hd.
    apply andb_prop in Hd. destruct Hd as [Hd1 Hd2].
    simpl. rewrite Hd1, H1. split; [reflexivity|].
    unfold all_items in *. simpl. rewrite forallb_app, Hd2, H2. reflexivity. }
  destruct H12 as [H1 H2].
  rewrite merge_docs_items by assumption.
  split; [apply merge_items_ok | apply absorb_wf]; auto using wf_empty.
Qed.

Lemma perm_prefix_ok (ps : list (string * json)) (p : list (string * list json)) :
  keys p = perm_kinds ->
  forallb (fun it => kmem String.eqb (fst it) perm_kinds
                     && is_ok (py_iter (snd it))) ps = true ->
  exists p', foldM extend_perm_type ps p = Ok p' /\ keys p' = perm_kinds.
Proof.
  intros Hk H. rewrite extend_perm_types_eq by assumption.
  rewrite (mapM_pure _ (fun it => (fst it, elems (snd it)))).
  - eexists. split; [reflexivity|].
    rewrite accum_keys_present; [assumption|].
    intros x Hx. apply in_map_iff in Hx. destruct Hx as (it & <- & Hit).
    rewrite forallb_forall in H. specialize (H _ Hit).
    apply andb_prop in H. rewrite Hk. apply H.
  - intros it Hit. rewrite forallb_forall in H. specialize (H _ Hit).
    apply andb_prop in H. destruct H as [H1 H2].
    unfold perm_item, iter_item. rewrite H1, (py_iter_elems _ H2). reflexivity.
Qed.

Lemma unknown_kind_not_mergeable (its ps : list (string * json)) (k : string)
    (v : json) :
  In ("permissions", JObj ps) its -> In (k, v) ps ->
  kmem String.eqb k perm_kinds = false ->
  mergeable (JObj its) = false.
Proof.
  intros Hp Hk Hn. destruct (mergeable (JObj its)) eqn:E; [|reflexivity].
  unfold mergeable in E. apply andb_prop in E. destruct E as [_ E].
  rewrite forallb_forall in E. specialize (E _ Hp).
  unfold ok_item, ok_permissions in E. simpl in E.
  rewrite forallb_forall in E. specialize (E _ Hk). simpl in E.
  change ((k =? "allow") || ((k =? "deny") || ((k =? "ask") || false)))
    with (kmem String.eqb k perm_kinds) in E.
  rewrite Hn in E. discriminate.
Qed.

Lemma not_mergeable_raises (docs : list json) (d : json) :
  In d docs -> mergeable d = false -> is_ok (merge_settings docs) = false.
Proof.
  intros Hin Hd. rewrite merge_settings_is_ok.
  destruct (forallb mergeable docs) eqn:E; [|reflexivity].
  rewrite forallb_forall in E. rewrite (E _ Hin) in Hd. discriminate.
Qed.

(** An unknown permission kind behind a list that cannot be iterated: the
    merge raises [TypeError] for the list, and never gets to the lookup of
    the kind. *)
Lemma unknown_kind_behind_bad_list :
  merge_settings [number_allow_doc] = Err TypeError
  /\ ~ unknown_kind_is_key_error [number_allow_doc].
Proof.
  split; [reflexivity|]. intros H.
  destruct (H _ _ "forbid" (JArr []) (or_introl eq_refl) (or_introl eq_refl)
              (or_intror (or_introl eq_refl)) eq_refl) as (k' & E).
  vm_compute in E. discriminate E.
Qed.

(** C9, as the code has it.  When the [permissions] mapping of some input
    document has a key other than [allow], [deny] and [ask], the merge
    raises instead of passing the key through or ignoring it; the error is
    the failed lookup of this key, [KeyError], when everything the first
    loop reads before it is readable, and the error of the earlier access
    that fails otherwise ([unknown_kind_behind_bad_list]). *)
Theorem unknown_permission_kind_raises (docs : list json)
    (its ps : list (string * json)) (k : string) (v : json) :
  In (JObj its) docs -> In ("permissions", JObj ps) its -> In (k, v) ps ->
  kmem String.eqb k perm_kinds = false ->
  is_ok (merge_settings docs) = false
  /\ (forall pre post its1 its2 ps1 ps2,
        docs = pre ++ JObj its :: post ->
        its = its1 ++ ("permissions", JObj ps) :: its2 ->
        ps = ps1 ++ (k, v) :: ps2 ->
        forallb loadable pre = true ->
        forallb loadable_item its1 = true ->
        forallb (fun it => kmem String.eqb (fst it) perm_kinds
                           && is_ok (py_iter (snd it))) ps1 = true ->
        merge_settings docs = Err (KeyError k)).
Proof.
  intros Hd Hp Hk Hn. split.
  - eapply not_mergeable_raises; [exact Hd|].
    eapply unknown_kind_not_mergeable; eassumption.
  - intros pre post its1 its2 ps1 ps2 -> -> -> Lpre L1 Lps.
    destruct (loadable_docs _ Lpre) as [E0 W0].
    unfold merge_settings. rewrite merge_result_finish, foldM_app, E0.
    cbn [bind foldM]. unfold merge_doc at 1. cbn [py_items bind].
    rewrite foldM_app, merge_items_ok by assumption. cbn [bind foldM].
    pose proof (absorb_wf _ _ L1 W0) as W1.
    destruct (perm_prefix_ok ps1 _ (permissions_of_keys _ W1) Lps)
      as (p' & Ep & Kp).
    unfold merge_item at 1. cbn [py_items bind String.eqb Ascii.eqb Bool.eqb].
    rewrite foldM_app, Ep. cbn [bind foldM]. unfold extend_perm_type at 1.
    assert (str_get k p' = None) as ->
      by (apply dict_get_None; rewrite Kp; exact Hn).
    reflexivity.
Qed.

Lemma unknown_permission_kind_raises_witness :
  merge_settings [doc_D; unknown_kind_doc; doc_F] = Err (KeyError "forbid").
Proof.
  destruct (unknown_permission_kind_raises
              [doc_D; unknown_kind_doc; doc_F]
              [("permissions", JObj [("allow", JArr [JStr "Skill(a)"]);
                                     ("forbid", JArr [JStr "Bash"])])]
              [("allow", JArr [JStr "Skill(a)"]); ("forbid", JArr [JStr "Bash"])]
              "forbid" (JArr [JStr "Bash"])) as [_ H].
  - right; left; reflexivity.
  - left; reflexivity.
  - right; left; reflexivity.
  - reflexivity.
  - apply (H [doc_D] [doc_F] [] [] [("allow", JArr [JStr "Skill(a)"])] []);
      reflexivity.
Defined.

(** Documents of the wrong shape that the merge accepts without an error: a
    string iterated as a permission list, a mapping iterated as a hook list,
    a number as matcher and a string as a group's hooks. *)
Lemma malformed_documents_merge :
  valid_doc string_allow_doc = false
  /\ merge_settings [JObj []; string_allow_doc]
     = Ok (JObj [("permissions",
                  JObj [("allow", JArr [JStr "A"; JStr "B"]);
                        ("deny", JArr []); ("ask", JArr [])])])
  /\ ~ raises_on_invalid [JObj []; string_allow_doc]
  /\ valid_doc mapping_hook_list_doc = false
  /\ merge_settings [mapping_hook_list_doc]
     = Ok (JObj [("hooks", JObj [("PreToolUse", JArr [])])])
  /\ valid_doc number_matcher_doc = false
  /\ merge_settings [number_matcher_doc]
     = Ok (JObj [("hooks", JObj [("PreToolUse",
             JArr [JObj [("matcher", JAtom (AInt 5)); ("hooks", JArr [])]])])]).
Proof.
  repeat split; try reflexivity.
  intros H. specialize (H eq_refl). discriminate.
Qed.

Lemma malformed_not_mergeable (d : json) :
  malformed_top d = true -> mergeable d = false.
Proof.
  unfold malformed_top, mergeable.
  destruct (is_ok (py_items d)); [|reflexivity]. simpl. intros H.
  apply existsb_exists in H. destruct H as ([k v] & Hin & H).
  destruct (forallb ok_item (doc_items d)) eqn:E; [|reflexivity].
  rewrite forallb_forall in E. specialize (E _ Hin).
  unfold ok_item, ok_hooks, ok_permissions in E. cbn [fst snd] in *.
  apply andb_prop in H. destruct H as [Hk Hv]. apply negb_true_iff in Hv.
  rewrite Hv in E.
  destruct (k =? "hooks"); [discriminate|].
  destruct (k =? "permissions"); discriminate.
Qed.

(** C8, as the code has it.  The merge raises exactly when an access it
    makes fails, that is when some input document is not [mergeable]: a
    document, or a [hooks] or [permissions] value, that is not a mapping
    always raises, also as the persisted document of
    [update_settings_file], and valid documents, however sparse, never
    raise.  Other wrong shapes are merged without an error
    ([malformed_documents_merge]). *)
Theorem merge_raises_iff_unreadable (docs : list json) :
  is_ok (merge_settings docs) = forallb mergeable docs
  /\ (forallb valid_doc docs = true -> is_ok (merge_settings docs) = true)
  /\ (forall d, In d docs -> malformed_top d = true ->
        is_ok (merge_settings docs) = false)
  /\ (forall existing new_settings,
        malformed_top existing = true ->
        is_ok (update_settings_file (Some existing) new_settings) = false)
  /\ (forall new_settings,
        update_settings_file None new_settings
        = merge_settings [JObj []; new_settings]).
Proof.
  split; [apply merge_settings_is_ok|].
  split.
  { intros H. rewrite merge_settings_is_ok. apply valid_docs_mergeable, H. }
  split.
  { intros d Hin H. eapply not_mergeable_raises; [exact Hin|].
    apply malformed_not_mergeable, H. }
  split; [|reflexivity].
  intros existing new_settings H. unfold update_settings_file.
  apply (not_mergeable_raises _ existing); [left; reflexivity|].
  apply malformed_not_mergeable, H.
Qed.

Lemma merge_raises_iff_unreadable_witness :
  is_ok (merge_settings [JObj []; sparse_doc; doc_D]) = true
  /\ is_ok (merge_settings [doc_D; JObj [("hooks", JArr [])]]) = false
  /\ is_ok (update_settings_file (Some (JArr [])) doc_F) = false.
Proof.
  split.
  { apply (merge_raises_iff_unreadable [JObj []; sparse_doc; doc_D]).
    reflexivity. }
  split.
  { apply (merge_raises_iff_unreadable [doc_D; JObj [("hooks", JArr [])]])
      with (d := JObj [("hooks", JArr [])]);
      [right; left; reflexivity | reflexivity]. }
  apply (merge_raises_iff_unreadable []). reflexivity.
Defined.

(** * Further properties of the merge *)

(** ** Merging a merged part *)

Section Flatten.
Context {K : Type} {eqb : K -> K -> bool} {KE : KeyEq eqb}.

Lemma uniq_by_within {A : Type} (key : A -> K) (s t : list K) (b : list A) :
  (forall k, kmem eqb k t = true -> kmem eqb k s = true) ->
  uniq_by eqb key s (uniq_by eqb key t b) = uniq_by eqb key s b.
Proof.
  revert s t; induction b as [|x b IH]; intros s t Hts; simpl; [reflexivity|].
  assert (Hsnoc : forall s', (forall k, kmem eqb k t = true -> kmem eqb k s' = true) ->
            kmem eqb (key x) s' = true ->
            forall k, kmem eqb k (t ++ [key x]) = true -> kmem eqb k s' = true).
  { intros s' Hs' Hx k Hk. rewrite kmem_app in Hk.
    apply orb_prop in Hk. destruct Hk as [Hk|Hk]; [auto|].
    simpl in Hk. rewrite orb_false_r in Hk.
    rewrite (kmem_eqb _ _ s' Hk). exact Hx. }
  destruct (kmem eqb (key x) t) eqn:Et.
  - rewrite (Hts _ Et). apply IH, Hts.
  - simpl. destruct (kmem eqb (key x) s) eqn:Es.
    + apply IH. apply Hsnoc; assumption.
    + f_equal. apply IH. apply Hsnoc.
      * intros k Hk. rewrite kmem_app, (Hts k Hk). reflexivity.
      * rewrite kmem_app. simpl. rewrite keq_refl. apply orb_true_r.
Qed.

(** Deduplicating a part first changes nothing. *)
Lemma uniq_by_flat {A : Type} (key : A -> K) (s : list K) (a b c : list A) :
  uniq_by eqb key s (a ++ uniq_by eqb key [] b ++ c)
  = uniq_by eqb key s (a ++ b ++ c).
Proof.
  rewrite !uniq_by_app.
  rewrite (uniq_by_within key _ [] b) by (intros k Hk; discriminate).
  reflexivity.
Qed.

Lemma uniq_by_known {A : Type} (key : A -> K) (s : list K) (e x : list A) :
  (forall y, In y e -> kmem eqb (key y) s = true) ->
  uniq_by eqb key s (e ++ x) = uniq_by eqb key s x.
Proof.
  intros H. rewrite uniq_by_app, (uniq_by_seen key s e H). simpl.
  rewrite app_nil_r. reflexivity.
Qed.

Context {V : Type}.

Lemma gather_distinct (k : K) (m : list (K * list V)) :
  distinct eqb (keys m) = true -> gather eqb k m = dflt (dict_get eqb k m).
Proof.
  intros H. rewrite <- (accum_fresh m []) at 2 by exact H.
  rewrite accum_get. reflexivity.
Qed.

Variable N : list V -> res (list V).
Hypothesis N_flat :
  forall a b c n, N b = Ok n -> N (a ++ n ++ c) = N (a ++ b ++ c).

(** When normalising a part first changes nothing for one list, it changes
    nothing for the accumulators: [e] holds the keys created empty. *)
Lemma accum_norm_flat (e q m d r : list (K * list V)) :
  distinct eqb (keys e) = true ->
  (forall k, dflt (dict_get eqb k e) = []) ->
  (forall k, In k (keys e) -> kmem eqb k (keys d) = true) ->
  distinct eqb (keys d) = true ->
  mapM (on_values N) (accum eqb q e) = Ok m ->
  mapM (on_values N) (accum eqb r (accum eqb m d))
  = mapM (on_values N) (accum eqb r (accum eqb q d)).
Proof.
  intros De Ee Hed Dd Hm.
  pose proof (on_values_keys _ _ _ Hm) as Km.
  pose proof (accum_distinct q e De) as Dqe.
  assert (Dm : distinct eqb (keys m) = true) by (rewrite Km; exact Dqe).
  assert (Hkeys : keys (accum eqb r (accum eqb m d))
                  = keys (accum eqb r (accum eqb q d))).
  { rewrite <- !accum_app, !accum_keys. f_equal.
    rewrite !map_app. fold (keys m). rewrite Km, accum_keys.
    rewrite <- app_assoc.
    rewrite (uniq_by_known (fun k => k) (keys d) (keys e)) by exact Hed.
    rewrite !(uniq_by_app (fun k => k) (keys d)).
    rewrite (uniq_by_within (fun k => k) (keys d) (keys e)).
    - reflexivity.
    - intros k Hk. apply existsb_exists in Hk. destruct Hk as (k0 & Hin & E).
      rewrite (kmem_eqb _ _ _ E). apply Hed, Hin. }
  rewrite (dict_eta (accum eqb r (accum eqb m d)))
    by (apply accum_distinct, accum_distinct, Dd).
  rewrite (dict_eta (accum eqb r (accum eqb q d)))
    by (apply accum_distinct, accum_distinct, Dd).
  rewrite Hkeys, !mapM_map. apply mapM_ext_in. intros k Hk.
  unfold on_values. cbn [fst snd].
  rewrite !accum_get, (gather_distinct k m Dm).
  destruct (dict_get eqb k (accum eqb q e)) as [l|] eqn:E.
  - destruct (on_values_get _ _ _ _ _ Hm E) as (n & Hn & Hgm).
    assert (l = gather eqb k q) as ->.
    { pose proof (accum_get k q e) as G. rewrite E, Ee in G. exact G. }
    rewrite Hgm. simpl dflt. rewrite <- !app_assoc.
    rewrite (N_flat _ _ _ _ Hn). reflexivity.
  - assert (gather eqb k q = []) as ->.
    { pose proof (accum_get k q e) as G. rewrite E, Ee in G. simpl in G.
      symmetry. exact G. }
    assert (dict_get eqb k m = None) as ->.
    { apply dict_get_None. rewrite Km. apply dict_get_None, E. }
    reflexivity.
Qed.
End Flatten.

Lemma dedupe_hooks_flat (a b c n : list json) :
  dedupe_hooks b = Ok n ->
  dedupe_hooks (a ++ n ++ c) = dedupe_hooks (a ++ b ++ c).
Proof.
  rewrite !dedupe_hooks_eq. intros H. inv_bind H. injection H as <-.
  rewrite !mapM_app, Ha.
  rewrite mapM_self
    by (intros p Hp; apply (hook_key_self _ _ Ha), (uniq_by_incl _ _ _ _ Hp)).
  destruct (mapM hook_key a) as [ka|?]; [|reflexivity].
  destruct (mapM hook_key c) as [kc|?]; [|reflexivity].
  cbn [bind]. rewrite uniq_by_flat. reflexivity.
Qed.

Lemma list_fromkeys_flat (a b c n : list json) :
  list_fromkeys b = Ok n ->
  list_fromkeys (a ++ n ++ c) = list_fromkeys (a ++ b ++ c).
Proof.
  rewrite !list_fromkeys_eq. intros H. inv_bind H. injection H as <-.
  rewrite !mapM_app, Ha.
  rewrite mapM_self by reflexivity.
  destruct (mapM py_hash a) as [ka|?]; [|reflexivity].
  destruct (mapM py_hash c) as [kc|?]; [|reflexivity].
  cbn [bind]. rewrite uniq_by_flat. reflexivity.
Qed.

Lemma regroup_flat (a b c n : list json) :
  regroup b = Ok n -> regroup (a ++ n ++ c) = regroup (a ++ b ++ c).
Proof.
  rewrite !regroup_eq. intros H. inv_bind H. inv_bind H. injection H as <-.
  rewrite !mapM_app, Ha.
  rewrite mapM_self by (intros; apply parse_group_json).
  destruct (mapM parse_group a) as [pa|?]; [|reflexivity].
  destruct (mapM parse_group c) as [pc|?]; [|reflexivity].
  cbn [bind]. rewrite !accum_app.
  rewrite (accum_norm_flat dedupe_hooks dedupe_hooks_flat [] a0 a1
             (accum atom_eqb pa []) pc);
    try reflexivity; try assumption.
  - intros k [].
  - apply accum_distinct. reflexivity.
Qed.

Lemma hook_items_enc (m : result_dict) :
  wf_result m -> hook_items (map enc m) = hooks_of m.
Proof.
  intros W. unfold hook_items. rewrite section_items_enc by apply W.
  destruct (str_get "hooks" m) as [s|] eqn:E.
  - destruct (hooks_slot _ _ W E) as [-> _]. apply item_lists_json.
  - unfold hooks_of. rewrite E. reflexivity.
Qed.

Lemma perm_items_enc (m : result_dict) :
  wf_result m ->
  perm_items (map enc m)
  = match str_get "permissions" m with
    | Some _ => permissions_of m
    | None => []
    end.
Proof.
  intros W. unfold perm_items. rewrite section_items_enc by apply W.
  destruct (str_get "permissions" m) as [s|] eqn:E; [|reflexivity].
  destruct (perms_slot _ _ W E) as [-> _]. apply item_lists_json.
Qed.

(** What a returning merge has done: its first loop is [absorb], its
    result comes from [finish] and is well formed. *)
Lemma merge_result_run (docs : list json) (m : result_dict) :
  merge_result docs = Ok m ->
  forallb loadable_item (all_items docs) = true
  /\ finish (absorb (all_items docs) []) = Ok m
  /\ wf_result m.
Proof.
  rewrite merge_result_finish. intros H. inv_bind H.
  destruct (merge_docs_inv _ _ _ wf_empty Ha) as [H1 H2].
  rewrite merge_docs_items, merge_items_ok in Ha by auto using wf_empty.
  injection Ha as <-. split; [exact H2|]. split; [exact H|].
  pose proof (absorb_wf _ _ H2 wf_empty) as W.
  destruct (finish_inv _ _ W H) as (hm & pm & Hh & Hp).
  destruct (finish_spec _ _ _ W Hh Hp) as (m' & E & Wm & _).
  congruence.
Qed.

Lemma merge_result_reload (m : result_dict) :
  wf_result m -> merge_result [result_json m] = finish m.
Proof.
  intros W. rewrite merge_result_finish. simpl foldM. unfold merge_doc.
  rewrite result_json_items. cbn [py_items bind].
  rewrite reload by assumption. reflexivity.
Qed.

Lemma merge_result_fixed (docs : list json) (m : result_dict) :
  merge_result docs = Ok m -> merge_result [result_json m] = Ok m.
Proof.
  intros H. destruct (merge_result_run _ _ H) as (L & F & W).
  rewrite merge_result_reload by assumption.
  apply (absorb_finish_idem [] (absorb (all_items docs) []) m);
    [apply absorb_wf; auto using wf_empty | reflexivity | exact F].
Qed.

Lemma empty_permissions_empty (k : string) :
  dflt (dict_get String.eqb k empty_permissions) = [].
Proof.
  unfold empty_permissions. cbn [dict_get].
  destruct ("allow" =? k); [reflexivity|].
  destruct ("deny" =? k); [reflexivity|].
  destruct ("ask" =? k); reflexivity.
Qed.

Lemma str_get_absent_items (k : string) (its : list (string * json))
    (r : result_dict) :
  str_get k (absorb its r) = None -> kmem String.eqb k (map fst its) = false.
Proof.
  intros H. destruct (kmem String.eqb k (map fst its)) eqn:E; [|reflexivity].
  apply existsb_exists in E. destruct E as (k0 & Hin & E).
  apply String.eqb_eq in E. subst k0.
  pose proof (kmem_absorb_keys k its r Hin) as M.
  rewrite str_get_mem, H in M. discriminate.
Qed.

(** Absorbing the merged form of a part instead of the part gives the same
    merged document. *)
Lemma absorb_finish_flat (mids posts : list (string * json))
    (r0 m out : result_dict) :
  wf_result r0 ->
  forallb loadable_item mids = true -> forallb loadable_item posts = true ->
  finish (absorb mids []) = Ok m ->
  finish (absorb posts (absorb mids r0)) = Ok out ->
  finish (absorb posts (absorb (map enc m) r0)) = Ok out.
Proof.
  intros W0 Lm Lp Fm FR.
  pose proof (absorb_wf _ _ Lm wf_empty) as Wmid.
  destruct (finish_inv _ _ Wmid Fm) as (hm & pm & Hh & Hp).
  destruct (finish_spec _ _ _ Wmid Hh Hp) as (m' & E' & Wm & Km & Hm & Pm & Om).
  assert (m' = m) as -> by congruence. clear E'.
  rewrite absorb_hooks in Hh. change (hooks_of []) with (@nil (string * list json)) in Hh.
  rewrite absorb_permissions in Hp.
  change (permissions_of []) with empty_permissions in Hp.
  pose proof (absorb_wf _ _ Lp (absorb_wf _ _ Lm W0)) as WR.
  destruct (finish_inv _ _ WR FR) as (hR & pR & HhR & HpR).
  destruct (finish_spec _ _ _ WR HhR HpR) as (o' & E' & Wo & Ko & Ho & Po & Oo).
  assert (o' = out) as -> by congruence. clear E'.
  pose proof (absorb_wf _ _ Lp (absorb_wf _ _ (enc_loadable _ Wm) W0)) as WL.
  assert (HhL : mapM (on_values regroup)
                  (hooks_of (absorb posts (absorb (map enc m) r0))) = Ok hR).
  { rewrite <- HhR, !absorb_hooks, hook_items_enc, Hm by assumption.
    apply (accum_norm_flat regroup regroup_flat [] (hook_items mids));
      try reflexivity; try assumption.
    - intros k [].
    - apply hooks_of_distinct, W0. }
  assert (HpL : mapM (on_values list_fromkeys)
                  (permissions_of (absorb posts (absorb (map enc m) r0)))
                = Ok pR).
  { rewrite <- HpR, !absorb_permissions, perm_items_enc by assumption.
    destruct (str_get "permissions" m) as [s|] eqn:Es.
    - rewrite Pm.
      apply (accum_norm_flat list_fromkeys list_fromkeys_flat
               empty_permissions (perm_items mids));
        try reflexivity; try assumption.
      + apply empty_permissions_empty.
      + intros k Hk. rewrite (permissions_of_keys _ W0).
        apply kmem_In, Hk.
      + rewrite (permissions_of_keys _ W0). reflexivity.
    - assert (Hn : str_get "permissions" (absorb mids []) = None).
      { apply (proj2 (dict_get_None (eqb := String.eqb) "permissions"
                         (absorb mids []))).
        rewrite <- Km.
        apply (proj1 (dict_get_None (eqb := String.eqb) "permissions" m)), Es. }
      change (perm_items mids) with (section_items "permissions" mids).
      rewrite (section_items_absent "permissions" mids
                 (str_get_absent_items _ _ _ Hn)).
      reflexivity. }
  destruct (finish_spec _ _ _ WL HhL HpL) as (oL & EL & WoL & KL & HL & PL & OL).
  rewrite EL. f_equal. apply result_ext; try assumption; try congruence.
  - rewrite KL, Ko, !absorb_keys. fold (keys (map enc m)).
    rewrite keys_enc, Km, absorb_keys. cbn [keys map app].
    rewrite (uniq_by_within (fun k => k) (map fst r0) [] (map fst mids))
      by (intros k Hk; discriminate).
    reflexivity.
  - intros k N1 N2. rewrite OL, Oo, !absorb_plain by assumption.
    destruct (last_value k posts); [reflexivity|].
    rewrite last_value_distinct by (rewrite keys_enc; apply Wm).
    unfold enc. rewrite (str_get_map slot_json), Om, absorb_plain by assumption.
    destruct (last_value k mids); reflexivity.
Qed.

Lemma merge_result_loadable (docs : list json) (m : result_dict) :
  merge_result docs = Ok m -> forallb loadable docs = true.
Proof.
  intros H. pose proof (merge_result_mergeable _ _ H) as M.
  revert M. apply forallb_impl. intros d _ Hd.
  destruct (mergeable_loadable _ Hd) as [E L].
  unfold loadable. rewrite E, L. reflexivity.
Qed.

Lemma all_items_app (a b : list json) :
  all_items (a ++ b) = all_items a ++ all_items b.
Proof. apply flat_map_app. Qed.

Lemma all_items_cons_result (m : result_dict) (docs : list json) :
  all_items (result_json m :: docs) = map enc m ++ all_items docs.
Proof. reflexivity. Qed.

Lemma loadable_result (m : result_dict) :
  wf_result m -> loadable (result_json m) = true.
Proof.
  intros W. unfold loadable. rewrite result_json_items.
  cbn [py_items is_ok andb doc_items from_ok]. apply enc_loadable, W.
Qed.

(** A merged part in place of the part: the merge of the whole list returns
    the same document. *)
Lemma merge_result_flat (pre mid post : list json) (m out : result_dict) :
  merge_result mid = Ok m ->
  merge_result (pre ++ mid ++ post) = Ok out ->
  merge_result (pre ++ result_json m :: post) = Ok out.
Proof.
  intros Hm Ho.
  destruct (merge_result_run _ _ Hm) as (Lm & Fm & Wm).
  destruct (merge_result_run _ _ Ho) as (Lo & Fo & Wo).
  pose proof (merge_result_loadable _ _ Ho) as Ld.
  rewrite !all_items_app in Lo, Fo. rewrite !forallb_app in Lo, Ld.
  apply andb_prop in Lo. destruct Lo as [Lpre Lo].
  apply andb_prop in Lo. destruct Lo as [_ Lpost].
  apply andb_prop in Ld. destruct Ld as [Dpre Ld].
  apply andb_prop in Ld. destruct Ld as [_ Dpost].
  rewrite !absorb_app in Fo.
  assert (Ldocs : forallb loadable (pre ++ result_json m :: post) = true).
  { rewrite forallb_app. cbn [forallb].
    rewrite Dpre, Dpost, (loadable_result _ Wm). reflexivity. }
  destruct (loadable_docs _ Ldocs) as [E _].
  rewrite merge_result_finish, E. cbn [bind].
  rewrite all_items_app, all_items_cons_result, !absorb_app.
  apply (absorb_finish_flat (all_items mid)); try assumption.
  apply absorb_wf; auto using wf_empty.
Qed.

Lemma merge_settings_inv (docs : list json) (out : json) :
  merge_settings docs = Ok out ->
  exists m, merge_result docs = Ok m /\ out = result_json m.
Proof.
  unfold merge_settings. intros H. inv_bind H. injection H as <-. eauto.
Qed.

(** X1. A document [merge_settings] returned is a fixed point of the merge:
    merged again on its own it comes back as it is. *)
Theorem merged_document_is_fixed_point (docs : list json) (M : json) :
  merge_settings docs = Ok M -> merge_settings [M] = Ok M.
Proof.
  intros H. destruct (merge_settings_inv _ _ H) as (m & E & ->).
  unfold merge_settings. rewrite (merge_result_fixed _ _ E). reflexivity.
Qed.

Lemma merged_document_is_fixed_point_witness :
  exists M, merge_settings [doc_D; doc_F] = Ok M /\ merge_settings [M] = Ok M.
Proof.
  eexists. split; [reflexivity|].
  apply (merged_document_is_fixed_point [doc_D; doc_F]). reflexivity.
Defined.

Lemma merge_settings_flat (pre mid post : list json) (M out : json) :
  merge_settings mid = Ok M ->
  merge_settings (pre ++ M :: post) = Ok out
  <-> merge_settings (pre ++ mid ++ post) = Ok out.
Proof.
  intros HM. destruct (merge_settings_inv _ _ HM) as (m & Em & ->).
  split; intros H; destruct (merge_settings_inv _ _ H) as (o & Eo & ->).
  - pose proof (merge_result_mergeable _ _ Eo) as Mo.
    pose proof (merge_result_mergeable _ _ Em) as Mm.
    assert (Mw : forallb mergeable (pre ++ mid ++ post) = true).
    { rewrite forallb_app in Mo. cbn [forallb] in Mo.
      apply andb_prop in Mo. destruct Mo as [M1 Mo].
      apply andb_prop in Mo. destruct Mo as [_ M2].
      rewrite !forallb_app, M1, Mm, M2. reflexivity. }
    destruct (merge_result_spec _ Mw) as (o' & Eo' & _).
    pose proof (merge_result_flat pre mid post m o' Em Eo') as E2.
    assert (o' = o) as -> by congruence.
    unfold merge_settings. rewrite Eo'. reflexivity.
  - unfold merge_settings.
    rewrite (merge_result_flat pre mid post m o Em Eo). reflexivity.
Qed.

(** X2. Merging some of the documents first and putting the result in their
    place does not change what the merge of the whole list returns: this is
    how [main] and [update_settings_file] merge in two steps. *)
Theorem merge_in_two_steps (pre mid post : list json) (M : json) :
  merge_settings mid = Ok M ->
  forall out,
    merge_settings (pre ++ M :: post) = Ok out
    <-> merge_settings (pre ++ mid ++ post) = Ok out.
Proof.
  intros HM out. apply merge_settings_flat, HM.
Qed.

Lemma merge_in_two_steps_witness :
  exists M out,
    merge_settings [doc_theme_dark; doc_F] = Ok M
    /\ merge_settings ([doc_D] ++ M :: [allow_BC]) = Ok out
    /\ merge_settings ([doc_D] ++ [doc_theme_dark; doc_F] ++ [allow_BC]) = Ok out.
Proof.
  eexists. eexists. split; [reflexivity|].
  assert (E : merge_settings ([doc_D] ++ [doc_theme_dark; doc_F] ++ [allow_BC])
              = Ok (from_ok (JObj [])
                      (merge_settings ([doc_D] ++ [doc_theme_dark; doc_F]
                                       ++ [allow_BC]))))
    by reflexivity.
  split; [|exact E].
  apply (merge_in_two_steps [doc_D] [doc_theme_dark; doc_F] [allow_BC] _
           eq_refl). exact E.
Defined.

(** ** The merged document is canonical *)

Lemma In_str_get {V : Type} (k : string) (v : V) (d : list (string * V)) :
  distinct String.eqb (keys d) = true -> In (k, v) d -> str_get k d = Some v.
Proof.
  induction d as [|[k0 v0] d IH]; intros H Hin; [destruct Hin|].
  simpl in H. apply andb_prop in H. destruct H as [Hk H].
  apply negb_true_iff in Hk. cbn [str_get dict_get].
  destruct Hin as [E|Hin].
  - injection E as -> ->. rewrite String.eqb_refl. reflexivity.
  - pose proof (kmem_false_In _ _ _ Hk (in_map fst _ _ Hin)) as E.
    cbn [fst] in E. rewrite E. apply IH; assumption.
Qed.

Lemma keys_map_values {K A B : Type} (f : A -> B) (d : list (K * A)) :
  keys (map (fun kv => (fst kv, f (snd kv))) d) = keys d.
Proof. unfold keys. rewrite map_map. reflexivity. Qed.

Lemma merged_groups_canonical (entries : list json) :
  forallb ok_group entries = true ->
  canonical_groups (JArr (merged_groups entries)) = true.
Proof.
  intros H. unfold canonical_groups.
  rewrite merged_groups_distinct, andb_true_r.
  apply forallb_forall. intros g Hg.
  destruct (merged_groups_In _ _ Hg) as [Hj Hh]. rewrite Hj.
  unfold canonical_group, group_json. cbn [fst snd].
  rewrite !String.eqb_refl. cbn [andb]. rewrite Hh.
  rewrite uniq_by_distinct, andb_true_r.
  apply forallb_forall. intros x Hx. apply uniq_by_incl in Hx.
  unfold arrived_hooks in Hx. apply in_flat_map in Hx.
  destruct Hx as (e & He & Hx). apply filter_In in He. destruct He as [He _].
  rewrite forallb_forall in H. specialize (H _ He).
  unfold ok_group in H. apply andb_prop in H. destruct H as [_ H].
  rewrite forallb_forall in H. auto.
Qed.

Lemma merged_permissions_canonical (l : list json) :
  canonical_list (JArr (merged_permissions l)) = true.
Proof.
  unfold canonical_list, merged_permissions.
  apply andb_true_intro. split.
  - apply forallb_forall. intros x Hx. apply in_map_iff in Hx.
    destruct Hx as (a & <- & _). reflexivity.
  - rewrite map_map. cbn [atom_of py_hash from_ok]. rewrite map_id.
    pose proof (uniq_by_distinct (fun a : atom => a) (map atom_of l)) as D.
    rewrite map_id in D. exact D.
Qed.

Lemma merge_result_canonical (docs : list json) (m : result_dict) :
  merge_result docs = Ok m -> canonical (result_json m) = true.
Proof.
  intros H. pose proof (merge_result_mergeable _ _ H) as Hm.
  destruct (merge_result_spec _ Hm) as (m' & E & W & _ & Hh & Hp & _).
  assert (m' = m) as -> by congruence.
  destruct (mergeable_items _ Hm) as [_ Hok].
  rewrite result_json_items. unfold canonical.
  rewrite keys_enc, (proj1 W), andb_true_l.
  apply forallb_forall. intros x Hx. apply in_map_iff in Hx.
  destruct Hx as ([k s] & <- & Hin).
  pose proof (In_str_get _ _ _ (proj1 W) Hin) as G.
  pose proof (proj2 W) as F. rewrite Forall_forall in F. specialize (F _ Hin).
  unfold slot_ok in F. unfold canonical_item, enc. cbn [fst snd] in *.
  destruct s as [h|p|v].
  - destruct F as [-> D]. cbn [String.eqb Ascii.eqb Bool.eqb slot_json].
    assert (h = merged_hooks docs) as ->
      by (rewrite <- Hh; unfold hooks_of; rewrite G; reflexivity).
    unfold canonical_hooks, lists_json.
    rewrite (keys_map_values JArr), D, andb_true_l.
    apply forallb_forall. intros y Hy. apply in_map_iff in Hy.
    destruct Hy as (kv & <- & Hkv). cbn [snd].
    unfold merged_hooks, map_values in Hkv. apply in_map_iff in Hkv.
    destruct Hkv as (g & <- & Hg). cbn [snd].
    apply merged_groups_canonical. apply forallb_forall. intros e He.
    destruct (In_grouped _ _ _ _ Hg He) as (it & Hit & Heit).
    pose proof (hook_items_ok _ _ Hok Hit) as O.
    rewrite forallb_forall in O. auto.
  - destruct F as [-> _]. cbn [String.eqb Ascii.eqb Bool.eqb slot_json].
    assert (p = merged_perms docs) as ->
      by (rewrite <- Hp; unfold permissions_of; rewrite G; reflexivity).
    unfold merged_perms, lists_json, perm_kinds, canonical_permissions.
    cbn [map fst snd]. rewrite !String.eqb_refl, !merged_permissions_canonical.
    reflexivity.
  - destruct F as [N1 N2]. apply String.eqb_neq in N1, N2.
    rewrite N1, N2. reflexivity.
Qed.

(** A document in the canonical form the specification words is changed by
    the merge when a matcher group is not written the way the merge writes
    it: a group without [matcher] gets the empty one, and a key of a group
    other than [matcher] and [hooks] is dropped. *)
Lemma worded_canonical_is_changed :
  worded_canonical matcherless_doc = true
  /\ valid_doc matcherless_doc = true
  /\ merge_settings [matcherless_doc]
     = Ok (JObj [("hooks", JObj [("Stop",
             JArr [JObj [("matcher", JStr "");
                         ("hooks", JArr [hook_entry "run-a" "A"])]])])])
  /\ ~ fixed_point_as_worded matcherless_doc
  /\ worded_canonical annotated_group_doc = true
  /\ valid_doc annotated_group_doc = true
  /\ merge_settings [annotated_group_doc]
     = Ok (JObj [("hooks", JObj [("PreToolUse",
             JArr [JObj [("matcher", JStr "Bash");
                         ("hooks", JArr [hook_entry "run-a" "A"])]])])])
  /\ ~ fixed_point_as_worded annotated_group_doc.
Proof.
  repeat split; try reflexivity; intros H; specialize (H eq_refl);
    vm_compute in H; discriminate H.
Qed.

(** C6, as the code has it.  A document in the form the merge itself writes
    is a fixed point of the merge, merged with no new fragment it is
    returned as it is: distinct keys, one matcher group per matcher, every
    group written as [matcher] then [hooks] and nothing else, hook entries
    that are mappings with different commands, and [permissions] written as
    [allow], [deny], [ask] in this order, each a list without duplicates.
    No other document is one: what the merge returns is always in this
    form.  The form the specification words is not enough
    ([worded_canonical_is_changed]). *)
Theorem canonical_fixed_point (D : json) :
  canonical D = true <-> merge_settings [D] = Ok D.
Proof.
  split.
  - intros H. destruct D as [?|?|its]; try discriminate.
    destruct (canonical_decoded _ H) as (W & Henc & Hfin).
    unfold merge_settings. rewrite merge_result_finish.
    simpl foldM. unfold merge_doc. cbn [py_items bind].
    rewrite <- Henc at 1. rewrite reload by assumption. cbn [bind].
    rewrite Hfin. cbn [bind]. rewrite result_json_items, Henc. reflexivity.
  - intros H. destruct (merge_settings_inv _ _ H) as (m & E & Em).
    rewrite Em. apply (merge_result_canonical _ _ E).
Qed.

Lemma canonical_fixed_point_witness :
  canonical canonical_doc = true /\ valid_doc canonical_doc = true
  /\ merge_settings [canonical_doc] = Ok canonical_doc.
Proof.
  split; [reflexivity|]. split; [reflexivity|].
  apply (canonical_fixed_point canonical_doc). reflexivity.
Defined.

(** X3. Every document [merge_settings] returns is in canonical form: its
    keys are distinct, each hook type has one group per matcher, written
    [matcher] then [hooks], the entries of a group have different commands,
    and [permissions], when present, is the three lists [allow], [deny],
    [ask] without duplicates. *)
Theorem merged_document_is_canonical (docs : list json) (M : json) :
  merge_settings docs = Ok M -> canonical M = true.
Proof.
  intros H. destruct (merge_settings_inv _ _ H) as (m & E & ->).
  apply (merge_result_canonical _ _ E).
Qed.

Lemma merged_document_is_canonical_witness :
  exists M, merge_settings [number_matcher_doc; doc_D; string_allow_doc; doc_F]
            = Ok M
            /\ canonical M = true.
Proof.
  eexists. split; [reflexivity|].
  apply (merged_document_is_canonical
           [number_matcher_doc; doc_D; string_allow_doc; doc_F]).
  reflexivity.
Defined.

(** ** What main writes *)

Lemma update_settings_file_eq (existing : option json) (new_settings : json) :
  update_settings_file existing new_settings
  = merge_settings [existing_or_empty existing; new_settings].
Proof. destruct existing; reflexivity. Qed.

Lemma main_settings_written (existing : option json) (all_settings : list json)
    (w : json) :
  main_settings existing all_settings = Ok (Some w) ->
  exists merged, merge_settings all_settings = Ok merged
    /\ py_truthy merged = true
    /\ merge_settings [existing_or_empty existing; merged] = Ok w.
Proof.
  unfold main_settings. intros H. inv_bind H.
  destruct (py_truthy a) eqn:T; [|discriminate].
  inv_bind H. injection H as <-. rewrite update_settings_file_eq in Ha0.
  eauto.
Qed.

(** X4. What [main] writes to the settings file is the merge of the
    persisted document (the empty one without a file) followed by all the
    fragments of the run. *)
Theorem main_writes_the_merge (existing : option json)
    (all_settings : list json) (w : json) :
  main_settings existing all_settings = Ok (Some w) ->
  merge_settings (existing_or_empty existing :: all_settings) = Ok w.
Proof.
  intros H. destruct (main_settings_written _ _ _ H) as (merged & E & _ & U).
  pose proof (proj1 (merge_settings_flat [existing_or_empty existing]
                       all_settings [] merged w E) U) as F.
  rewrite app_nil_r in F. exact F.
Qed.

Lemma main_writes_the_merge_witness :
  exists w, main_settings (Some doc_D) [JObj []; doc_F; allow_BC] = Ok (Some w)
    /\ merge_settings [doc_D; JObj []; doc_F; allow_BC] = Ok w.
Proof.
  eexists. split; [reflexivity|].
  apply (main_writes_the_merge (Some doc_D) [JObj []; doc_F; allow_BC]).
  reflexivity.
Defined.

Lemma flat_map_nil {A B : Type} (f : A -> list B) (l : list A) (x : A) :
  flat_map f l = [] -> In x l -> f x = [].
Proof.
  induction l as [|a l IH]; simpl; intros H Hin; [destruct Hin|].
  apply app_eq_nil in H. destruct H as [H1 H2].
  destruct Hin as [<-|Hin]; auto.
Qed.

Lemma uniq_by_nil {K A : Type} (eqb : K -> K -> bool) (key : A -> K)
    (l : list A) :
  uniq_by eqb key [] l = [] -> l = [].
Proof. destruct l; [reflexivity | discriminate]. Qed.

(** X5. [main] returns without writing the settings file exactly when every
    fragment of the run is the empty mapping, as the fragments of agents and
    skills are; it does so whatever the persisted document is, which is not
    even looked at. *)
Theorem main_writes_nothing_iff_fragments_empty (existing : option json)
    (all_settings : list json) :
  main_settings existing all_settings = Ok None
  <-> Forall (fun d => d = JObj []) all_settings.
Proof.
  split.
  - unfold main_settings. intros H. inv_bind H.
    destruct (py_truthy a) eqn:T.
    { inv_bind H. discriminate. }
    destruct (merge_settings_inv _ _ Ha) as (m & E & ->).
    pose proof (merge_result_mergeable _ _ E) as Hm.
    destruct (merge_result_spec _ Hm) as (m' & E' & _ & K & _).
    assert (m' = m) as -> by congruence.
    destruct m as [|x m]; [|discriminate]. symmetry in K.
    apply uniq_by_nil, map_eq_nil in K.
    apply Forall_forall. intros d Hd.
    pose proof (flat_map_nil doc_items _ d K Hd) as Hi.
    rewrite forallb_forall in Hm. specialize (Hm _ Hd).
    unfold mergeable in Hm. apply andb_prop in Hm. destruct Hm as [Hm _].
    destruct d as [?|?|its]; try discriminate. cbn in Hi. congruence.
  - intros H.
    assert (all_settings = repeat (JObj []) (List.length all_settings)) as ->.
    { induction H as [|d l Hd Hl IH]; [reflexivity|].
      simpl. rewrite Hd. f_equal. exact IH. }
    unfold main_settings.
    destruct (merge_result_spec _ (mergeable_empty (List.length all_settings)))
      as (m & E & _ & K & _).
    rewrite all_items_empty in K. destruct m; [|discriminate].
    unfold merge_settings. rewrite E. reflexivity.
Qed.

Lemma main_writes_nothing_iff_fragments_empty_witness :
  main_settings (Some (JArr [])) [JObj []; JObj []] = Ok None
  /\ Forall (fun d => d = JObj []) [JObj []; JObj []].
Proof.
  split; [reflexivity|].
  apply (main_writes_nothing_iff_fragments_empty (Some (JArr []))
           [JObj []; JObj []]).
  reflexivity.
Defined.

Lemma merge_twice_settings (D F w : json) :
  merge_settings [D; F] = Ok w -> merge_settings [w; F] = Ok w.
Proof.
  intros H. destruct (merge_settings_inv _ _ H) as (m & E & ->).
  pose proof (merge_result_mergeable _ _ E) as M. cbn [forallb] in M.
  apply andb_prop in M. destruct M as [MD M].
  apply andb_prop in M. destruct M as [MF _].
  destruct (merge_twice D F MD MF) as (m' & E1 & E2).
  assert (m' = m) as -> by congruence.
  unfold merge_settings. rewrite E2. reflexivity.
Qed.

(** X6. Running the same install again leaves the settings file as the
    first run wrote it. *)
Theorem main_rerun_writes_the_same (existing : option json)
    (all_settings : list json) (w : json) :
  main_settings existing all_settings = Ok (Some w) ->
  main_settings (Some w) all_settings = Ok (Some w).
Proof.
  intros H. destruct (main_settings_written _ _ _ H) as (merged & E & T & U).
  unfold main_settings. rewrite E. cbn [bind]. rewrite T.
  rewrite update_settings_file_eq. cbn [existing_or_empty].
  rewrite (merge_twice_settings _ _ _ U). reflexivity.
Qed.

Lemma main_rerun_writes_the_same_witness :
  exists w, main_settings None [doc_D; doc_F] = Ok (Some w)
    /\ main_settings (Some w) [doc_D; doc_F] = Ok (Some w).
Proof.
  eexists. split; [reflexivity|].
  apply (main_rerun_writes_the_same None [doc_D; doc_F]). reflexivity.
Defined.

(** X7. A persisted document that is not a mapping, or whose [hooks] or
    [permissions] value is not one, is never overwritten: [main] raises, or
    has nothing to write. *)
Theorem main_keeps_malformed_file (existing : json)
    (all_settings : list json) :
  malformed_top existing = true ->
  main_settings (Some existing) all_settings = Ok None
  \/ is_ok (main_settings (Some existing) all_settings) = false.
Proof.
  intros H. unfold main_settings.
  destruct (merge_settings all_settings) as [merged|e]; [|right; reflexivity].
  cbn [bind]. destruct (py_truthy merged); [|left; reflexivity].
  right. rewrite update_settings_file_eq. cbn [existing_or_empty].
  pose proof (not_mergeable_raises [existing; merged] existing
                (or_introl eq_refl) (malformed_not_mergeable _ H)) as R.
  destruct (merge_settings [existing; merged]); [discriminate | reflexivity].
Qed.

Lemma main_keeps_malformed_file_witness :
  is_ok (main_settings (Some (JObj [("hooks", JArr [])])) [doc_F]) = false.
Proof.
  destruct (main_keeps_malformed_file (JObj [("hooks", JArr [])]) [doc_F]
              eq_refl) as [H|H]; [discriminate H | exact H].
Defined.

(** * The fragments of the managers *)

(** ** _generate_settings *)

Lemma generate_hook_is_ok (acc : tool_use) (hook : json) :
  is_ok (generate_hook acc hook) = ok_definition hook.
Proof.
  unfold generate_hook, ok_definition.
  destruct (generate_entry hook) as [entry|e]; [|reflexivity].
  destruct (py_index hook "type") as [ht|e]; [|reflexivity].
  destruct (py_index hook "matcher") as [matcher|e]; [|reflexivity].
  cbn [bind is_ok andb].
  destruct (py_hash matcher) as [m|e]; [|reflexivity].
  cbn [bind is_ok]. destruct (py_eq_str ht "PreToolUse"); reflexivity.
Qed.

Lemma generate_hook_eq (acc : tool_use) (hook : json) :
  ok_definition hook = true ->
  generate_hook acc hook
  = Ok (if hook_is_pre hook then
          {| pre_tool_use :=
               setdefault_extend atom_eqb (hook_matcher hook) [entry_of hook]
                 (pre_tool_use acc);
             post_tool_use := post_tool_use acc |}
        else
          {| pre_tool_use := pre_tool_use acc;
             post_tool_use :=
               setdefault_extend atom_eqb (hook_matcher hook) [entry_of hook]
                 (post_tool_use acc) |}).
Proof.
  unfold generate_hook, ok_definition, hook_is_pre, hook_matcher, entry_of.
  destruct (generate_entry hook) as [entry|e]; [|discriminate].
  destruct (py_index hook "type") as [ht|e]; [|discriminate].
  destruct (py_index hook "matcher") as [matcher|e]; [|discriminate].
  cbn [bind is_ok andb from_ok].
  destruct matcher as [m| |]; try discriminate. intros _.
  cbn [py_hash bind atom_of from_ok].
  destruct (py_eq_str ht "PreToolUse"); reflexivity.
Qed.

Lemma generate_hooks_eq (hooks : list json) (acc : tool_use) :
  forallb ok_definition hooks = true ->
  foldM generate_hook hooks acc
  = Ok {| pre_tool_use :=
            accum atom_eqb (matcher_entries hook_is_pre hooks)
              (pre_tool_use acc);
          post_tool_use :=
            accum atom_eqb (matcher_entries hook_is_post hooks)
              (post_tool_use acc) |}.
Proof.
  revert acc. induction hooks as [|h hooks IH]; intros acc H.
  - destruct acc; reflexivity.
  - cbn [forallb] in H. apply andb_prop in H. destruct H as [Hh H].
    cbn [foldM]. rewrite (generate_hook_eq acc h Hh). cbn [bind].
    rewrite (IH _ H). unfold matcher_entries, hook_is_post. cbn [filter].
    destruct (hook_is_pre h); reflexivity.
Qed.

Lemma generate_hooks_is_ok (hooks : list json) (acc : tool_use) :
  is_ok (foldM generate_hook hooks acc) = forallb ok_definition hooks.
Proof.
  revert acc. induction hooks as [|h hooks IH]; intros acc; [reflexivity|].
  cbn [foldM forallb]. rewrite <- (generate_hook_is_ok acc h).
  destruct (generate_hook acc h) as [acc'|e]; [|reflexivity].
  cbn [bind is_ok andb]. apply IH.
Qed.

Lemma generate_settings_is_ok (hooks : list json) :
  is_ok (generate_settings hooks) = forallb ok_definition hooks.
Proof.
  unfold generate_settings.
  rewrite <- (generate_hooks_is_ok hooks
                {| pre_tool_use := []; post_tool_use := [] |}).
  destruct (foldM generate_hook hooks _); reflexivity.
Qed.

Lemma generate_settings_eq (hooks : list json) :
  forallb ok_definition hooks = true ->
  generate_settings hooks
  = Ok (hooks_fragment
          (hook_type_section "PreToolUse"
             (grouped atom_eqb (matcher_entries hook_is_pre hooks))
           ++ hook_type_section "PostToolUse"
                (grouped atom_eqb (matcher_entries hook_is_post hooks)))).
Proof.
  intros H. unfold generate_settings. rewrite (generate_hooks_eq _ _ H).
  cbn [bind pre_tool_use post_tool_use]. rewrite !accum_grouped. reflexivity.
Qed.

Lemma generate_settings_inv (hooks : list json) (F : json) :
  generate_settings hooks = Ok F -> forallb ok_definition hooks = true.
Proof.
  intros H. rewrite <- generate_settings_is_ok, H. reflexivity.
Qed.

Lemma grouped_nil_iff {K V : Type} (eqb : K -> K -> bool)
    (its : list (K * list V)) :
  grouped eqb its = [] <-> its = [].
Proof.
  split; [|intros ->; reflexivity].
  destruct its as [|[k xs] its]; [reflexivity | discriminate].
Qed.

Lemma matcher_entries_nil (p : json -> bool) (hooks : list json) :
  matcher_entries p hooks = [] <-> existsb p hooks = false.
Proof.
  unfold matcher_entries. induction hooks as [|h hooks IH]; cbn [filter existsb].
  - split; reflexivity.
  - destruct (p h); cbn [map orb]; [split; discriminate | exact IH].
Qed.

Lemma hook_type_section_eq (name : string) (p : json -> bool)
    (hooks : list json) :
  hook_type_section name (grouped atom_eqb (matcher_entries p hooks))
  = if existsb p hooks then [(name, generated_groups p hooks)] else [].
Proof.
  unfold generated_groups. destruct (existsb p hooks) eqn:E.
  - destruct (grouped atom_eqb (matcher_entries p hooks)) eqn:G; [|reflexivity].
    apply grouped_nil_iff, matcher_entries_nil in G. congruence.
  - apply matcher_entries_nil in E. rewrite E. reflexivity.
Qed.

Lemma In_grouped_key {K V : Type} (eqb : K -> K -> bool) `{!KeyEq eqb}
    (its : list (K * list V)) (it : K * list V) (x : V) :
  In it its -> In x (snd it) ->
  exists g, In g (grouped eqb its)
    /\ eqb (fst g) (fst it) = true /\ In x (snd g).
Proof.
  intros Hit Hx.
  assert (Hm : kmem eqb (fst it)
                 (uniq_by eqb (fun k => k) [] (map fst its)) = true).
  { pose proof (kmem_uniq (fun k => k) (fst it) [] (map fst its)) as E.
    simpl in E. rewrite !map_id in E. rewrite E.
    apply kmem_In, in_map, Hit. }
  apply existsb_exists in Hm. destruct Hm as (k0 & Hk0 & E).
  exists (k0, gather eqb k0 its). split; [|split].
  - unfold grouped. apply in_map_iff. exists k0. auto.
  - cbn [fst]. rewrite keq_sym. exact E.
  - cbn [snd]. unfold gather. apply in_flat_map. exists it.
    split; [|assumption]. apply filter_In. split; [assumption|].
    exact E.
Qed.

Lemma hook_type_groups_fragment (result : list (string * json)) (ht : string) :
  result <> [] ->
  hook_type_groups (hooks_fragment result) ht = str_get ht result.
Proof.
  destruct result as [|x result]; [congruence|]. intros _. reflexivity.
Qed.

Lemma generated_hook_types (hooks : list json) (ht : string) :
  hook_type_groups
    (hooks_fragment
       ((if existsb hook_is_pre hooks
         then [("PreToolUse", generated_groups hook_is_pre hooks)] else [])
        ++ (if existsb hook_is_post hooks
            then [("PostToolUse", generated_groups hook_is_post hooks)]
            else []))) ht
  = if ht =? "PreToolUse" then
      if existsb hook_is_pre hooks
      then Some (generated_groups hook_is_pre hooks) else None
    else if ht =? "PostToolUse" then
      if existsb hook_is_post hooks
      then Some (generated_groups hook_is_post hooks) else None
    else None.
Proof.
  rewrite (String.eqb_sym ht "PreToolUse"), (String.eqb_sym ht "PostToolUse").
  destruct (existsb hook_is_pre hooks), (existsb hook_is_post hooks);
    cbn [app]; try (rewrite hook_type_groups_fragment by discriminate);
    unfold str_get; cbn [dict_get].
  - destruct ("PreToolUse" =? ht) eqn:E1; [reflexivity|].
    destruct ("PostToolUse" =? ht); reflexivity.
  - destruct ("PreToolUse" =? ht); [reflexivity|].
    destruct ("PostToolUse" =? ht); reflexivity.
  - destruct ("PreToolUse" =? ht) eqn:E1; [|reflexivity].
    apply String.eqb_eq in E1. subst ht. reflexivity.
  - destruct ("PreToolUse" =? ht); [reflexivity|].
    destruct ("PostToolUse" =? ht); reflexivity.
Qed.

(** X8. The fragment [_generate_settings] returns has at most the hook
    types [PreToolUse] and [PostToolUse], each only when it has a hook: the
    hooks of type [PreToolUse] under the first and all the others under the
    second, with one matcher group per distinct matcher in order of first
    appearance, holding the entries of its hooks in their order. *)
Theorem generated_settings_groups (hooks : list json) (F : json) :
  generate_settings hooks = Ok F ->
  forall ht,
    hook_type_groups F ht
    = if ht =? "PreToolUse" then
        if existsb hook_is_pre hooks
        then Some (generated_groups hook_is_pre hooks) else None
      else if ht =? "PostToolUse" then
        if existsb hook_is_post hooks
        then Some (generated_groups hook_is_post hooks) else None
      else None.
Proof.
  intros H ht. pose proof (generate_settings_inv _ _ H) as Hok.
  rewrite (generate_settings_eq _ Hok), !hook_type_section_eq in H.
  injection H as <-. apply generated_hook_types.
Qed.

Lemma generated_settings_groups_witness :
  exists F, generate_settings [lint_hook; guard_hook; format_hook] = Ok F
    /\ hook_type_groups F "PostToolUse"
       = Some (JArr [JObj [("matcher", JStr "Edit|Write");
                           ("hooks",
                            JArr [hook_entry "python3 .claude/hooks/lint.py"
                                    "Lint";
                                  hook_entry "bash .claude/hooks/format.sh"
                                    "Format"])]])
    /\ hook_type_groups F "Notification" = None.
Proof.
  eexists. split; [reflexivity|].
  rewrite !(generated_settings_groups [lint_hook; guard_hook; format_hook] _
              eq_refl).
  split; reflexivity.
Defined.

Lemma gather_matcher_entries (p : json -> bool) (m : atom)
    (hooks : list json) :
  gather atom_eqb m (matcher_entries p hooks)
  = map entry_of
      (filter (fun h => p h && atom_eqb (hook_matcher h) m) hooks).
Proof.
  unfold gather, matcher_entries.
  induction hooks as [|h hooks IH]; [reflexivity|].
  cbn [filter]. destruct (p h); cbn [andb map filter fst]; [|exact IH].
  destruct (atom_eqb (hook_matcher h) m); cbn [flat_map snd map app];
    rewrite IH; reflexivity.
Qed.

Lemma grouped_snd {K V : Type} (eqb : K -> K -> bool)
    (its : list (K * list V)) (g : K * list V) :
  In g (grouped eqb its) -> snd g = gather eqb (fst g) its.
Proof.
  unfold grouped. rewrite in_map_iff. intros (k & <- & _). reflexivity.
Qed.

(** X9. [_generate_settings] drops no hook and removes no duplicate: the
    group of a hook's matcher, under [PreToolUse] for a hook of that type
    and under [PostToolUse] for any other, holds the entries of all the
    hooks of this type and matcher, one for each hook, in their order. *)
Theorem every_hook_has_its_entry (hooks : list json) (F : json) (h : json) :
  generate_settings hooks = Ok F ->
  In h hooks ->
  exists gs g,
    hook_type_groups F (if hook_is_pre h then "PreToolUse" else "PostToolUse")
    = Some (JArr gs)
    /\ In g gs
    /\ atom_eqb (group_matcher g) (hook_matcher h) = true
    /\ In (entry_of h) (group_hooks g)
    /\ group_hooks g = map entry_of (filter (same_group h) hooks).
Proof.
  intros H Hin. pose proof (generate_settings_inv _ _ H) as Hok.
  rewrite (generate_settings_eq _ Hok), !hook_type_section_eq in H.
  injection H as <-. rewrite generated_hook_types.
  assert (G : forall p, p h = true ->
            existsb p hooks = true
            /\ exists g, In g (grouped atom_eqb (matcher_entries p hooks))
                 /\ atom_eqb (fst g) (hook_matcher h) = true
                 /\ In (entry_of h) (snd g)
                 /\ snd g
                    = map entry_of
                        (filter (fun h' => p h'
                                   && atom_eqb (hook_matcher h')
                                        (hook_matcher h)) hooks)).
  { intros p Hp. split.
    - apply existsb_exists. exists h. auto.
    - destruct (In_grouped_key atom_eqb (matcher_entries p hooks)
                  (hook_matcher h, [entry_of h]) (entry_of h))
        as (g & Hg & Hm & He).
      + unfold matcher_entries.
        apply (in_map (fun h => (hook_matcher h, [entry_of h]))).
        apply filter_In. auto.
      + left. reflexivity.
      + exists g. repeat split; try assumption.
        rewrite (grouped_snd _ _ _ Hg).
        rewrite (gather_eqb (fst g) (hook_matcher h) _ Hm).
        apply gather_matcher_entries. }
  destruct (hook_is_pre h) eqn:P.
  - destruct (G hook_is_pre P) as (E & g & Hg & Hm & He & Hs).
    cbn [String.eqb]. rewrite E.
    exists (map group_json (grouped atom_eqb (matcher_entries hook_is_pre hooks))),
      (group_json g).
    split; [reflexivity|]. split; [apply in_map, Hg|].
    rewrite group_matcher_json, group_hooks_json.
    repeat split; try assumption. rewrite Hs. f_equal. apply filter_ext.
    intros h'. unfold same_group. rewrite P.
    destruct (hook_is_pre h'); reflexivity.
  - assert (P' : hook_is_post h = true) by (unfold hook_is_post; rewrite P; reflexivity).
    destruct (G hook_is_post P') as (E & g & Hg & Hm & He & Hs).
    change ("PostToolUse" =? "PreToolUse") with false.
    change ("PostToolUse" =? "PostToolUse") with true.
    cbn iota. rewrite E.
    exists (map group_json (grouped atom_eqb (matcher_entries hook_is_post hooks))),
      (group_json g).
    split; [reflexivity|]. split; [apply in_map, Hg|].
    rewrite group_matcher_json, group_hooks_json.
    repeat split; try assumption. rewrite Hs. f_equal. apply filter_ext.
    intros h'. unfold same_group, hook_is_post. rewrite P.
    destruct (hook_is_pre h'); reflexivity.
Qed.

Lemma every_hook_has_its_entry_witness :
  exists F gs g,
    generate_settings [lint_hook; guard_hook; format_hook; lint_hook] = Ok F
    /\ hook_type_groups F "PostToolUse" = Some (JArr gs)
    /\ In g gs
    /\ group_hooks g
       = [hook_entry "python3 .claude/hooks/lint.py" "Lint";
          hook_entry "bash .claude/hooks/format.sh" "Format";
          hook_entry "python3 .claude/hooks/lint.py" "Lint"].
Proof.
  destruct (every_hook_has_its_entry
              [lint_hook; guard_hook; format_hook; lint_hook] _
              lint_hook eq_refl) as (gs & g & E & Hg & _ & _ & Hs).
  { left. reflexivity. }
  eexists. exists gs, g. split; [reflexivity|]. split; [exact E|].
  split; [exact Hg|]. rewrite Hs. reflexivity.
Defined.

(** X10. [_generate_settings] returns the empty mapping exactly for the
    empty list of hooks. *)
Theorem generated_settings_empty_iff (hooks : list json) :
  generate_settings hooks = Ok (JObj []) <-> hooks = [].
Proof.
  split; [|intros ->; reflexivity].
  intros H. pose proof (generate_settings_inv _ _ H) as Hok.
  rewrite (generate_settings_eq _ Hok), !hook_type_section_eq in H.
  destruct hooks as [|h hooks]; [reflexivity|]. exfalso.
  cbn [existsb] in H. unfold hook_is_post at 1 in H.
  destruct (hook_is_pre h); cbn [negb orb] in H.
  - discriminate H.
  - destruct (existsb hook_is_pre hooks); discriminate H.
Qed.

Lemma entry_of_ok (hook : json) :
  ok_definition hook = true -> ok_hook (entry_of hook) = true.
Proof.
  unfold ok_definition, entry_of, generate_entry. intros H.
  destruct (py_index hook "file") as [file|e]; [|discriminate H].
  cbn [bind] in *.
  destruct (hook_command_line file) as [command|e]; [|discriminate H].
  cbn [bind] in *.
  destruct (py_index hook "name") as [name|e]; [|discriminate H].
  cbn [bind] in *.
  destruct (py_get hook "statusMessage" name) as [status|e]; [|discriminate H].
  reflexivity.
Qed.

Lemma generated_groups_ok (p : json -> bool) (hooks : list json) :
  forallb ok_definition hooks = true ->
  ok_hook_list (generated_groups p hooks) = true.
Proof.
  intros H. rewrite forallb_forall in H.
  unfold ok_hook_list, generated_groups. cbn [py_iter is_ok andb].
  change (elems (JArr ?l)) with l. apply forallb_forall. intros g Hg.
  apply in_map_iff in Hg. destruct Hg as (g0 & <- & Hg0).
  unfold ok_group. rewrite parse_group_json, group_hooks_json.
  cbn [is_ok andb]. apply forallb_forall. intros x Hx.
  destruct (In_grouped _ _ _ _ Hg0 Hx) as (it & Hit & Hxi).
  unfold matcher_entries in Hit. apply in_map_iff in Hit.
  destruct Hit as (h & <- & Hh). apply filter_In in Hh.
  destruct Hxi as [<-|[]]. apply entry_of_ok, H, Hh.
Qed.

Lemma generated_mergeable (hooks : list json) (F : json) :
  generate_settings hooks = Ok F -> mergeable F = true.
Proof.
  intros H. pose proof (generate_settings_inv _ _ H) as Hok.
  rewrite (generate_settings_eq _ Hok), !hook_type_section_eq in H.
  injection H as <-.
  pose proof (generated_groups_ok hook_is_pre hooks Hok) as G1.
  pose proof (generated_groups_ok hook_is_post hooks Hok) as G2.
  destruct (existsb hook_is_pre hooks), (existsb hook_is_post hooks);
    cbn [app hooks_fragment]; unfold mergeable, ok_item, ok_hooks;
    cbn [py_items is_ok andb doc_items from_ok forallb fst snd];
    change ("hooks" =? "hooks") with true; cbn iota;
    cbn [py_items is_ok andb doc_items from_ok forallb fst snd];
    rewrite ?G1, ?G2; reflexivity.
Qed.

(** X11. [merge_settings] reads every fragment [_generate_settings]
    returns: putting one among the documents never makes the merge raise. *)
Theorem generated_settings_merge (hooks : list json) (F : json) :
  generate_settings hooks = Ok F ->
  forall pre post,
    is_ok (merge_settings (pre ++ F :: post))
    = is_ok (merge_settings (pre ++ post)).
Proof.
  intros H pre post. rewrite !merge_settings_is_ok, !forallb_app.
  cbn [forallb]. rewrite (generated_mergeable _ _ H). reflexivity.
Qed.

Lemma generated_settings_merge_witness :
  exists F, generate_settings [lint_hook; guard_hook; format_hook] = Ok F
    /\ is_ok (merge_settings [doc_D; F; allow_AB]) = true.
Proof.
  eexists. split; [reflexivity|].
  etransitivity.
  - exact (generated_settings_merge [lint_hook; guard_hook; format_hook] _
             eq_refl [doc_D] [allow_AB]).
  - reflexivity.
Defined.



(** * Later documents only append *)

Lemma hook_items_app (a b : list (string * json)) :
  hook_items (a ++ b) = hook_items a ++ hook_items b.
Proof. apply flat_map_app. Qed.

Lemma perm_items_app (a b : list (string * json)) :
  perm_items (a ++ b) = perm_items a ++ perm_items b.
Proof. apply flat_map_app. Qed.

Lemma arrived_groups_app (docs more : list json) (ht : string) :
  arrived_groups (docs ++ more) ht
  = arrived_groups docs ht ++ arrived_groups more ht.
Proof.
  unfold arrived_groups. rewrite all_items_app, hook_items_app.
  apply gather_app.
Qed.

Lemma arrived_permissions_app (docs more : list json) (kind : string) :
  arrived_permissions (docs ++ more) kind
  = arrived_permissions docs kind ++ arrived_permissions more kind.
Proof.
  unfold arrived_permissions. rewrite all_items_app, perm_items_app.
  apply gather_app.
Qed.

Lemma arrived_hooks_app (a b : list json) (m : atom) :
  arrived_hooks (a ++ b) m = arrived_hooks a m ++ arrived_hooks b m.
Proof. unfold arrived_hooks. rewrite filter_app, flat_map_app. reflexivity. Qed.

Lemma merged_permissions_app (x y : list json) :
  exists rest, merged_permissions (x ++ y) = merged_permissions x ++ rest.
Proof.
  unfold merged_permissions.
  rewrite map_app, (uniq_by_app (fun a : atom => a) []), map_app.
  eexists. reflexivity.
Qed.

Lemma str_get_merged_perms (docs : list json) (kind : string) :
  str_get kind (merged_perms docs)
  = if kmem String.eqb kind perm_kinds
    then Some (merged_permissions (arrived_permissions docs kind))
    else None.
Proof.
  unfold merged_perms, perm_kinds, str_get, kmem.
  cbn [map dict_get existsb].
  rewrite (String.eqb_sym kind "allow"), (String.eqb_sym kind "deny"),
    (String.eqb_sym kind "ask").
  destruct (String.eqb_spec "allow" kind) as [<-|_]; [reflexivity|].
  destruct (String.eqb_spec "deny" kind) as [<-|_]; [reflexivity|].
  destruct (String.eqb_spec "ask" kind) as [<-|_]; reflexivity.
Qed.

Lemma merged_groups_intro (entries : list json) (m : atom) :
  In m (uniq_by atom_eqb (fun k => k) [] (map group_matcher entries)) ->
  In (group_json (m, uniq_by atom_eqb hook_command [] (arrived_hooks entries m)))
     (merged_groups entries).
Proof.
  intros H. unfold merged_groups, grouped. rewrite map_map.
  apply in_map_iff. exists m. cbn [fst snd]. rewrite gather_groups.
  split; [reflexivity|]. rewrite map_map. exact H.
Qed.

Lemma merged_groups_app (a b : list json) (g : json) :
  In g (merged_groups a) ->
  exists g' rest,
    In g' (merged_groups (a ++ b))
    /\ group_matcher g' = group_matcher g
    /\ group_hooks g' = group_hooks g ++ rest.
Proof.
  intros Hg. destruct (merged_groups_In _ _ Hg) as [_ Hh].
  pose proof (in_map group_matcher _ _ Hg) as Hm.
  rewrite merged_groups_matchers in Hm.
  exists (group_json (group_matcher g,
            uniq_by atom_eqb hook_command []
              (arrived_hooks (a ++ b) (group_matcher g)))).
  rewrite group_matcher_json, group_hooks_json. cbn [fst snd].
  rewrite Hh.
  exists (uniq_by atom_eqb hook_command
            ([] ++ map hook_command
                     (uniq_by atom_eqb hook_command []
                        (arrived_hooks a (group_matcher g))))
            (arrived_hooks b (group_matcher g))).
  split; [|split; [reflexivity|]].
  - apply merged_groups_intro.
    rewrite map_app, (uniq_by_app (fun k : atom => k) []).
    apply in_or_app. left. exact Hm.
  - rewrite arrived_hooks_app. apply (uniq_by_app hook_command []).
Qed.

Lemma merged_groups_matchers_app (a b : list json) :
  exists rest,
    map group_matcher (merged_groups (a ++ b))
    = map group_matcher (merged_groups a) ++ rest.
Proof.
  rewrite !merged_groups_matchers, map_app,
    (uniq_by_app (fun k : atom => k) []).
  eexists. reflexivity.
Qed.

Lemma merged_keys_app (a b : list json) :
  exists rest,
    uniq_by String.eqb (fun k => k) [] (map fst (all_items (a ++ b)))
    = uniq_by String.eqb (fun k => k) [] (map fst (all_items a)) ++ rest.
Proof.
  rewrite all_items_app, map_app, (uniq_by_app (fun k : string => k) []).
  eexists. reflexivity.
Qed.

Lemma has_key_app (a b : list json) (k : string) :
  has_key a k = true -> has_key (a ++ b) k = true.
Proof.
  unfold has_key. rewrite all_items_app, map_app, kmem_app.
  intros ->. reflexivity.
Qed.

Lemma permission_list_merged (docs : list json) (m : result_dict)
    (kind : string) :
  forallb mergeable docs = true -> merge_result docs = Ok m ->
  permission_list (result_json m) kind
  = if has_key docs "permissions" && kmem String.eqb kind perm_kinds
    then Some (JArr (merged_permissions (arrived_permissions docs kind)))
    else None.
Proof.
  intros H E. destruct (merge_result_spec _ H) as (m' & E' & W & K & _ & P & _).
  assert (m' = m) as -> by congruence.
  unfold permission_list. rewrite out_get_result.
  rewrite (has_key_result docs m "permissions" K).
  destruct (str_get "permissions" m) as [s|] eqn:Es; [|reflexivity].
  destruct (perms_slot _ _ W Es) as [-> _]. cbn [option_map slot_json andb].
  rewrite out_get_lists, P, str_get_merged_perms.
  destruct (kmem String.eqb kind perm_kinds); reflexivity.
Qed.

(** X13. Documents merged after others only append: the keys of the merge
    of the first documents stay first in their order, every permission list
    and every list of matchers is extended at its end, and every matcher
    group keeps its entries in front of the ones that are new. *)
Theorem later_documents_only_append (docs more : list json) :
  forallb mergeable (docs ++ more) = true ->
  exists out out',
    merge_settings docs = Ok out
    /\ merge_settings (docs ++ more) = Ok out'
    /\ (exists rest, keys (doc_items out') = keys (doc_items out) ++ rest)
    /\ (forall kind l,
          permission_list out kind = Some (JArr l) ->
          exists rest, permission_list out' kind = Some (JArr (l ++ rest)))
    /\ (forall ht gs,
          hook_type_groups out ht = Some (JArr gs) ->
          exists gs',
            hook_type_groups out' ht = Some (JArr gs')
            /\ (exists rest,
                  map group_matcher gs' = map group_matcher gs ++ rest)
            /\ forall g, In g gs ->
                 exists g' rest,
                   In g' gs'
                   /\ group_matcher g' = group_matcher g
                   /\ group_hooks g' = group_hooks g ++ rest).
Proof.
  intros H. pose proof H as Hd. rewrite forallb_app in Hd.
  apply andb_prop in Hd. destruct Hd as [Hd _].
  destruct (merge_result_spec _ Hd) as (m & E & W & K & _).
  destruct (merge_result_spec _ H) as (m' & E' & W' & K' & _).
  destruct (merged_hook_groups _ Hd) as (o & Eo & _ & G).
  destruct (merged_hook_groups _ H) as (o' & Eo' & _ & G').
  assert (o = result_json m) as ->.
  { unfold merge_settings in Eo. rewrite E in Eo. injection Eo as <-.
    reflexivity. }
  assert (o' = result_json m') as ->.
  { unfold merge_settings in Eo'. rewrite E' in Eo'. injection Eo' as <-.
    reflexivity. }
  exists (result_json m), (result_json m').
  split; [exact Eo|]. split; [exact Eo'|]. split; [|split].
  - rewrite !result_json_items. cbn [doc_items py_items from_ok].
    rewrite !keys_enc, K, K'. apply merged_keys_app.
  - intros kind l Hl.
    rewrite (permission_list_merged docs m kind Hd E) in Hl.
    rewrite (permission_list_merged (docs ++ more) m' kind H E').
    destruct (has_key docs "permissions") eqn:Hk; [|discriminate].
    rewrite (has_key_app docs more _ Hk). cbn [andb] in *.
    destruct (kmem String.eqb kind perm_kinds); [|discriminate].
    injection Hl as <-. rewrite arrived_permissions_app.
    destruct (merged_permissions_app (arrived_permissions docs kind)
                (arrived_permissions more kind)) as (rest & ->).
    exists rest. reflexivity.
  - intros ht gs Hgs. rewrite G in Hgs. rewrite G'.
    rewrite all_items_app, hook_items_app, map_app, kmem_app.
    destruct (kmem String.eqb ht (map fst (hook_items (all_items docs))));
      [|discriminate].
    injection Hgs as <-. cbn [orb]. rewrite arrived_groups_app.
    eexists. split; [reflexivity|]. split.
    + apply merged_groups_matchers_app.
    + intros g Hg. apply merged_groups_app, Hg.
Qed.

Lemma later_documents_only_append_witness :
  exists out out',
    merge_settings [doc_D] = Ok out
    /\ merge_settings [doc_D; doc_F] = Ok out'
    /\ (exists rest, keys (doc_items out') = keys (doc_items out) ++ rest)
    /\ exists rest,
         permission_list out' "allow" = Some (JArr (JStr "Skill(a)" :: rest)).
Proof.
  destruct (later_documents_only_append [doc_D] [doc_F] eq_refl)
    as (out & out' & E & E' & Hk & Hp & _).
  exists out, out'. split; [exact E|]. split; [exact E'|].
  split; [exact Hk|].
  apply (Hp "allow" [JStr "Skill(a)"]).
  injection E as <-. reflexivity.
Defined.

(** * When main writes *)

Lemma merged_truthy (docs : list json) (m : result_dict) :
  merge_result docs = Ok m ->
  py_truthy (result_json m)
  = match all_items docs with [] => false | _ => true end.
Proof.
  intros E. pose proof (merge_result_mergeable _ _ E) as H.
  destruct (merge_result_spec _ H) as (m' & E' & _ & K & _).
  assert (m' = m) as -> by congruence.
  rewrite result_json_items. cbn [py_truthy].
  destruct (all_items docs) as [|[k v] its].
  - destruct m; [reflexivity | discriminate].
  - destruct m; [discriminate | reflexivity].
Qed.

Lemma all_items_nil_iff (docs : list json) :
  forallb mergeable docs = true ->
  (all_items docs = [] <-> Forall (fun d => d = JObj []) docs).
Proof.
  intros Hm. split.
  - intros K. apply Forall_forall. intros d Hd.
    pose proof (flat_map_nil doc_items _ d K Hd) as Hi.
    rewrite forallb_forall in Hm. specialize (Hm _ Hd).
    unfold mergeable in Hm. apply andb_prop in Hm. destruct Hm as [Hm _].
    destruct d as [?|?|its]; try discriminate. cbn in Hi. congruence.
  - intros H. induction H as [|d l Hd _ IH]; [reflexivity|].
    cbn [forallb] in Hm. apply andb_prop in Hm. destruct Hm as [_ Hm].
    subst d. apply IH, Hm.
Qed.

Lemma main_settings_some (existing : option json) (all_settings : list json) :
  forallb mergeable (existing_or_empty existing :: all_settings) = true ->
  all_items all_settings <> [] ->
  exists w,
    main_settings existing all_settings = Ok (Some w)
    /\ merge_settings (existing_or_empty existing :: all_settings) = Ok w.
Proof.
  intros H N. pose proof H as Ha. cbn [forallb] in Ha.
  apply andb_prop in Ha. destruct Ha as [_ Ha].
  destruct (merge_result_spec _ Ha) as (m & E & _).
  destruct (merge_result_spec _ H) as (o & Eo & _).
  exists (result_json o).
  assert (Ew : merge_settings (existing_or_empty existing :: all_settings)
               = Ok (result_json o)).
  { unfold merge_settings. rewrite Eo. reflexivity. }
  split; [|exact Ew].
  assert (Em : merge_settings all_settings = Ok (result_json m)).
  { unfold merge_settings. rewrite E. reflexivity. }
  unfold main_settings. rewrite Em. cbn [bind].
  rewrite (merged_truthy _ _ E).
  destruct (all_items all_settings) as [|x its]; [congruence|].
  rewrite update_settings_file_eq.
  pose proof (proj2 (merge_settings_flat [existing_or_empty existing]
                       all_settings [] (result_json m) (result_json o) Em))
    as F.
  rewrite app_nil_r in F. cbn [app] in F. rewrite (F Ew). reflexivity.
Qed.

Lemma is_empty_docs (docs : list json) :
  forallb is_empty_doc docs = true <-> Forall (fun d => d = JObj []) docs.
Proof.
  rewrite forallb_forall, Forall_forall. split; intros H d Hd.
  - specialize (H d Hd). destruct d as [?|?|[|? ?]]; try discriminate.
    reflexivity.
  - rewrite (H d Hd). reflexivity.
Qed.

Lemma main_settings_none (existing : option json) (all_settings : list json) :
  main_settings existing all_settings = Ok None
  <-> Forall (fun d => d = JObj []) all_settings.
Proof.
  split.
  - unfold main_settings. intros H. inv_bind H.
    destruct (merge_settings_inv _ _ Ha) as (m & E & ->).
    rewrite (merged_truthy _ _ E) in H.
    pose proof (merge_result_mergeable _ _ E) as Hm.
    apply (all_items_nil_iff _ Hm).
    destruct (all_items all_settings); [reflexivity|].
    inv_bind H. discriminate.
  - intros H.
    assert (Hm : forallb mergeable all_settings = true).
    { apply forallb_forall. intros d Hd. rewrite Forall_forall in H.
      rewrite (H d Hd). reflexivity. }
    destruct (merge_result_spec _ Hm) as (m & E & _).
    unfold main_settings, merge_settings. rewrite E. cbn [bind].
    rewrite (merged_truthy _ _ E).
    rewrite (proj2 (all_items_nil_iff _ Hm) H). reflexivity.
Qed.

(** X14. [main] returns, rather than raises, exactly when [merge_settings]
    reads every fragment and either the fragments are all empty, so the
    persisted document is not read, or it reads the persisted document
    too. *)
Theorem main_returns_iff (existing : option json) (all_settings : list json) :
  is_ok (main_settings existing all_settings)
  = forallb mergeable all_settings
    && (forallb is_empty_doc all_settings
        || mergeable (existing_or_empty existing)).
Proof.
  destruct (forallb mergeable all_settings) eqn:Hm; cbn [andb].
  - destruct (forallb is_empty_doc all_settings) eqn:He; cbn [orb].
    + apply is_empty_docs in He.
      rewrite (proj2 (main_settings_none existing all_settings) He).
      reflexivity.
    + destruct (mergeable (existing_or_empty existing)) eqn:Hx.
      * assert (N : all_items all_settings <> []).
        { intros K. apply (all_items_nil_iff _ Hm), is_empty_docs in K.
          congruence. }
        destruct (main_settings_some existing all_settings) as (w & E & _);
          [cbn [forallb]; rewrite Hx, Hm; reflexivity | exact N |].
        rewrite E. reflexivity.
      * destruct (main_settings existing all_settings) as [[w|]|e] eqn:E;
          [| |reflexivity]; exfalso.
        -- destruct (main_settings_written _ _ _ E) as (merged & _ & _ & U).
           apply is_ok_true in U. rewrite merge_settings_is_ok in U.
           cbn [forallb] in U. rewrite Hx in U. discriminate.
        -- apply main_settings_none, is_empty_docs in E. congruence.
  - unfold main_settings.
    destruct (merge_settings all_settings) as [merged|e] eqn:E;
      [|reflexivity].
    apply is_ok_true in E. rewrite merge_settings_is_ok in E. congruence.
Qed.

(** ** CommandManager.install *)

Lemma command_settings_mergeable (stems : list string) :
  mergeable (command_settings stems) = true.
Proof.
  apply valid_doc_mergeable. destruct stems as [|s stems]; [reflexivity|].
  unfold command_settings, valid_doc, valid_item, valid_permissions.
  cbn [forallb fst snd]. change ("permissions" =? "hooks") with false.
  change ("permissions" =? "permissions") with true. cbn iota.
  cbn [forallb fst snd valid_sequence].
  change (kmem String.eqb "allow" perm_kinds) with true. cbn [andb].
  rewrite !andb_true_r. apply forallb_forall. intros x Hx.
  apply in_map_iff in Hx. destruct Hx as (y & <- & _). reflexivity.
Qed.

Lemma merged_permissions_In_str (l : list json) (s : string) :
  In (JStr s) l -> In (JStr s) (merged_permissions l).
Proof.
  intros H. unfold merged_permissions.
  apply (in_map JAtom _ (AStr s)).
  pose proof (uniq_by_covers (fun a : atom => a) (map atom_of l) (AStr s)
                (in_map atom_of _ _ H)) as C.
  rewrite map_id in C. apply existsb_exists in C.
  destruct C as (a & Ha & Ea). destruct a; try discriminate.
  apply String.eqb_eq in Ea. subst. exact Ha.
Qed.

Lemma command_items (s : string) (stems : list string) :
  all_items [command_settings (s :: stems)]
  = [("permissions",
      JObj [("allow", JArr (map command_permission (s :: stems)))])].
Proof. reflexivity. Qed.

(** X15. Installing commands adds [Skill(<stem>)] for every command to
    [permissions.allow] of the settings file, behind what the persisted
    document allows and without duplicates, and leaves the hooks as merging
    the persisted document alone gives them. *)
Theorem commands_are_allowed (existing : option json) (stems : list string) :
  mergeable (existing_or_empty existing) = true ->
  stems <> [] ->
  exists w,
    main_settings existing [command_settings stems] = Ok (Some w)
    /\ permission_list w "allow"
       = Some (JArr (merged_permissions
                       (arrived_permissions [existing_or_empty existing] "allow"
                        ++ map command_permission stems)))
    /\ (forall s, In s stems ->
          In (command_permission s)
            (merged_permissions
               (arrived_permissions [existing_or_empty existing] "allow"
                ++ map command_permission stems)))
    /\ (forall ht,
          hook_type_groups w ht
          = if kmem String.eqb ht
                 (map fst (hook_items
                             (all_items [existing_or_empty existing])))
            then Some (JArr (merged_groups
                               (arrived_groups [existing_or_empty existing] ht)))
            else None).
Proof.
  intros Hx N. destruct stems as [|s0 stems]; [congruence|].
  set (E := existing_or_empty existing) in *.
  set (cs := command_settings (s0 :: stems)).
  assert (Hm : forallb mergeable [E; cs] = true).
  { cbn [forallb]. unfold cs. rewrite Hx, command_settings_mergeable.
    reflexivity. }
  destruct (main_settings_some existing [cs] Hm) as (w & Ew & Mw).
  { unfold cs. rewrite command_items. discriminate. }
  fold E in Mw. exists w. split; [exact Ew|].
  destruct (merge_settings_inv _ _ Mw) as (m & Em & ->).
  assert (A : arrived_permissions [E; cs] "allow"
              = arrived_permissions [E] "allow"
                ++ map command_permission (s0 :: stems)).
  { change [E; cs] with ([E] ++ [cs]). rewrite arrived_permissions_app.
    f_equal. unfold arrived_permissions, cs. rewrite command_items.
    unfold perm_items, section_items, gather.
    cbn [flat_map fst snd]. change ("permissions" =? "permissions") with true.
    cbn iota. unfold item_lists.
    cbn [doc_items py_items from_ok map fst snd app filter flat_map].
    change ("allow" =? "allow") with true. cbn iota.
    cbn [flat_map snd]. unfold elems. cbn [py_iter from_ok].
    rewrite !app_nil_r. reflexivity. }
  split; [|split].
  - rewrite (permission_list_merged [E; cs] m "allow" Hm Em).
    assert (has_key [E; cs] "permissions" = true) as ->.
    { change [E; cs] with ([E] ++ [cs]). unfold has_key.
      rewrite all_items_app, map_app, kmem_app. unfold cs.
      rewrite command_items. cbn [map fst kmem existsb].
      change ("permissions" =? "permissions") with true.
      cbn [orb]. apply orb_true_r. }
    change (kmem String.eqb "allow" perm_kinds) with true. cbn [andb].
    rewrite A. reflexivity.
  - intros s Hs. apply merged_permissions_In_str.
    apply in_or_app. right. apply (in_map command_permission), Hs.
  - intros ht. destruct (merged_hook_groups _ Hm) as (o & Eo & _ & G).
    assert (o = result_json m) as ->.
    { unfold merge_settings in Eo. rewrite Em in Eo. injection Eo as <-.
      reflexivity. }
    rewrite G. change [E; cs] with ([E] ++ [cs]).
    rewrite arrived_groups_app, all_items_app, hook_items_app.
    assert (hook_items (all_items [cs]) = []) as ->.
    { unfold cs. rewrite command_items. reflexivity. }
    unfold arrived_groups at 2.
    assert (hook_items (all_items [cs]) = []) as ->.
    { unfold cs. rewrite command_items. reflexivity. }
    rewrite !app_nil_r. reflexivity.
Qed.

Lemma commands_are_allowed_witness :
  exists w,
    main_settings (Some doc_D) [command_settings ["a"; "review"]]
    = Ok (Some w)
    /\ permission_list w "allow"
       = Some (JArr [JStr "Skill(a)"; JStr "Skill(review)"]).
Proof.
  destruct (commands_are_allowed (Some doc_D) ["a"; "review"] eq_refl)
    as (w & E & A & _).
  { discriminate. }
  exists w. split; [exact E|]. rewrite A. reflexivity.
Defined.

(** * Which exception the first loop raises *)

Lemma mapM_err {A B : Type} (f : A -> res B) (l : list A) :
  forallb (fun x => is_ok (f x)) l = false -> exists e, mapM f l = Err e.
Proof.
  intros H. rewrite <- mapM_is_ok in H.
  destruct (mapM f l) as [r|e]; [discriminate | eauto].
Qed.

Lemma merge_item_err (r1 r2 : result_dict) (item : string * json) :
  keys (permissions_of r1) = perm_kinds ->
  keys (permissions_of r2) = perm_kinds ->
  loadable_item item = false ->
  exists e, merge_item r1 item = Err e /\ merge_item r2 item = Err e.
Proof.
  destruct item as [key value]. unfold loadable_item, merge_item.
  cbn [fst snd]. intros K1 K2 H.
  destruct (key =? "hooks").
  - unfold doc_items in H.
    destruct (py_items value) as [its|e]; cbn [bind]; [|eauto].
    cbn [is_ok andb from_ok] in H. rewrite !extend_hook_types_eq.
    destruct (mapM_err iter_item its) as (e & ->).
    { rewrite <- H. apply forallb_ext. intros x. apply iter_item_is_ok. }
    cbn [bind]. eauto.
  - destruct (key =? "permissions"); [|discriminate].
    unfold doc_items in H.
    destruct (py_items value) as [its|e]; cbn [bind]; [|eauto].
    cbn [is_ok andb from_ok] in H.
    rewrite !extend_perm_types_eq by assumption.
    destruct (mapM_err perm_item its) as (e & ->).
    { rewrite <- H. apply forallb_ext. intros x. apply perm_item_is_ok. }
    cbn [bind]. eauto.
Qed.

Lemma merge_items_err (its : list (string * json)) (r1 r2 : result_dict) :
  wf_result r1 -> wf_result r2 ->
  forallb loadable_item its = false ->
  exists e, foldM merge_item its r1 = Err e /\ foldM merge_item its r2 = Err e.
Proof.
  revert r1 r2. induction its as [|item its IH]; intros r1 r2 W1 W2 H;
    [discriminate|].
  cbn [forallb] in H. cbn [foldM].
  destruct (loadable_item item) eqn:L.
  - rewrite !merge_item_ok by auto using permissions_of_keys. cbn [bind].
    apply IH; [| |exact H];
      (apply wf_str_set; [assumption | apply new_slot_ok; assumption]).
  - destruct (merge_item_err r1 r2 item) as (e & -> & ->);
      auto using permissions_of_keys.
    cbn [bind]. eauto.
Qed.

Lemma merge_doc_err (d : json) (r1 r2 : result_dict) :
  wf_result r1 -> wf_result r2 ->
  loadable d = false ->
  exists e, merge_doc r1 d = Err e /\ merge_doc r2 d = Err e.
Proof.
  intros W1 W2 H. unfold merge_doc, loadable, doc_items in *.
  destruct (py_items d) as [its|e]; cbn [bind]; [|eauto].
  cbn [is_ok andb from_ok] in H. apply merge_items_err; assumption.
Qed.

(** X16. The first document whose top level the first loop cannot read
    decides the exception: it is the one merging that document alone raises,
    whatever the later documents are and whatever is wrong inside the matcher
    groups and lists of the earlier ones. *)
Theorem first_unreadable_document_decides (pre post : list json) (d : json) :
  forallb loadable pre = true ->
  loadable d = false ->
  exists e,
    merge_settings [d] = Err e
    /\ merge_settings (pre ++ d :: post) = Err e.
Proof.
  intros Hp Hd. destruct (loadable_docs _ Hp) as [E W].
  destruct (merge_doc_err d [] (absorb (all_items pre) []) wf_empty W Hd)
    as (e & E1 & E2).
  exists e. unfold merge_settings, merge_result. split.
  - cbn [foldM]. rewrite E1. reflexivity.
  - rewrite foldM_app, E. cbn [bind foldM]. rewrite E2. reflexivity.
Qed.

Lemma first_unreadable_document_decides_witness :
  merge_settings [bad_group_doc] = Err AttributeError
  /\ merge_settings [bad_group_doc; number_hook_list_doc; unknown_kind_doc]
     = Err TypeError.
Proof.
  split; [reflexivity|].
  destruct (first_unreadable_document_decides [bad_group_doc]
              [unknown_kind_doc] number_hook_list_doc eq_refl eq_refl)
    as (e & E1 & E2).
  cbn [app] in E2. rewrite E2, <- E1. reflexivity.
Defined.

(** * dedupe_hooks *)

(** X17. What [dedupe_hooks] returns is its input with entries left out:
    the commands of the entries it keeps are pairwise different, every
    command of the input is still there, and deduplicating the result again
    changes nothing. *)
Theorem dedupe_hooks_keeps_first (l r : list json) :
  dedupe_hooks l = Ok r ->
  subseq r l
  /\ distinct atom_eqb (map hook_command r) = true
  /\ (forall h, In h l ->
        kmem atom_eqb (hook_command h) (map hook_command r) = true)
  /\ dedupe_hooks r = Ok r.
Proof.
  intros H. pose proof (dedupe_hooks_inv _ _ H) as Hok.
  rewrite (dedupe_hooks_pure _ Hok) in H. injection H as <-.
  split; [apply uniq_by_subseq|]. split; [apply uniq_by_distinct|].
  split; [intros h Hh; apply uniq_by_covers, Hh|].
  rewrite dedupe_hooks_pure.
  - rewrite uniq_by_idem. reflexivity.
  - apply forallb_forall. intros x Hx. apply uniq_by_incl in Hx.
    rewrite forallb_forall in Hok. apply Hok, Hx.
Qed.

Lemma dedupe_hooks_keeps_first_witness :
  dedupe_hooks [hook_entry "run-a" "A"; no_command; hook_entry "run-a" "again";
                empty_command]
  = Ok [hook_entry "run-a" "A"; no_command]
  /\ dedupe_hooks [hook_entry "run-a" "A"; no_command]
     = Ok [hook_entry "run-a" "A"; no_command].
Proof.
  split; [reflexivity|].
  apply (dedupe_hooks_keeps_first
           [hook_entry "run-a" "A"; no_command; hook_entry "run-a" "again";
            empty_command]).
  reflexivity.
Defined.

(** * get_hooks *)

Lemma index_hooks_get (hs : list json) (d d' : list (atom * json)) (k : atom) :
  foldM index_hook hs d = Ok d' ->
  dict_get atom_eqb k d'
  = match last_with_id k hs with
    | Some h => Some h
    | None => dict_get atom_eqb k d
    end.
Proof.
  revert d. induction hs as [|h hs IH]; intros d H.
  - injection H as <-. reflexivity.
  - cbn [foldM] in H. inv_bind H. unfold index_hook in Ha. inv_bind Ha.
    injection Ha as <-. rewrite (IH _ H). cbn [last_with_id].
    destruct (last_with_id k hs); [reflexivity|].
    rewrite Ha0, (get_set (eqb := atom_eqb)).
    destruct (atom_eqb a0 k); reflexivity.
Qed.

Lemma index_hooks_ok (hs : list json) (d : list (atom * json)) :
  forallb (fun h => is_ok (hook_id h)) hs = true ->
  exists d', foldM index_hook hs d = Ok d'.
Proof.
  revert d. induction hs as [|h hs IH]; intros d H; [eexists; reflexivity|].
  cbn [forallb] in H. apply andb_prop in H. destruct H as [Hh H].
  cbn [foldM]. unfold index_hook at 1.
  destruct (hook_id h) as [k|e]; [|discriminate]. cbn [bind]. apply IH, H.
Qed.

Lemma hooks_by_id_get (hs : list json) (d : list (atom * json)) (k : atom) :
  foldM index_hook hs [] = Ok d ->
  dict_get atom_eqb k d = last_with_id k hs.
Proof.
  intros H. rewrite (index_hooks_get hs [] d k H).
  destruct (last_with_id k hs); reflexivity.
Qed.

Lemma select_hooks_strings (hs : list json) (d : list (atom * json))
    (ids : list string) :
  foldM index_hook hs [] = Ok d ->
  select_hooks d (map JStr ids) = Ok (Returns (selected hs ids)).
Proof.
  intros H. unfold select_hooks, selected. rewrite mapM_map.
  rewrite (mapM_pure _ (fun i => match last_with_id (AStr i) hs with
                                 | Some h => [h]
                                 | None => []
                                 end)).
  - cbn [bind]. rewrite <- flat_map_concat_map. reflexivity.
  - intros i _. unfold select_hook. cbn [JStr py_hash bind].
    rewrite (hooks_by_id_get hs d _ H). reflexivity.
Qed.

Lemma last_with_id_In (k : atom) (hs : list json) (h : json) :
  last_with_id k hs = Some h ->
  In h hs /\ exists k', hook_id h = Ok k' /\ atom_eqb k' k = true.
Proof.
  induction hs as [|h0 hs IH]; [discriminate|]. cbn [last_with_id].
  destruct (last_with_id k hs) as [x|].
  - intros E. injection E as ->. destruct (IH eq_refl) as [Hin Hk].
    split; [right; exact Hin | exact Hk].
  - destruct (hook_id h0) as [k'|e] eqn:E0; [|discriminate].
    destruct (atom_eqb k' k) eqn:Ek; [|discriminate].
    intros E. injection E as <-. split; [left; reflexivity|]. eauto.
Qed.

Lemma atom_eqb_str (a : atom) (s : string) :
  atom_eqb a (AStr s) = true -> a = AStr s.
Proof.
  destruct a; try discriminate. cbn [atom_eqb]. intros H.
  apply String.eqb_eq in H. congruence.
Qed.

(** X18. Called with ids, [get_hooks] returns for every id that is known
    the last configured hook with this id, in the order of the ids; ids that
    are not known are skipped without a word.  So every hook it returns is
    one of the configuration with a requested id, and there are at most as
    many as ids. *)
Theorem get_hooks_by_ids (config : json) (hs : list json) (ids : list string) :
  config_hooks config = Ok hs ->
  forallb (fun h => is_ok (hook_id h)) hs = true ->
  get_hooks config (Some ids) None = Ok (Returns (selected hs ids))
  /\ Forall (fun h => In h hs
                      /\ exists i, In i ids /\ hook_id h = Ok (AStr i))
       (selected hs ids)
  /\ List.length (selected hs ids) <= List.length ids.
Proof.
  intros Hc Hok. split; [|split].
  - unfold get_hooks. rewrite Hc. cbn [bind].
    destruct (index_hooks_ok hs [] Hok) as (d & Ed). rewrite Ed. cbn [bind].
    apply select_hooks_strings, Ed.
  - apply Forall_forall. intros h Hh. unfold selected in Hh.
    apply in_flat_map in Hh. destruct Hh as (i & Hi & Hh).
    destruct (last_with_id (AStr i) hs) as [x|] eqn:E; [|destruct Hh].
    destruct Hh as [<-|[]].
    destruct (last_with_id_In _ _ _ E) as (Hin & k' & Hk & Ek).
    split; [exact Hin|]. exists i. split; [exact Hi|].
    rewrite Hk, (atom_eqb_str _ _ Ek). reflexivity.
  - unfold selected. induction ids as [|i ids IH]; [apply le_n|].
    cbn [flat_map]. rewrite length_app. cbn [List.length].
    destruct (last_with_id (AStr i) hs); cbn [List.length]; lia.
Qed.

Lemma get_hooks_by_ids_witness :
  get_hooks hooks_config (Some ["guard"; "nope"; "lint"]) None
  = Ok (Returns [guard_hook; lint_hook]).
Proof.
  destruct (get_hooks_by_ids hooks_config
              [lint_hook; guard_hook; format_hook] ["guard"; "nope"; "lint"]
              eq_refl eq_refl) as [E _].
  rewrite E. reflexivity.
Defined.

Lemma last_with_id_none (k : atom) (hs : list json) (ks : list atom) :
  mapM hook_id hs = Ok ks ->
  kmem atom_eqb k ks = false ->
  last_with_id k hs = None.
Proof.
  revert ks. induction hs as [|h hs IH]; intros ks H Hk; [reflexivity|].
  cbn [mapM] in H. inv_bind H. inv_bind H. injection H as <-.
  cbn [kmem existsb] in Hk. apply orb_false_elim in Hk.
  destruct Hk as [Hk1 Hk2]. cbn [last_with_id].
  rewrite (IH _ Ha0 Hk2), Ha, atom_eqb_sym, Hk1. reflexivity.
Qed.

Lemma last_with_id_distinct (hs : list json) (ks : list atom) (h : json)
    (k : atom) :
  mapM hook_id hs = Ok ks ->
  distinct atom_eqb ks = true ->
  In h hs -> hook_id h = Ok k ->
  last_with_id k hs = Some h.
Proof.
  revert ks. induction hs as [|h0 hs IH]; intros ks H D Hin Hk;
    [destruct Hin|].
  cbn [mapM] in H. inv_bind H. inv_bind H. injection H as <-.
  cbn [distinct] in D. apply andb_prop in D. destruct D as [D1 D2].
  apply negb_true_iff in D1. cbn [last_with_id].
  destruct Hin as [<-|Hin].
  - assert (a = k) as -> by congruence.
    rewrite (last_with_id_none k hs a0 Ha0 D1), Hk, atom_eqb_refl.
    reflexivity.
  - rewrite (IH _ Ha0 D2 Hin Hk). reflexivity.
Qed.

Lemma concat_singletons {A : Type} (l : list A) :
  List.concat (map (fun x => [x]) l) = l.
Proof.
  induction l as [|x l IH]; [reflexivity|]. cbn [map List.concat app].
  rewrite IH. reflexivity.
Qed.

Lemma mapM_all_ok {A B : Type} (f : A -> res B) (l : list A) (r : list B)
    (x : A) :
  mapM f l = Ok r -> In x l -> is_ok (f x) = true.
Proof.
  intros H Hin. apply is_ok_true in H. rewrite mapM_is_ok in H.
  rewrite forallb_forall in H. apply H, Hin.
Qed.

(** X19. Without ids and without a profile, [get_hooks] returns the hooks
    of the configuration as they are, provided their ids are pairwise
    different. *)
Theorem get_hooks_default_is_all (config : json) (hs : list json)
    (ks : list atom) :
  config_hooks config = Ok hs ->
  mapM hook_id hs = Ok ks ->
  distinct atom_eqb ks = true ->
  get_hooks config None None = Ok (Returns hs).
Proof.
  intros Hc Hk D.
  assert (Hok : forallb (fun h => is_ok (hook_id h)) hs = true).
  { rewrite <- mapM_is_ok, Hk. reflexivity. }
  unfold get_hooks. rewrite Hc. cbn [bind].
  destruct (index_hooks_ok hs [] Hok) as (d & Ed). rewrite Ed. cbn [bind].
  rewrite (mapM_pure _ (fun h => from_ok (JAtom ANone) (py_index h "id"))).
  - cbn [bind]. unfold select_hooks. rewrite mapM_map.
    rewrite (mapM_pure _ (fun h => [h])).
    + cbn [bind]. rewrite concat_singletons. reflexivity.
    + intros h Hh. pose proof (mapM_all_ok _ _ _ h Hk Hh) as Oh.
      unfold hook_id in Oh. unfold select_hook.
      destruct (py_index h "id") as [id|e] eqn:Ei; [|discriminate].
      cbn [from_ok bind] in *.
      destruct (py_hash id) as [k|e] eqn:Eh; [|discriminate]. cbn [bind].
      rewrite (hooks_by_id_get hs d k Ed).
      rewrite (last_with_id_distinct hs ks h k Hk D Hh); [reflexivity|].
      unfold hook_id. rewrite Ei. cbn [bind]. exact Eh.
  - intros h Hh. pose proof (mapM_all_ok _ _ _ h Hk Hh) as Oh.
    unfold hook_id in Oh.
    destruct (py_index h "id") as [id|e]; [reflexivity | discriminate].
Qed.

Lemma get_hooks_default_is_all_witness :
  get_hooks hooks_config None None
  = Ok (Returns [lint_hook; guard_hook; format_hook]).
Proof.
  apply (get_hooks_default_is_all hooks_config
           [lint_hook; guard_hook; format_hook]
           [AStr "lint"; AStr "guard"; AStr "format"]); reflexivity.
Defined.

(** X20. A profile that the configuration does not list makes [get_hooks]
    exit with status 1, whatever ids are given; a profile that lists ids
    selects the hooks these ids select, and the ids given are ignored.  The
    hooks of the configuration are indexed first: they must have their
    ids. *)
Theorem get_hooks_by_profile (config : json) (hs : list json)
    (ps : list (string * json)) (ids : option (list string))
    (profile : string) :
  config_hooks config = Ok hs ->
  forallb (fun h => is_ok (hook_id h)) hs = true ->
  py_index config "profiles" = Ok (JObj ps) ->
  profile <> "" ->
  (str_get profile ps = None ->
   get_hooks config ids (Some profile) = Ok (Exits 1%Z))
  /\ (forall prof l,
        str_get profile ps = Some prof ->
        py_index prof "hooks" = Ok (JArr (map JStr l)) ->
        get_hooks config ids (Some profile) = Ok (Returns (selected hs l))).
Proof.
  intros Hc Hok Hp N. destruct profile as [|c p]; [congruence|].
  destruct (index_hooks_ok hs [] Hok) as (d & Ed).
  unfold get_hooks. rewrite Hc. cbn [bind]. rewrite Ed. cbn [bind].
  rewrite Hp. cbn [bind py_in_str]. unfold dict_mem. fold (@str_get json).
  split.
  - intros E. rewrite E. reflexivity.
  - intros prof l E Hl. rewrite E. cbn [bind].
    change (py_index (JObj ps) (String c p))
      with (match str_get (String c p) ps with
            | Some x => Ok x
            | None => Err (KeyError (String c p))
            end).
    rewrite E. cbn [bind]. rewrite Hl.
    cbn [bind py_iter]. apply select_hooks_strings, Ed.
Qed.

Lemma get_hooks_by_profile_witness :
  get_hooks hooks_config (Some ["guard"]) (Some "rust") = Ok (Exits 1%Z)
  /\ get_hooks hooks_config (Some ["guard"]) (Some "python")
     = Ok (Returns [format_hook; lint_hook]).
Proof.
  destruct (get_hooks_by_profile hooks_config
              [lint_hook; guard_hook; format_hook]
              (doc_items (from_ok (JObj []) (py_index hooks_config "profiles")))
              (Some ["guard"]) "rust" eq_refl eq_refl eq_refl)
    as [E1 _]; [discriminate|].
  destruct (get_hooks_by_profile hooks_config
              [lint_hook; guard_hook; format_hook]
              (doc_items (from_ok (JObj []) (py_index hooks_config "profiles")))
              (Some ["guard"]) "python" eq_refl eq_refl eq_refl)
    as [_ E2]; [discriminate|].
  split; [apply E1; reflexivity|].
  rewrite (E2 _ ["format"; "lint"] eq_refl eq_refl). reflexivity.
Defined.

Lemma last_with_id_some (k : atom) (hs : list json) (h : json) :
  In h hs -> hook_id h = Ok k -> exists x, last_with_id k hs = Some x.
Proof.
  induction hs as [|h0 hs IH]; intros Hin Hk; [destruct Hin|].
  cbn [last_with_id].
  destruct (last_with_id k hs) as [x|] eqn:E; [eauto|].
  destruct Hin as [->|Hin].
  - rewrite Hk, atom_eqb_refl. eauto.
  - destruct (IH Hin Hk) as (x & Hx). discriminate.
Qed.

Lemma select_default (hs : list json) (d : list (atom * json))
    (l : list json) (ks : list atom) :
  foldM index_hook hs [] = Ok d ->
  (forall h, In h l -> In h hs) ->
  mapM hook_id l = Ok ks ->
  exists r,
    mapM (fun h => select_hook d (from_ok (JAtom ANone) (py_index h "id"))) l
    = Ok (map (fun x => [x]) r)
    /\ Forall2 (fun k h => last_with_id k hs = Some h) ks r.
Proof.
  intros Ed. revert ks. induction l as [|h l IH]; intros ks Hin Hk.
  - injection Hk as <-. exists []. split; [reflexivity | constructor].
  - cbn [mapM] in Hk. inv_bind Hk. inv_bind Hk. injection Hk as <-.
    destruct (IH a0 (fun x Hx => Hin x (or_intror Hx)) Ha0) as (r & Er & Fr).
    destruct (last_with_id_some a hs h (Hin h (or_introl eq_refl)) Ha)
      as (x & Hx).
    exists (x :: r). split; [|constructor; assumption].
    cbn [mapM map]. rewrite Er. unfold select_hook, hook_id in *.
    destruct (py_index h "id") as [id|e]; [|discriminate].
    cbn [from_ok bind] in *. rewrite Ha. cbn [bind].
    rewrite (hooks_by_id_get hs d a Ed), Hx. reflexivity.
Qed.

(** X21. Without ids and without a profile, [get_hooks] returns one hook
    for every hook of the configuration, in its place the last hook of the
    configuration with the same id: of two hooks with one id the first is
    lost and the second is returned twice. *)
Theorem get_hooks_default_last_wins (config : json) (hs : list json)
    (ks : list atom) :
  config_hooks config = Ok hs ->
  mapM hook_id hs = Ok ks ->
  exists r,
    get_hooks config None None = Ok (Returns r)
    /\ Forall2 (fun k h => last_with_id k hs = Some h) ks r.
Proof.
  intros Hc Hk.
  assert (Hok : forallb (fun h => is_ok (hook_id h)) hs = true).
  { rewrite <- mapM_is_ok, Hk. reflexivity. }
  destruct (index_hooks_ok hs [] Hok) as (d & Ed).
  destruct (select_default hs d hs ks Ed (fun h Hh => Hh) Hk) as (r & Er & Fr).
  exists r. split; [|exact Fr].
  unfold get_hooks. rewrite Hc. cbn [bind]. rewrite Ed. cbn [bind].
  rewrite (mapM_pure _ (fun h => from_ok (JAtom ANone) (py_index h "id"))).
  - cbn [bind]. unfold select_hooks. rewrite mapM_map, Er. cbn [bind].
    rewrite concat_singletons. reflexivity.
  - intros h Hh. pose proof (mapM_all_ok _ _ _ h Hk Hh) as Oh.
    unfold hook_id in Oh.
    destruct (py_index h "id") as [id|e]; [reflexivity | discriminate].
Qed.

Lemma get_hooks_default_last_wins_witness :
  get_hooks (JObj [("hooks", JArr [lint_hook; guard_hook; lint_again_hook])])
    None None
  = Ok (Returns [lint_again_hook; guard_hook; lint_again_hook]).
Proof.
  destruct (get_hooks_default_last_wins
              (JObj [("hooks", JArr [lint_hook; guard_hook; lint_again_hook])])
              [lint_hook; guard_hook; lint_again_hook]
              [AStr "lint"; AStr "guard"; AStr "lint"] eq_refl eq_refl)
    as (r & E & _).
  rewrite E. apply f_equal. injection E as <-. reflexivity.
Defined.

(** * parse_frontmatter *)

Lemma text_eqb_eq (a b : text) : text_eqb a b = true <-> a = b.
Proof.
  revert b. induction a as [|x a IH]; intros [|y b]; cbn [text_eqb];
    try (split; [discriminate | discriminate]); [split; reflexivity|].
  rewrite andb_true_iff, N.eqb_eq, IH. split.
  - intros [-> ->]. reflexivity.
  - intros E. injection E as -> ->. auto.
Qed.

Lemma text_eqb_refl (a : text) : text_eqb a a = true.
Proof. apply text_eqb_eq. reflexivity. Qed.

Lemma text_dict_set_Forall {V : Type} (P : text * V -> Prop) (k : text)
    (v : V) (d : list (text * V)) :
  Forall P d -> P (k, v) -> Forall P (dict_set text_eqb k v d).
Proof.
  intros Hd Hk. induction d as [|[k' v'] d IH]; cbn [dict_set].
  - constructor; [exact Hk | constructor].
  - inversion Hd as [|? ? H1 H2]; subst.
    destruct (text_eqb k' k) eqn:E.
    + apply text_eqb_eq in E. subst k'. constructor; assumption.
    + constructor; [assumption | apply IH; assumption].
Qed.

Lemma text_get_set {V : Type} (k k' : text) (v : V) (d : list (text * V)) :
  dict_get text_eqb k' (dict_set text_eqb k v d)
  = if text_eqb k k' then Some v else dict_get text_eqb k' d.
Proof.
  induction d as [|[k0 v0] d IH]; cbn [dict_set dict_get].
  - destruct (text_eqb k k'); reflexivity.
  - destruct (text_eqb k0 k) eqn:E0; cbn [dict_get].
    + apply text_eqb_eq in E0. subst k0.
      destruct (text_eqb k k'); reflexivity.
    + rewrite IH. destruct (text_eqb k0 k') eqn:E1; [|reflexivity].
      apply text_eqb_eq in E1. subst k0.
      destruct (text_eqb k k') eqn:E2; [|reflexivity].
      apply text_eqb_eq in E2. subst k'. rewrite text_eqb_refl in E0.
      discriminate.
Qed.

Lemma split_on_no_sep (sep : N) (s : text) :
  Forall (fun l => ~ In sep l) (split_on sep s).
Proof.
  induction s as [|c s IH]; cbn [split_on].
  - constructor; [intros [] | constructor].
  - destruct (N.eqb_spec c sep) as [->|Nc].
    + constructor; [intros [] | exact IH].
    + destruct (split_on sep s) as [|l ls].
      * constructor; [|constructor]. intros [H|[]]. congruence.
      * inversion IH as [|? ? H1 H2]; subst. constructor; [|assumption].
        intros [H|H]; [congruence | auto].
Qed.

Lemma split_once_parts (sep : N) (s k v : text) :
  split_once sep s = Some (k, v) ->
  ~ In sep k /\ s = k ++ sep :: v.
Proof.
  revert k v. induction s as [|c s IH]; intros k v; cbn [split_once];
    [discriminate|].
  destruct (N.eqb_spec c sep) as [->|Nc].
  - intros E. injection E as <- <-. split; [intros [] | reflexivity].
  - destruct (split_once sep s) as [[k0 v0]|]; [|discriminate].
    cbn [option_map fst snd]. intros E. injection E as <- <-.
    destruct (IH k0 v0 eq_refl) as [H1 H2]. split.
    + intros [H|H]; [congruence | auto].
    + rewrite H2 at 1. reflexivity.
Qed.

Lemma starts_with_firstn (p s : text) (n : nat) :
  List.length p <= n -> starts_with p (firstn n s) = starts_with p s.
Proof.
  revert s n. induction p as [|a p IH]; intros s n H; [reflexivity|].
  cbn [List.length] in H. destruct n as [|n]; [lia|].
  destruct s as [|b s]; [reflexivity|]. cbn [firstn starts_with].
  rewrite IH by lia. reflexivity.
Qed.

Lemma text_find_firstn (p s : text) (offset : nat) :
  text_find p s = Some offset ->
  text_find p (firstn (offset + List.length p) s) = Some offset.
Proof.
  revert offset. induction s as [|c s IH]; intros offset.
  - cbn [text_find]. destruct (starts_with p []) eqn:E; [|discriminate].
    intros H. injection H as <-. cbn [firstn]. destruct p; [reflexivity|].
    discriminate.
  - cbn [text_find]. destruct (starts_with p (c :: s)) eqn:E.
    + intros H. injection H as <-. cbn [Nat.add].
      destruct (firstn (List.length p) (c :: s)) as [|c' s'] eqn:F;
        cbn [text_find];
        rewrite <- F, (starts_with_firstn p (c :: s) _ (le_n _)), E;
        reflexivity.
    + destruct (text_find p s) as [o|] eqn:Fo; [|discriminate].
      cbn [option_map]. intros H. injection H as <-.
      cbn [Nat.add firstn text_find].
      change (c :: firstn (o + List.length p) s)
        with (firstn (S (o + List.length p)) (c :: s)).
      rewrite (starts_with_firstn p (c :: s)) by lia. rewrite E.
      rewrite (IH o eq_refl). reflexivity.
Qed.

Section FrontmatterFacts.
Variable is_space : N -> bool.

Lemma lstrip_In (c : N) (s : text) : In c (lstrip is_space s) -> In c s.
Proof.
  induction s as [|x s IH]; cbn [lstrip]; [auto|].
  destruct (is_space x); [right; auto | auto].
Qed.

Lemma rstrip_In (c : N) (s : text) : In c (rstrip is_space s) -> In c s.
Proof.
  induction s as [|x s IH]; cbn [rstrip]; [auto|].
  destruct (rstrip is_space s) as [|y r].
  - destruct (is_space x); [intros [] | intros [H|[]]; left; exact H].
  - intros [H|H]; [left; exact H | right; apply IH, H].
Qed.

Lemma strip_In (c : N) (s : text) : In c (strip is_space s) -> In c s.
Proof. intros H. apply lstrip_In, rstrip_In, H. Qed.

Lemma lstrip_head (s : text) :
  match lstrip is_space s with
  | c :: _ => is_space c = false
  | [] => True
  end.
Proof.
  induction s as [|x s IH]; cbn [lstrip]; [exact I|].
  destruct (is_space x) eqn:E; [exact IH | exact E].
Qed.

Lemma lstrip_fixed (s : text) :
  match s with c :: _ => is_space c = false | [] => True end ->
  lstrip is_space s = s.
Proof. destruct s as [|c s]; cbn [lstrip]; [auto|]. intros ->. reflexivity. Qed.

Lemma rstrip_head (s : text) :
  match s with c :: _ => is_space c = false | [] => True end ->
  match rstrip is_space s with c :: _ => is_space c = false | [] => True end.
Proof.
  destruct s as [|c s]; cbn [rstrip]; [auto|]. intros E.
  destruct (rstrip is_space s); [rewrite E|]; exact E.
Qed.

Lemma rstrip_idem (s : text) :
  rstrip is_space (rstrip is_space s) = rstrip is_space s.
Proof.
  induction s as [|c s IH]; cbn [rstrip]; [reflexivity|].
  destruct (rstrip is_space s) as [|y r] eqn:E.
  - destruct (is_space c) eqn:Ec; cbn [rstrip]; [reflexivity|].
    rewrite Ec. reflexivity.
  - change (rstrip is_space (c :: y :: r))
      with (match rstrip is_space (y :: r) with
            | [] => if is_space c then [] else [c]
            | r' => c :: r'
            end).
    rewrite IH. reflexivity.
Qed.

Lemma strip_idem (s : text) :
  strip is_space (strip is_space s) = strip is_space s.
Proof.
  unfold strip.
  rewrite (lstrip_fixed (rstrip is_space (lstrip is_space s))).
  - apply rstrip_idem.
  - apply rstrip_head, lstrip_head.
Qed.

(** A key and a value as the loop stores them. *)
Definition clean_entry (kv : text * text) : Prop :=
  ~ In colon (fst kv) /\ ~ In newline (fst kv) /\ ~ In newline (snd kv)
  /\ strip is_space (fst kv) = fst kv /\ strip is_space (snd kv) = snd kv.

Lemma frontmatter_line_clean (fm : list (text * text)) (line : text) :
  ~ In newline line -> Forall clean_entry fm ->
  Forall clean_entry (frontmatter_line is_space fm line).
Proof.
  intros Hn Hf. unfold frontmatter_line.
  destruct (split_once colon line) as [[key value]|] eqn:E; [|exact Hf].
  destruct (split_once_parts _ _ _ _ E) as [Hc ->].
  apply text_dict_set_Forall; [exact Hf|].
  unfold clean_entry. cbn [fst snd]. rewrite !strip_idem.
  repeat split; try reflexivity; intros H; apply strip_In in H.
  - auto.
  - apply Hn, in_or_app. left. exact H.
  - apply Hn, in_or_app. right. right. exact H.
Qed.

Lemma frontmatter_lines_clean (lines : list text) (fm : list (text * text)) :
  Forall (fun l => ~ In newline l) lines -> Forall clean_entry fm ->
  Forall clean_entry (fold_left (frontmatter_line is_space) lines fm).
Proof.
  intros Hl. revert fm. induction Hl as [|line lines H1 H2 IH]; intros fm Hf;
    [exact Hf|].
  cbn [fold_left]. apply IH, frontmatter_line_clean; assumption.
Qed.

Lemma parse_frontmatter_lines (content : text) :
  parse_frontmatter is_space content
  = fold_left (frontmatter_line is_space)
      (frontmatter_lines is_space content) [].
Proof.
  unfold parse_frontmatter, frontmatter_lines.
  destruct (starts_with marker content); [|reflexivity].
  destruct (text_find marker (skipn 3 content)); reflexivity.
Qed.

Lemma frontmatter_lines_no_newline (content : text) :
  Forall (fun l => ~ In newline l) (frontmatter_lines is_space content).
Proof.
  unfold frontmatter_lines.
  destruct (starts_with marker content); [|constructor].
  destruct (text_find marker (skipn 3 content)); [|constructor].
  apply split_on_no_sep.
Qed.

(** X22. In what [parse_frontmatter] returns, no key contains a colon,
    neither keys nor values contain a line break, and keys and values are
    stripped: stripping them again changes nothing. *)
Theorem frontmatter_entries_are_clean (content k v : text) :
  In (k, v) (parse_frontmatter is_space content) ->
  ~ In colon k /\ ~ In newline k /\ ~ In newline v
  /\ strip is_space k = k /\ strip is_space v = v.
Proof.
  intros H. rewrite parse_frontmatter_lines in H.
  pose proof (frontmatter_lines_clean _ []
                (frontmatter_lines_no_newline content) (Forall_nil _)) as F.
  rewrite Forall_forall in F. apply (F (k, v) H).
Qed.

Lemma fold_frontmatter_get (lines : list text) (fm : list (text * text))
    (k : text) :
  dict_get text_eqb k (fold_left (frontmatter_line is_space) lines fm)
  = match line_value is_space k lines with
    | Some v => Some v
    | None => dict_get text_eqb k fm
    end.
Proof.
  revert fm. induction lines as [|line lines IH]; intros fm; [reflexivity|].
  cbn [fold_left line_value]. rewrite IH.
  destruct (line_value is_space k lines); [reflexivity|].
  unfold frontmatter_line.
  destruct (split_once colon line) as [[key value]|]; [|reflexivity].
  rewrite text_get_set.
  destruct (text_eqb (strip is_space key) k); reflexivity.
Qed.

(** X23. Looking a key up in what [parse_frontmatter] returns gives the
    stripped value of the last line between the markers whose stripped key it
    is, the value being all that follows the first colon of the line; lines
    without a colon count for nothing. *)
Theorem frontmatter_last_line_wins (content k : text) :
  dict_get text_eqb k (parse_frontmatter is_space content)
  = line_value is_space k (frontmatter_lines is_space content).
Proof.
  rewrite parse_frontmatter_lines, fold_frontmatter_get.
  destruct (line_value is_space k (frontmatter_lines is_space content));
    reflexivity.
Qed.

(** X24. [parse_frontmatter] reads nothing behind the closing marker: the
    content cut off after it gives the same result. *)
Theorem frontmatter_ignores_the_body (content : text) (offset : nat) :
  text_find marker (skipn 3 content) = Some offset ->
  parse_frontmatter is_space (firstn (offset + 6) content)
  = parse_frontmatter is_space content.
Proof.
  intros H. unfold parse_frontmatter.
  rewrite (starts_with_firstn marker content (offset + 6))
    by (cbn [marker List.length]; lia).
  destruct (starts_with marker content); [|reflexivity].
  assert (E : skipn 3 (firstn (offset + 6) content)
              = firstn (offset + 3) (skipn 3 content)).
  { rewrite skipn_firstn_comm. f_equal. lia. }
  rewrite E, H.
  pose proof (text_find_firstn marker (skipn 3 content) offset H) as F.
  cbn [marker List.length] in F. rewrite F.
  rewrite firstn_firstn, Nat.min_l by lia. reflexivity.
Qed.
End FrontmatterFacts.

Lemma frontmatter_entries_are_clean_witness :
  In (codes "model", codes "opus:4") (parse_frontmatter ascii_space agent_file)
  /\ ~ In colon (codes "model").
Proof.
  assert (H : In (codes "model", codes "opus:4")
                (parse_frontmatter ascii_space agent_file)).
  { right. left. reflexivity. }
  split; [exact H|].
  apply (frontmatter_entries_are_clean ascii_space agent_file _ _ H).
Defined.

Lemma frontmatter_ignores_the_body_witness :
  parse_frontmatter ascii_space (firstn 68 agent_file)
  = [(codes "name", codes "second"); (codes "model", codes "opus:4")]
  /\ parse_frontmatter ascii_space agent_file
     = [(codes "name", codes "second"); (codes "model", codes "opus:4")].
Proof.
  split; [reflexivity|].
  rewrite <- (frontmatter_ignores_the_body ascii_space agent_file 62 eq_refl).
  reflexivity.
Defined.
